(** * gitbase / internal/function: the UAST functions

    A shallow embedding of [internal/function/uast.go]: the process-wide
    tree cache and its configuration, the parse orchestration of
    [uastFunc.Eval] / [uastFunc.getUAST], and the query and extraction
    functions [uast_xpath], [uast_extract], [uast_children] and
    [uast_imports].

    Go values are modelled as follows.
    - [string] is a Rocq [string] (a sequence of 8-bit characters),
      [[]byte] is a [list byte], [int] and [uint64] are [Z].
    - A function returning [(T, error)] returns a pair [T * option error];
      [None] is the [nil] error.
    - A function that may panic returns an [Outcome]; functions that touch
      the package-level variables, the hash object, the parser or the logs
      are state transformers over [World].
    - Go interfaces ([hash.Hash64], [sql.KeyValueCache]) are type classes;
      the collaborators that live outside the package are the fields of the
      class [Host]. *)

From Stdlib Require Import ZArith List String Ascii Bool Lia.
From Stdlib.Strings Require Import Byte.
From Stdlib Require Import DecimalString.
Import ListNotations.

Local Open Scope string_scope.
Local Open Scope Z_scope.

Set Implicit Arguments.
Set Warnings "-register-all".

(** ** Go runtime: errors, panics and [recover] *)

(** The error values the package tells apart: [ErrParseBlob] and
    [derrors.ErrSyntax] are recognised with [.Is(err)]; everything else is
    an error with a message. *)
Inductive ErrKind : Type := KParseBlob | KSyntax | KOther.

Record error : Type := mkError { err_kind : ErrKind; err_text : string }.

Definition ErrParseBlob_Is (e : error) : bool :=
  match err_kind e with KParseBlob => true | _ => false end.

Definition ErrSyntax_Is (e : error) : bool :=
  match err_kind e with KSyntax => true | _ => false end.

(** [fmt.Errorf(prefix + "%s", r)] *)
Definition Errorf (prefix r : string) : error := mkError KOther (prefix ++ r).

(** A computation either returns or panics with a value (rendered by [%s]). *)
Inductive Outcome (A : Type) : Type :=
| Done (a : A)
| Panicked (r : string).

Arguments Done {A} a.
Arguments Panicked {A} r.

Definition obind {A B : Type} (c : Outcome A) (k : A -> Outcome B) : Outcome B :=
  match c with
  | Done a => k a
  | Panicked r => Panicked r
  end.

(** The text of the runtime panic raised by a method call on a nil
    interface value. *)
Definition nilDeref : string :=
  "runtime error: invalid memory address or nil pointer dereference".

(** The text of the runtime panic raised by a failed type assertion. *)
Definition badAssert : string := "interface conversion".

(** ** strconv.Atoi (64-bit [int]) *)
Module strconv.

Definition maxInt : Z := 9223372036854775807.
Definition minInt : Z := -9223372036854775808.

Definition isDigit (c : ascii) : bool :=
  let n := nat_of_ascii c in (Nat.leb 48 n && Nat.leb n 57)%bool.

Definition digitVal (c : ascii) : Z := Z.of_nat (nat_of_ascii c) - 48.

(** Accumulates decimal digits; [None] on the first non-digit. *)
Fixpoint digits (s : string) (n : Z) : option Z :=
  match s with
  | EmptyString => Some n
  | String c s' => if isDigit c then digits s' (n * 10 + digitVal c) else None
  end.

Definition ErrSyntax (s : string) : error :=
  mkError KOther ("strconv.Atoi: parsing " ++ s ++ ": invalid syntax").
Definition ErrRange (s : string) : error :=
  mkError KOther ("strconv.Atoi: parsing " ++ s ++ ": value out of range").

(** An optional sign, then at least one decimal digit; out of range values
    are clamped and reported. *)
Definition Atoi (s : string) : Z * option error :=
  match s with
  | EmptyString => (0, Some (ErrSyntax s))
  | String c rest =>
      let neg := Ascii.eqb c "-" in
      let body := if (Ascii.eqb c "-" || Ascii.eqb c "+")%bool then rest else s in
      match body with
      | EmptyString => (0, Some (ErrSyntax s))
      | _ =>
          match digits body 0 with
          | None => (0, Some (ErrSyntax s))
          | Some n =>
              let v := if neg then - n else n in
              if v <? minInt then (minInt, Some (ErrRange s))
              else if maxInt <? v then (maxInt, Some (ErrRange s))
              else (v, None)
          end
      end
  end.

End strconv.

(** ** strings.ToLower *)
Module strings.

(** [utf8.RuneSelf]: bytes below it are single-byte runes. *)
Definition RuneSelf : nat := 128.

Definition isASCIIByte (c : ascii) : bool := Nat.ltb (nat_of_ascii c) RuneSelf.

Definition isUpper (c : ascii) : bool :=
  let n := nat_of_ascii c in (Nat.leb 65 n && Nat.leb n 90)%bool.

(** [c += 'a' - 'A'] for an upper-case ASCII letter. *)
Definition lowerByte (c : ascii) : ascii :=
  if isUpper c then ascii_of_nat (nat_of_ascii c + 32) else c.

Fixpoint isASCII (s : string) : bool :=
  match s with
  | EmptyString => true
  | String c s' => (isASCIIByte c && isASCII s')%bool
  end.

Fixpoint hasUpper (s : string) : bool :=
  match s with
  | EmptyString => false
  | String c s' => (isUpper c || hasUpper s')%bool
  end.

Fixpoint lowerBytes (s : string) : string :=
  match s with
  | EmptyString => EmptyString
  | String c s' => String (lowerByte c) (lowerBytes s')
  end.

Section ToLower.

(** What [strings.Map(unicode.ToLower, _)] produces for a maximal run of
    bytes [>= utf8.RuneSelf]: the UTF-8 decoding of such a run never
    consumes a neighbouring ASCII byte, so the result for the run
    depends on the run alone. The function is a parameter; the module
    [unicode] below has the case tables up to U+017F. *)
Variable lowerRun : string -> string.

Definition flush (run : string) : string :=
  match run with
  | EmptyString => EmptyString
  | _ => lowerRun run
  end.

(** [strings.Map(unicode.ToLower, s)], rune by rune: an ASCII byte is a
    rune of its own and [unicode.ToLower] maps it as [lowerByte] does;
    [run] holds the non-ASCII bytes read since the last ASCII byte. *)
Fixpoint MapToLower (run s : string) : string :=
  match s with
  | EmptyString => flush run
  | String c s' =>
      if isASCIIByte c
      then flush run ++ String (lowerByte c) (MapToLower EmptyString s')
      else MapToLower (run ++ String c EmptyString) s'
  end.

Definition ToLower (s : string) : string :=
  if isASCII s
  then (if hasUpper s then lowerBytes s else s)
  else MapToLower EmptyString s.

End ToLower.

End strings.

(** ** unicode: the case mapping of the runes up to U+017F *)
Module unicode.

Definition MaxRune : Z := 1114111.
Definition MaxASCII : Z := 127.

(** The indices into [CaseRange.Delta]. *)
Definition UpperCase : Z := 0.
Definition LowerCase : Z := 1.
Definition TitleCase : Z := 2.

(** The delta that marks an alternating sequence of upper and lower case. *)
Definition UpperLower : Z := MaxRune + 1.

Record CaseRange : Type := mkCaseRange { Lo : Z; Hi : Z; Delta : Z * Z * Z }.

Definition deltaOf (cr : CaseRange) (_case : Z) : Z :=
  let '(up, low, title) := Delta cr in
  if _case =? UpperCase then up else if _case =? LowerCase then low else title.

Definition alternating : Z * Z * Z := (UpperLower, UpperLower, UpperLower).

(** The entries of [_CaseRanges] from U+0041 to U+017F. *)
Definition CaseRanges : list CaseRange :=
  [mkCaseRange 65 90 (0, 32, 0);
   mkCaseRange 97 122 (-32, 0, -32);
   mkCaseRange 181 181 (743, 0, 743);
   mkCaseRange 192 214 (0, 32, 0);
   mkCaseRange 216 222 (0, 32, 0);
   mkCaseRange 224 246 (-32, 0, -32);
   mkCaseRange 248 254 (-32, 0, -32);
   mkCaseRange 255 255 (121, 0, 121);
   mkCaseRange 256 303 alternating;
   mkCaseRange 304 304 (0, -199, 0);
   mkCaseRange 305 305 (-232, 0, -232);
   mkCaseRange 306 311 alternating;
   mkCaseRange 313 328 alternating;
   mkCaseRange 330 375 alternating;
   mkCaseRange 376 376 (0, -121, 0);
   mkCaseRange 377 382 alternating;
   mkCaseRange 383 383 (-300, 0, -300)].

(** [to]: the range that holds [r] gives the delta; in an alternating
    sequence the low bit of the offset is cleared for upper and title
    case and set for lower case. The ranges are disjoint and in order:
    the search of the source finds the one this walk finds. *)
Fixpoint to (_case : Z) (r : Z) (caseRange : list CaseRange) : Z :=
  match caseRange with
  | [] => r
  | cr :: rest =>
      if ((Lo cr <=? r) && (r <=? Hi cr))%bool
      then
        let delta := deltaOf cr _case in
        if MaxRune <? delta
        then Lo cr + Z.lor (Z.ldiff (r - Lo cr) 1) (Z.land _case 1)
        else r + delta
      else to _case r rest
  end.

(** [unicode.ToLower] *)
Definition ToLower (r : Z) : Z :=
  if r <=? MaxASCII
  then (if ((65 <=? r) && (r <=? 90))%bool then r + 32 else r)
  else to LowerCase r CaseRanges.

(** [unicode.ToUpper] *)
Definition ToUpper (r : Z) : Z :=
  if r <=? MaxASCII
  then (if ((97 <=? r) && (r <=? 122))%bool then r - 32 else r)
  else to UpperCase r CaseRanges.

End unicode.

(** ** unicode/utf8: the sequences of one and two bytes up to U+017F *)
Module utf8.

Definition byteOf (c : ascii) : Z := Z.of_nat (nat_of_ascii c).
Definition charOf (b : Z) : ascii := ascii_of_nat (Z.to_nat b).

(** The rune of a two-byte sequence: five bits of the lead byte, six of
    the continuation byte. *)
Definition twoBytes (a b : ascii) : Z :=
  Z.lor (Z.shiftl (Z.land (byteOf a) 31) 6) (Z.land (byteOf b) 63).

(** The runes of a string made of ASCII bytes and of two-byte sequences
    with a lead byte from [0xC2] to [0xC5]; [None] for any other string. *)
Fixpoint decode (s : string) : option (list Z) :=
  match s with
  | EmptyString => Some []
  | String a s' =>
      if strings.isASCIIByte a
      then option_map (cons (byteOf a)) (decode s')
      else
        match s' with
        | String b s'' =>
            if ((194 <=? byteOf a) && (byteOf a <=? 197) &&
                (128 <=? byteOf b) && (byteOf b <=? 191))%bool
            then option_map (cons (twoBytes a b)) (decode s'')
            else None
        | EmptyString => None
        end
  end.

(** [utf8.EncodeRune] for a rune below U+0800. *)
Definition EncodeRune (r : Z) : string :=
  if r <=? 127
  then String (charOf r) EmptyString
  else String (charOf (Z.lor 192 (Z.shiftr r 6)))
              (String (charOf (Z.lor 128 (Z.land r 63))) EmptyString).

Definition EncodeRunes (runes : list Z) : string :=
  fold_right (fun r out => EncodeRune r ++ out) EmptyString runes.

(** [strings.Map(mapping, s)] on a string that [decode] reads; another
    string is left as it is. *)
Definition Map (mapping : Z -> Z) (s : string) : string :=
  match decode s with
  | Some runes => EncodeRunes (map mapping runes)
  | None => s
  end.

End utf8.

(** ** bblfsh/sdk/uast/nodes: the node tree *)
Module nodes.

(** A [nodes.Node] interface value: [NNil] is the nil interface (a JSON
    null), the scalars are [nodes.Value]s, [NArray] is [nodes.Array] and
    [NObject] is [nodes.Object], a mapping from keys to nodes. The fields
    of an object are kept in the order the node declares them. *)
Inductive Node : Type :=
| NNil
| NString (s : string)
| NInt (i : Z)
| NUint (u : Z)
| NFloat (bits : Z)
| NBool (b : bool)
| NArray (elems : list Node)
| NObject (fields : list (string * Node)).

Definition Object : Type := list (string * Node).
Definition Array : Type := list Node.

Inductive Kind : Type :=
| KindNil | KindObject | KindArray
| KindString | KindInt | KindUint | KindFloat | KindBool.

(** [k.In(nodes.KindsValues)] *)
Definition In_KindsValues (k : Kind) : bool :=
  match k with
  | KindString | KindInt | KindUint | KindFloat | KindBool => true
  | _ => false
  end.

Definition isKindArray (k : Kind) : bool :=
  match k with KindArray => true | _ => false end.

Definition isKindObject (k : Kind) : bool :=
  match k with KindObject => true | _ => false end.

(** The method call [n.Kind()]: on the nil interface there is no method
    to dispatch to and the runtime panics. *)
Definition Kind_ (n : Node) : Outcome Kind :=
  match n with
  | NNil => Panicked nilDeref
  | NString _ => Done KindString
  | NInt _ => Done KindInt
  | NUint _ => Done KindUint
  | NFloat _ => Done KindFloat
  | NBool _ => Done KindBool
  | NArray _ => Done KindArray
  | NObject _ => Done KindObject
  end.

Definition isNil (n : Node) : bool :=
  match n with NNil => true | _ => false end.

Definition isObject (n : Node) : bool :=
  match n with NObject _ => true | _ => false end.

(** The index expression [v, ok := node[key]]. *)
Fixpoint lookup (key : string) (o : Object) : option Node :=
  match o with
  | [] => None
  | (k, v) :: o' => if String.eqb k key then Some v else lookup key o'
  end.

(** Modelled from the spec: [Object.Keys] belongs to the node library;
    the spec has the keys of a node enumerated in declaration order. *)
Definition Keys (o : Object) : list string := map fst o.

End nodes.

Import nodes.

(** ** bblfsh/sdk/uast: the reserved keys *)
Module uast.
Definition KeyType : string := "@type".
Definition KeyToken : string := "@token".
Definition KeyRoles : string := "@role".
Definition KeyPos : string := "@pos".
End uast.

(** ** Values of type [interface{}] handed to and from the SQL engine *)
Inductive value : Type :=
| VNil
| VBytes (b : list byte)
| VText (s : string)
| VInt (i : Z)
| VArray (elems : list value).

(** The result pair [(out interface{}, err error)] of an [Eval]. *)
Definition Result : Type := (value * option error)%type.

(** ** Interfaces *)

(** [hash.Hash64]: a stateful hash object. [hInit] is the initial state,
    the one [Reset] puts the object back into. *)
Class Hash64 : Type := {
  hstate : Type;
  hInit : hstate;
  hWrite : hstate -> list byte -> hstate * option error;
  hSum64 : hstate -> Z
}.

(** [h.Reset()] *)
Definition hReset {HH : Hash64} (s : hstate) : hstate := hInit.

(** [sql.KeyValueCache]: [Get] reports a missing key with an error. The
    only values this package stores are nodes. *)
Class KeyValueCache : Type := {
  cache : Type;
  kvGet : cache -> Z -> (Node * option error) * cache;
  kvPut : cache -> Z -> Node -> option error * cache;
  (** [ctx.Memory.NewLRUCache(size)] *)
  NewLRUCache : Z -> cache
}.

(** A lookup that fails leaves the cache as it was. *)
Definition GetMissKeeps (KV : KeyValueCache) : Prop :=
  forall (c c' : cache) (k : Z) (v : Node) (e : error),
    kvGet c k = ((v, Some e), c') -> c' = c.

(** The collaborators outside the package: the SQL engine (rows,
    expressions, conversions), the bblfsh client and SDK, and the helpers of
    the package that wrap them. *)
Class Host : Type := {
  Row : Type;
  (** [bblfsh.Mode] with [ParseMode] and [Mode.String] *)
  Mode : Type;
  ParseMode : string -> Mode * option error;
  Mode_String : Mode -> string;
  (** [exprToString(ctx, e, row)]; [None] is the nil expression *)
  exprToString :
    option (Row -> Outcome Result) -> Row -> Outcome (string * option error);
  (** [sql.Blob.Convert] *)
  Blob_Convert : value -> value * option error;
  (** [sql.Text.Convert(n.Native())] *)
  Text_Convert_Native : Node -> value * option error;
  (** [getUASTFromBblfsh(ctx, blob, lang, xpath, mode)]: the reply of the
      parser may depend on the requests it has served before *)
  getUASTFromBblfsh :
    list (list byte * string * string * Mode) ->
    list byte -> string -> string -> Mode -> Node * option error;
  (** [applyXpath(n, query)]: the path-query evaluator *)
  applyXpath : Node -> string -> Array * option error;
  marshalNodes : Array -> value * option error;
  (** [getNodes(data)]: [None] is the nil array *)
  getNodes : value -> option Array * option error;
  (** accessors of the [uast] package *)
  TypeOf : Object -> string;
  TokenOf : Object -> string;
  Role : Type;
  Role_String : Role -> string;
  RolesOf : Object -> list Role;
  Positions : Type;
  PositionsOf : Object -> option Positions;
  json_Marshal : Positions -> string * option error;
  AllImportPaths : Node -> list string;
  (** the Unicode part of [strings.ToLower] *)
  lowerRun : string -> string
}.

(** An [sql.Expression], as far as [Eval] is concerned. *)
Definition Expression {HO : Host} : Type := Row -> Outcome Result.

(** The request sent to the parser. *)
Definition Request {HO : Host} : Type := (list byte * string * string * Mode)%type.

(** ** The process state *)

Inductive Sink : Type := Logrus | CtxWarn.
Inductive Level : Type := LWarn | LError.

Record Diagnostic : Type := mkDiag {
  diag_sink : Sink;
  diag_level : Level;
  diag_msg : string
}.

(** One observation of [observeQuery]: the labels and whether the cache was
    hit (the duration is not modelled). *)
Record Metric : Type := mkMetric {
  metric_lang : string;
  metric_xpath : string;
  metric_hit : bool
}.

Section Model.

Context {HH : Hash64} {KV : KeyValueCache} {HO : Host}.

(** The package-level variables [uastCache], [uastCacheSize] and
    [uastMaxBlobSize], the hash object [h] of the function, and what
    the outside sees of an evaluation: the requests sent to the parser,
    the diagnostics, the metrics and the number of caches constructed. *)
Record World : Type := mkWorld {
  uastCache : option cache;
  uastCacheSize : Z;
  uastMaxBlobSize : Z;
  h : hstate;
  constructed : nat;
  requests : list Request;
  diagnostics : list Diagnostic;
  metrics : list Metric
}.

Definition with_cache (c : option cache) (n : nat) (w : World) : World :=
  mkWorld c (uastCacheSize w) (uastMaxBlobSize w) (h w) n
          (requests w) (diagnostics w) (metrics w).

Definition with_sizes (cs ms : Z) (w : World) : World :=
  mkWorld (uastCache w) cs ms (h w) (constructed w)
          (requests w) (diagnostics w) (metrics w).

Definition with_h (h' : hstate) (w : World) : World :=
  mkWorld (uastCache w) (uastCacheSize w) (uastMaxBlobSize w) h' (constructed w)
          (requests w) (diagnostics w) (metrics w).

Definition with_requests (rs : list Request) (w : World) : World :=
  mkWorld (uastCache w) (uastCacheSize w) (uastMaxBlobSize w) (h w) (constructed w)
          rs (diagnostics w) (metrics w).

Definition with_diagnostics (ds : list Diagnostic) (w : World) : World :=
  mkWorld (uastCache w) (uastCacheSize w) (uastMaxBlobSize w) (h w) (constructed w)
          (requests w) ds (metrics w).

Definition with_metrics (ms : list Metric) (w : World) : World :=
  mkWorld (uastCache w) (uastCacheSize w) (uastMaxBlobSize w) (h w) (constructed w)
          (requests w) (diagnostics w) ms.

(** *** The monad of evaluations *)

Definition M (A : Type) : Type := World -> Outcome A * World.

Definition ret {A : Type} (a : A) : M A := fun w => (Done a, w).

Definition bind {A B : Type} (c : M A) (k : A -> M B) : M B :=
  fun w =>
    match c w with
    | (Done a, w') => k a w'
    | (Panicked r, w') => (Panicked r, w')
    end.

Definition lift {A : Type} (c : Outcome A) : M A := fun w => (c, w).

Definition gets {A : Type} (f : World -> A) : M A := fun w => (Done (f w), w).

Definition modify (f : World -> World) : M unit := fun w => (Done tt, f w).

(** [if err != nil { return nil, err }] *)
Definition check {A : Type} (c : M (A * option error)) (k : A -> M Result) : M Result :=
  bind c (fun p =>
    match snd p with
    | Some e => ret (VNil, Some e)
    | None => k (fst p)
    end).

Definition ocheck {A : Type} (c : Outcome (A * option error))
           (k : A -> Outcome Result) : Outcome Result :=
  obind c (fun p =>
    match snd p with
    | Some e => Done (VNil, Some e)
    | None => k (fst p)
    end).

(** The deferred [recover()] of an [Eval] with named results: a panic
    leaves [out] nil and sets [err]. *)
Definition recover (prefix : string) (c : M Result) : M Result :=
  fun w =>
    match c w with
    | (Done r, w') => (Done r, w')
    | (Panicked r, w') => (Done (VNil, Some (Errorf prefix r)), w')
    end.

Definition orecover (prefix : string) (c : Outcome Result) : Outcome Result :=
  match c with
  | Done r => Done r
  | Panicked r => Done (VNil, Some (Errorf prefix r))
  end.

End Model.

Declare Scope go_scope.
Delimit Scope go_scope with go.

Notation "x <- c ;; k" := (bind c (fun x => k))
  (at level 100, c at next level, right associativity) : go_scope.
Notation "x <~ c ;; k" := (check c (fun x => k))
  (at level 100, c at next level, right associativity) : go_scope.
Notation "x <-- c ;; k" := (obind c (fun x => k))
  (at level 100, c at next level, right associativity) : go_scope.
Notation "x <~~ c ;; k" := (ocheck c (fun x => k))
  (at level 100, c at next level, right associativity) : go_scope.

(** ** internal/function/uast.go *)

Definition uastCacheSizeKey : string := "GITBASE_UAST_CACHE_SIZE".
Definition defaultUASTCacheSize : Z := 10000.

Definition uastMaxBlobSizeKey : string := "GITBASE_MAX_UAST_BLOB_SIZE".
Definition defaultUASTMaxBlobSize : Z := 5 * 1024 * 1024.

(** The conversion [uint(x)] of an [int]. *)
Definition uint (x : Z) : Z := x mod 2 ^ 64.

(** The text of the oversize warning, after formatting with the key. *)
Definition tooBigMsg : string :=
  "uast will be skipped, file is too big to send to bblfsh." ++
  "This can be configured using " ++ uastMaxBlobSizeKey ++ " environment variable".

Section Uast.

Context {HH : Hash64} {KV : KeyValueCache} {HO : Host}.

Local Open Scope go_scope.

(** *** Configuration and the process-wide cache *)

(** [func init()]: reads the two sizes from the environment. *)
Definition init (getenv : string -> string) (w : World) : World :=
  let s := getenv uastCacheSizeKey in
  let '(size, err) := strconv.Atoi s in
  let size :=
    match err with
    | Some _ => defaultUASTCacheSize
    | None => if size <=? 0 then defaultUASTCacheSize else size
    end in
  let '(maxBlob, err) := strconv.Atoi (getenv uastMaxBlobSizeKey) in
  let maxBlob :=
    match err with
    | Some _ => defaultUASTMaxBlobSize
    | None => maxBlob
    end in
  with_sizes size maxBlob w.

(** The state of the package before [init] runs: every variable holds its
    zero value; [h0] is the hash object [newHash()] gives the function. *)
Definition zeroWorld (h0 : hstate) : World :=
  mkWorld None 0 0 h0 0%nat [] [] [].

(** [getUASTCache]: constructs the cache on first use; the dispose
    function [NewLRUCache] returns with it is dropped. *)
Definition getUASTCache : M unit :=
  fun w =>
    match uastCache w with
    | None =>
        (Done tt,
         with_cache (Some (NewLRUCache (uint (uastCacheSize w))))
                    (S (constructed w)) w)
    | Some _ => (Done tt, w)
    end.

(** [uastCache.Get(key)] on the cache [getUASTCache] returned, which is
    the one the package variable holds. *)
Definition cacheGet (key : Z) : M (Node * option error) :=
  fun w =>
    match uastCache w with
    | None => (Panicked nilDeref, w)
    | Some c =>
        let '(r, c') := kvGet c key in
        (Done r, with_cache (Some c') (constructed w) w)
    end.

(** [uastCache.Put(key, node)] *)
Definition cachePut (key : Z) (node : Node) : M (option error) :=
  fun w =>
    match uastCache w with
    | None => (Panicked nilDeref, w)
    | Some c =>
        let '(e, c') := kvPut c key node in
        (Done e, with_cache (Some c') (constructed w) w)
    end.

(** *** Fingerprinting *)

(** Writes the parts in order, stopping at the first failed write. *)
Fixpoint writeToHash (s : hstate) (parts : list (list byte)) : hstate * option error :=
  match parts with
  | [] => (s, None)
  | p :: parts' =>
      let '(s', err) := hWrite s p in
      match err with
      | Some e => (s', Some e)
      | None => writeToHash s' parts'
      end
  end.

(** Modelled from the spec: the package-level helper
    [computeKey(h, mode, lang, blob)] is not among the sources. The spec
    has the fingerprint derived from the mode, the language and the
    content bytes with a stateful hash object, failing only when the hash
    fails to write: the object is reset, fed the three parts and asked
    for its 64-bit sum. *)
Definition computeKey (s : hstate) (mode lang : string) (blob : list byte)
  : (Z * option error) * hstate :=
  let '(s', err) :=
    writeToHash (hReset s)
                [list_byte_of_string mode; list_byte_of_string lang; blob] in
  match err with
  | Some e => ((0, Some e), s')
  | None => ((hSum64 s', None), s')
  end.

(** [uastFunc.computeKey]: the mutex only brackets the call. *)
Definition uastFunc_computeKey (mode lang : string) (blob : list byte)
  : M (Z * option error) :=
  fun w =>
    let '(r, s') := computeKey (h w) mode lang blob in
    (Done r, with_h s' w).

(** *** Diagnostics and metrics *)

Definition logrus_Warn (msg : string) : M unit :=
  modify (fun w => with_diagnostics (diagnostics w ++ [mkDiag Logrus LWarn msg]) w).

Definition logrus_Error (msg : string) : M unit :=
  modify (fun w => with_diagnostics (diagnostics w ++ [mkDiag Logrus LError msg]) w).

Definition ctx_Warn (msg : string) : M unit :=
  modify (fun w => with_diagnostics (diagnostics w ++ [mkDiag CtxWarn LWarn msg]) w).

(** The closure [observeQuery(lang, xpath, time.Now())] applied to [ok]. *)
Definition finish (lang xpath : string) (ok : bool) : M unit :=
  modify (fun w => with_metrics (metrics w ++ [mkMetric lang xpath ok]) w).

(** The call of the parser: the request is recorded, the reply may depend
    on the requests served so far. *)
Definition callBblfsh (blob : list byte) (lang xpath : string) (mode : Mode)
  : M (Node * option error) :=
  fun w =>
    (Done (getUASTFromBblfsh (requests w) blob lang xpath mode),
     with_requests (requests w ++ [(blob, lang, xpath, mode)]) w).

(** *** uast and uast_mode *)

(** [uastFunc]: the argument expressions; [Lang] and [XPath] may be nil.
    The field [Mode] is [Mode_] here, [Mode] being the type of parse modes;
    the hash object [h] of the struct is the field [h] of [World]. *)
Record uastFunc : Type := mkUastFunc {
  Mode_ : Expression;
  Blob : Expression;
  Lang : option Expression;
  XPath : option Expression
}.

(** The type assertion [value.(nodes.Node)]: it fails on a nil interface. *)
Definition assertNode (v : Node) : Outcome Node :=
  match v with
  | NNil => Panicked badAssert
  | _ => Done v
  end.

(** The type assertion [blob.([]byte)]. *)
Definition assertBytes (v : value) : Outcome (list byte) :=
  match v with
  | VBytes b => Done b
  | _ => Panicked badAssert
  end.

(** The second half of [getUAST] (from [var nodeArray nodes.Array] on):
    filter the node with the query, serialise, record the metrics. *)
Definition filterAndMarshal (lang xpath : string) (cacheMiss : bool) (node : Node)
  : M Result :=
  let '(nodeArray, err) :=
    if String.eqb xpath "" then ([node], None) else applyXpath node xpath in
  match err with
  | Some _ =>
      _ <- logrus_Error ("unable to filter node using xpath: " ++ xpath) ;;
      ret (VNil, None)
  | None =>
      let '(result, err) := marshalNodes nodeArray in
      match err with
      | Some _ =>
          _ <- logrus_Error "unable to marshal UAST nodes" ;;
          ret (VNil, None)
      | None =>
          _ <- finish lang xpath (negb cacheMiss) ;;
          ret (result, None)
      end
  end.

(** [uastFunc.getUAST] *)
Definition getUAST (blob : list byte) (lang xpath : string) (mode : Mode)
  : M Result :=
  key <~ uastFunc_computeKey (Mode_String mode) lang blob ;;
  _ <- getUASTCache ;;
  got <- cacheGet key ;;
  match snd got with
  | None =>
      node <- lift (assertNode (fst got)) ;;
      filterAndMarshal lang xpath false node
  | Some _ =>
      parsed <- callBblfsh blob lang xpath mode ;;
      match snd parsed with
      | Some e =>
          if (ErrParseBlob_Is e || ErrSyntax_Is e)%bool
          then ret (VNil, None)
          else ret (VNil, Some e)
      | None =>
          perr <- cachePut key (fst parsed) ;;
          match perr with
          | Some e => ret (VNil, Some e)
          | None => filterAndMarshal lang xpath true (fst parsed)
          end
      end
  end.

Definition len (b : list byte) : Z := Z.of_nat (List.length b).

(** The body of [uastFunc.Eval], below the deferred [recover]. *)
Definition uastFunc_Eval_body (u : uastFunc) (row : Row) : M Result :=
  m <~ lift (exprToString (Some (Mode_ u)) row) ;;
  mode <~ ret (ParseMode m) ;;
  blob <~ lift (Blob u row) ;;
  match blob with
  | VNil => ret (VNil, None)
  | _ =>
      blob <~ ret (Blob_Convert blob) ;;
      bytes <- lift (assertBytes blob) ;;
      if len bytes =? 0 then ret (VNil, None)
      else
        maxBlob <- gets uastMaxBlobSize ;;
        if ((0 <=? maxBlob) && (maxBlob <? len bytes))%bool
        then
          _ <- logrus_Warn tooBigMsg ;;
          _ <- ctx_Warn tooBigMsg ;;
          ret (VNil, None)
        else
          lang <~ lift (exprToString (Lang u) row) ;;
          let lang := strings.ToLower lowerRun lang in
          xpath <~ lift (exprToString (XPath u) row) ;;
          getUAST bytes lang xpath mode
  end.

(** [uastFunc.Eval], which [UAST] and [UASTMode] both embed. *)
Definition uastFunc_Eval (u : uastFunc) (row : Row) : M Result :=
  recover "uast: unknown error: " (uastFunc_Eval_body u row).

(** [expression.NewLiteral(s, sql.Text)] *)
Definition NewLiteral (s : string) : Expression := fun _ => Done (VText s, None).

(** [NewUAST] for one, two or three arguments. *)
Definition NewUAST (args : list Expression) : option uastFunc :=
  let mode := NewLiteral "semantic" in
  match args with
  | [blob] => Some (mkUastFunc mode blob None None)
  | [blob; lang] => Some (mkUastFunc mode blob (Some lang) None)
  | [blob; lang; xpath] => Some (mkUastFunc mode blob (Some lang) (Some xpath))
  | _ => None
  end.

(** [NewUASTMode] *)
Definition NewUASTMode (mode blob lang : Expression) : uastFunc :=
  mkUastFunc mode blob (Some lang) None.

(** *** uast_xpath *)

(** [expression.BinaryExpression] *)
Record BinaryExpression : Type := mkBinary { Left : Expression; Right : Expression }.

(** The loop of [UASTXPath.Eval] over the nodes. *)
Fixpoint filterLoop (xpath : string) (ns : Array) (filtered : Array)
  : Array * option error :=
  match ns with
  | [] => (filtered, None)
  | n :: ns' =>
      let '(partial, err) := applyXpath n xpath in
      match err with
      | Some e => ([], Some e)
      | None => filterLoop xpath ns' (filtered ++ partial)%list
      end
  end.

Definition UASTXPath_Eval_body (f : BinaryExpression) (row : Row) : Outcome Result :=
  (xpath <~~ exprToString (Some (Right f)) row ;;
   if String.eqb xpath "" then Done (VNil, None)
   else
     left <~~ Left f row ;;
     ns <~~ Done (getNodes left) ;;
     match ns with
     | None => Done (VNil, None)
     | Some ns =>
         filtered <~~ Done (filterLoop xpath ns []) ;;
         Done (marshalNodes filtered)
     end)%go.

Definition UASTXPath_Eval (f : BinaryExpression) (row : Row) : Outcome Result :=
  orecover "uastxpath: unknown error: " (UASTXPath_Eval_body f row).

(** *** uast_extract *)

Definition isCommonProp (key : string) : bool :=
  (String.eqb key uast.KeyType || String.eqb key uast.KeyToken ||
   String.eqb key uast.KeyRoles || String.eqb key uast.KeyPos)%bool.

(** [posToString]: the JSON encoding, or the empty string when encoding
    fails. *)
Definition posToString (pos : Positions) : string :=
  let '(data, err) := json_Marshal pos in
  match err with
  | None => data
  | Some _ => ""
  end.

Definition extractCommonProp (node : Object) (key : string) : list value :=
  if String.eqb key uast.KeyType then
    let t := TypeOf node in
    if String.eqb t "" then [] else [VText t]
  else if String.eqb key uast.KeyToken then
    let t := TokenOf node in
    if String.eqb t "" then [] else [VText t]
  else if String.eqb key uast.KeyRoles then
    let r := RolesOf node in
    map (fun role => VText (Role_String role)) r
  else if String.eqb key uast.KeyPos then
    match PositionsOf node with
    | Some p =>
        let s := posToString p in
        if String.eqb s "" then [] else [VText s]
    | None => []
    end
  else [].

(** [valueToString] *)
Definition valueToString (n : Node) : value * option error := Text_Convert_Native n.

(** [valuesFromNodeArray]: the strings of the scalar elements. *)
Fixpoint valuesFromNodeArray_loop (arr : Array) (values : list value)
  : Outcome (list value * option error) :=
  match arr with
  | [] => Done (values, None)
  | n :: arr' =>
      (k <-- Kind_ n ;;
       if In_KindsValues k
       then
         let '(s, err) := valueToString n in
         match err with
         | Some e => Done ([], Some e)
         | None => valuesFromNodeArray_loop arr' (values ++ [s])%list
         end
       else valuesFromNodeArray_loop arr' values)%go
  end.

Definition valuesFromNodeArray (arr : Array) : Outcome (list value * option error) :=
  valuesFromNodeArray_loop arr [].

Definition extractAnyProp (node : Object) (key : string) : Outcome (list value) :=
  match lookup key node with
  | None => Done []
  | Some v =>
      if isNil v then Done []
      else
        (k <-- Kind_ v ;;
         if In_KindsValues k
         then
           let '(value, err) := valueToString v in
           match err with
           | Some _ => Done []
           | None => Done [value]
           end
         else if isKindArray k
         then
           match v with
           | NArray arr =>
               r <-- valuesFromNodeArray arr ;;
               match snd r with
               | Some _ => Done []
               | None => Done (fst r)
               end
           | _ => Panicked badAssert
           end
         else Done [])%go
  end.

Definition extractProperties (n : Node) (key : string) : Outcome (list value) :=
  match n with
  | NObject node =>
      if isCommonProp key
      then Done (extractCommonProp node key)
      else extractAnyProp node key
  | _ => Done []
  end.

(** The loop of [UASTExtract.Eval] over the nodes. *)
Fixpoint extractLoop (key : string) (ns : Array) (extracted : list value)
  : Outcome (list value) :=
  match ns with
  | [] => Done extracted
  | n :: ns' =>
      (props <-- extractProperties n key ;;
       if Nat.ltb 0 (List.length props)
       then extractLoop key ns' (extracted ++ props)%list
       else extractLoop key ns' extracted)%go
  end.

Definition UASTExtract_Eval_body (u : BinaryExpression) (row : Row) : Outcome Result :=
  (left <~~ Left u row ;;
   ns <~~ Done (getNodes left) ;;
   match ns with
   | None => Done (VNil, None)
   | Some ns =>
       key <~~ exprToString (Some (Right u)) row ;;
       if String.eqb key "" then Done (VNil, None)
       else
         extracted <-- extractLoop key ns [] ;;
         Done (VArray extracted, None)
   end)%go.

Definition UASTExtract_Eval (u : BinaryExpression) (row : Row) : Outcome Result :=
  orecover "uast: unknown error: " (UASTExtract_Eval_body u row).

(** *** uast_children *)

(** The inner loop of [getChildren] over the elements of an array child. *)
Fixpoint arrayLoop (arr : Array) (children : Array) : Outcome Array :=
  match arr with
  | [] => Done children
  | n :: arr' =>
      (k <-- Kind_ n ;;
       if isKindObject k
       then arrayLoop arr' (children ++ [n])%list
       else arrayLoop arr' children)%go
  end.

(** The loop of [getChildren] over [node.Keys()]. *)
Fixpoint keysLoop (node : Object) (keys : list string) (children : Array)
  : Outcome Array :=
  match keys with
  | [] => Done children
  | key :: keys' =>
      if isCommonProp key then keysLoop node keys' children
      else
        match lookup key node with
        | None => keysLoop node keys' children
        | Some c =>
            (k <-- Kind_ c ;;
             match k with
             | KindObject => keysLoop node keys' (children ++ [c])%list
             | KindArray =>
                 match c with
                 | NArray arr =>
                     children' <-- arrayLoop arr children ;;
                     keysLoop node keys' children'
                 | _ => Panicked badAssert
                 end
             | _ => keysLoop node keys' children
             end)%go
        end
  end.

Definition getChildren (node : Object) : Outcome Array :=
  keysLoop node (Keys node) [].

Fixpoint flattenLoop (arr : Array) (children : Array) : Outcome Array :=
  match arr with
  | [] => Done children
  | n :: arr' =>
      match n with
      | NObject o =>
          (c <-- getChildren o ;;
           if Nat.ltb 0 (List.length c)
           then flattenLoop arr' (children ++ c)%list
           else flattenLoop arr' children)%go
      | _ => flattenLoop arr' children
      end
  end.

Definition flattenChildren (arr : Array) : Outcome Array := flattenLoop arr [].

(** [expression.UnaryExpression] *)
Record UnaryExpression : Type := mkUnary { Child : Expression }.

Definition UASTChildren_Eval_body (u : UnaryExpression) (row : Row) : Outcome Result :=
  (child <~~ Child u row ;;
   ns <~~ Done (getNodes child) ;;
   match ns with
   | None => Done (VNil, None)
   | Some ns =>
       children <-- flattenChildren ns ;;
       Done (marshalNodes children)
   end)%go.

Definition UASTChildren_Eval (u : UnaryExpression) (row : Row) : Outcome Result :=
  orecover "uast: unknown error: " (UASTChildren_Eval_body u row).

(** *** uast_imports *)

(** [UASTImports.Eval]: there is no deferred [recover] in this one. *)
Definition UASTImports_Eval (f : UnaryExpression) (row : Row) : Outcome Result :=
  (child <~~ Child f row ;;
   ns <~~ Done (getNodes child) ;;
   match ns with
   | None => Done (VNil, None)
   | Some ns =>
       let result :=
         map (fun node => VArray (map VText (AllImportPaths node))) ns in
       Done (VArray result, None)
   end)%go.

End Uast.

(** ** internal/function/uast.go: the expression trees *)

Section UastTrees.

Context {HO : Host}.

(** [sql.ErrInvalidChildrenNumber.New(u, got, expected)] *)
Definition ErrInvalidChildrenNumber (got expected : nat) : error :=
  mkError KOther "invalid children number".

(** [sql.ErrInvalidArgumentNumber.New(name, expected, got)] *)
Definition ErrInvalidArgumentNumber (name expected : string) (got : nat) : error :=
  mkError KOther (name ++ ": expecting " ++ expected ++ " arguments").

(** The index expression [children[i]]: out of range it panics. *)
Definition index (children : list Expression) (i : nat) : Outcome Expression :=
  match nth_error children i with
  | Some e => Done e
  | None => Panicked "runtime error: index out of range"
  end.

Definition isSome {A : Type} (o : option A) : bool :=
  match o with Some _ => true | None => false end.

(** [uastFunc.Children] *)
Definition uastFunc_Children (u : uastFunc) : list Expression :=
  let exprs := [Blob u; Mode_ u] in
  let exprs := match Lang u with Some l => (exprs ++ [l])%list | None => exprs end in
  let exprs := match XPath u with Some x => (exprs ++ [x])%list | None => exprs end in
  exprs.

(** [uastFunc.WithChildren]; the new function gets a hash object of its
    own, which is not part of the record. *)
Definition uastFunc_WithChildren (u : uastFunc) (children : list Expression)
  : Outcome (option uastFunc * option error) :=
  let expected := 2%nat in
  let expected := if isSome (Lang u) then S expected else expected in
  let expected := if isSome (XPath u) then S expected else expected in
  if negb (Nat.eqb (List.length children) expected)
  then Done (None, Some (ErrInvalidChildrenNumber (List.length children) expected))
  else
    (blob <-- index children 0 ;;
     mode <-- index children 1 ;;
     let idx := 2%nat in
     langIdx <--
       (if isSome (Lang u)
        then lang <-- index children idx ;; Done (Some lang, S idx)
        else Done (None, idx)) ;;
     xpath <--
       (if isSome (XPath u)
        then xpath <-- index children (snd langIdx) ;; Done (Some xpath)
        else Done None) ;;
     Done (Some (mkUastFunc mode blob (fst langIdx) xpath), None))%go.

(** [NewUAST] with its error. *)
Definition NewUAST_ (args : list Expression) : option uastFunc * option error :=
  match NewUAST args with
  | Some u => (Some u, None)
  | None =>
      (None, Some (ErrInvalidArgumentNumber "uast" "1, 2 or 3" (List.length args)))
  end.

(** [UAST.Children] *)
Definition UAST_Children (u : uastFunc) : list Expression :=
  let result := [Blob u] in
  let result := match Lang u with Some l => (result ++ [l])%list | None => result end in
  let result := match XPath u with Some x => (result ++ [x])%list | None => result end in
  result.

(** [UAST.WithChildren] *)
Definition UAST_WithChildren (u : uastFunc) (children : list Expression)
  : option uastFunc * option error :=
  let expected := 1%nat in
  let expected := if isSome (Lang u) then S expected else expected in
  let expected := if isSome (XPath u) then S expected else expected in
  if negb (Nat.eqb (List.length children) expected)
  then (None, Some (ErrInvalidChildrenNumber (List.length children) expected))
  else NewUAST_ children.

(** [UASTMode.WithChildren]. [UASTMode] has no [Children] of its own in
    this file: it has the one of the embedded [uastFunc]. *)
Definition UASTMode_WithChildren (u : uastFunc) (children : list Expression)
  : Outcome (option uastFunc * option error) :=
  if negb (Nat.eqb (List.length children) 3)
  then Done (None, Some (ErrInvalidChildrenNumber (List.length children) 3))
  else
    (c0 <-- index children 0 ;;
     c1 <-- index children 1 ;;
     c2 <-- index children 2 ;;
     Done (Some (NewUASTMode c0 c1 c2), None))%go.

(** [UASTXPath.WithChildren] and [UASTExtract.WithChildren] *)
Definition Binary_WithChildren (children : list Expression)
  : Outcome (option BinaryExpression * option error) :=
  if negb (Nat.eqb (List.length children) 2)
  then Done (None, Some (ErrInvalidChildrenNumber (List.length children) 2))
  else
    (c0 <-- index children 0 ;;
     c1 <-- index children 1 ;;
     Done (Some (mkBinary c0 c1), None))%go.

(** [UASTChildren.WithChildren] and [UASTImports.WithChildren] *)
Definition Unary_WithChildren (children : list Expression)
  : Outcome (option UnaryExpression * option error) :=
  if negb (Nat.eqb (List.length children) 1)
  then Done (None, Some (ErrInvalidChildrenNumber (List.length children) 1))
  else (c0 <-- index children 0 ;; Done (Some (mkUnary c0), None))%go.

(** [UASTImports.Children] *)
Definition UASTImports_Children (f : UnaryExpression) : list Expression := [Child f].

End UastTrees.

(** ** internal/function/loc.go *)

(** The cache of detected languages, an [sql.KeyValueCache] whose values
    are strings. *)
Class StringCache : Type := {
  scache : Type;
  scGet : scache -> Z -> (string * option error) * scache;
  scPut : scache -> Z -> string -> option error * scache
}.

(** [gocloc.ClocFile], as far as [LOC.Eval] reads it. *)
Record ClocFile : Type := mkClocFile {
  cf_Code : Z;
  cf_Comments : Z;
  cf_Blanks : Z;
  cf_Name : string;
  cf_Lang : string
}.

(** What [loc.go] takes from outside the file: the text conversion of the
    engine, the language definitions and the line counter of gocloc, the
    language detector of enry, and [languageHash] of the package. *)
Class LocHost {HO : Host} : Type := {
  Text_Convert : value -> value * option error;
  Language : Type;
  (** [languages.Langs[lang]]; [None] is nil *)
  Langs : string -> option Language;
  AnalyzeReader : string -> Language -> list byte -> ClocFile;
  languageHash : string -> list byte -> Z;
  enry_GetLanguage : string -> list byte -> string
}.

Module loc.

Section Loc.

Context {HO : Host} {LH : LocHost} {SC : StringCache}.

(** [LOC]; [Right] may be nil. *)
Record LOC : Type := mkLOC { Left : Expression; Right : option Expression }.

(** [LocFile] *)
Record LocFile : Type := mkLocFile {
  Code : Z;
  Comments : Z;
  Blanks : Z;
  Name : string;
  Lang : string
}.

(** The errors [getInputValues] returns: [errEmptyInputValues], which
    [Eval] recognises by identity, or an error of a collaborator. *)
Inductive inputErr : Type :=
| errEmptyInputValues
| failed (e : error).

(** [sql.ErrInvalidArgumentNumber.New("2", len(args))]: the kind takes a
    name, the expected number and the number received, and [NewLOC] gives
    it two values. The string ["2"] stands where the name goes, the
    number of arguments where the expected number goes, and nothing is
    left for the number received. *)
Definition ErrInvalidArgumentNumber_short (first : string) (second : nat) : error :=
  mkError KOther
    (first ++ ": expecting " ++ NilZero.string_of_uint (Nat.to_uint second) ++ " arguments").

(** [NewLOC] *)
Definition NewLOC (args : list Expression) : option LOC * option error :=
  match args with
  | [l; r] => (Some (mkLOC l (Some r)), None)
  | _ => (None, Some (ErrInvalidArgumentNumber_short "2" (List.length args)))
  end.

(** [LOC.Children] *)
Definition Children (f : LOC) : list Expression :=
  match Right f with
  | None => [Left f]
  | Some r => [Left f; r]
  end.

(** [LOC.WithChildren] *)
Definition WithChildren (f : LOC) (children : list Expression) : option LOC * option error :=
  NewLOC children.

(** [LOC.getInputValues] *)
Definition getInputValues (f : LOC) (row : Row)
  : Outcome (string * list byte * option inputErr) :=
  (l <-- Left f row ;;
   match snd l with
   | Some e => Done ("", [], Some (failed e))
   | None =>
       let '(path0, err) := Text_Convert (fst l) in
       match err with
       | Some e => Done ("", [], Some (failed e))
       | None =>
           r <-- match Right f with
                 | Some e => e row
                 | None => Panicked nilDeref
                 end ;;
           match snd r with
           | Some e => Done ("", [], Some (failed e))
           | None =>
               let '(blob0, err) := Blob_Convert (fst r) in
               match err with
               | Some e => Done ("", [], Some (failed e))
               | None =>
                   match blob0 with
                   | VNil => Done ("", [], Some errEmptyInputValues)
                   | _ =>
                       match path0 with
                       | VText path =>
                           match blob0 with
                           | VBytes blob =>
                               if ((len blob =? 0)
                                   || Nat.eqb (String.length path) 0)%bool
                               then Done ("", [], Some errEmptyInputValues)
                               else Done (path, blob, None)
                           | _ => Done ("", [], Some errEmptyInputValues)
                           end
                       | _ => Done ("", [], Some errEmptyInputValues)
                       end
                   end
               end
           end
       end
   end)%go.

(** The package variable [languageCache] and the calls of the detector. *)
Record World : Type := mkWorld {
  languageCache : scache;
  detected : list (string * list byte)
}.

(** [LOC.getLanguage] *)
Definition getLanguage (path : string) (blob : list byte) (w : World)
  : (string * option error) * World :=
  let hash := languageHash path blob in
  let '((value, err), c1) := scGet (languageCache w) hash in
  match err with
  | None => ((value, None), mkWorld c1 (detected w))
  | Some _ =>
      let lang := enry_GetLanguage path blob in
      let seen := (detected w ++ [(path, blob)])%list in
      if 0 <? len blob
      then
        let '(perr, c2) := scPut c1 hash lang in
        match perr with
        | Some e => (("", Some e), mkWorld c2 seen)
        | None => ((lang, None), mkWorld c2 seen)
        end
      else ((lang, None), mkWorld c1 seen)
  end.

(** [LOC.Eval]; there is no deferred [recover] in it. *)
Definition Eval (f : LOC) (row : Row) (w : World)
  : Outcome (option LocFile * option error) * World :=
  match getInputValues f row with
  | Panicked r => (Panicked r, w)
  | Done (_, _, Some errEmptyInputValues) => (Done (None, None), w)
  | Done (_, _, Some (failed e)) => (Done (None, Some e), w)
  | Done (path, blob, None) =>
      let '((lang, err), w1) := getLanguage path blob w in
      match err with
      | Some e => (Done (None, Some e), w1)
      | None =>
          if String.eqb lang "" then (Done (None, None), w1)
          else
            match Langs lang with
            | None => (Done (None, None), w1)
            | Some l =>
                let file := AnalyzeReader path l blob in
                (Done (Some (mkLocFile (cf_Code file) (cf_Comments file) (cf_Blanks file)
                                       (cf_Name file) (cf_Lang file)), None), w1)
            end
      end
  end.

End Loc.

End loc.

(** ** Instances of the interfaces *)

(** Modelled from the spec: the cache belongs to the SQL engine and is not
    among the sources; the spec asks for [get] and [put] with
    least-recently-used eviction and a capacity fixed at creation. The
    entries are kept most recently used first. *)
Module lru.

Record t : Type := mk { capacity : Z; entries : list (Z * Node) }.

Fixpoint find (k : Z) (es : list (Z * Node)) : option Node :=
  match es with
  | [] => None
  | (k', v) :: es' => if k' =? k then Some v else find k es'
  end.

Definition remove (k : Z) (es : list (Z * Node)) : list (Z * Node) :=
  filter (fun e => negb (fst e =? k)) es.

Definition ErrKeyNotFound : error := mkError KOther "memory: key not found in cache".

Definition Get (c : t) (k : Z) : (Node * option error) * t :=
  match find k (entries c) with
  | Some v => ((v, None), mk (capacity c) ((k, v) :: remove k (entries c)))
  | None => ((NNil, Some ErrKeyNotFound), c)
  end.

Definition Put (c : t) (k : Z) (v : Node) : option error * t :=
  (None, mk (capacity c) (firstn (Z.to_nat (capacity c)) ((k, v) :: remove k (entries c)))).

Definition New (size : Z) : t := mk size [].

End lru.

#[export] Instance lruCache : KeyValueCache := {
  cache := lru.t;
  kvGet := lru.Get;
  kvPut := lru.Put;
  NewLRUCache := lru.New
}.

(** The 64-bit FNV-1a hash, one implementation of [hash.Hash64]; its
    [Write] never fails. *)
Module fnv.

Definition offset64 : Z := 14695981039346656037.
Definition prime64 : Z := 1099511628211.

Definition step (s : Z) (b : byte) : Z :=
  (Z.lxor s (Z.of_N (Byte.to_N b)) * prime64) mod 2 ^ 64.

Definition Write (s : Z) (p : list byte) : Z * option error :=
  (fold_left step p s, None).

End fnv.

#[export] Instance fnv1a : Hash64 := {
  hstate := Z;
  hInit := fnv.offset64;
  hWrite := fnv.Write;
  hSum64 := fun s => s
}.

(** A small host to run the functions on: rows are lists of column values,
    the parser knows one shape of tree, the path-query evaluator two
    queries, and serialisation is a code book of four node sequences. *)
Module demo.

Inductive mode : Type := Native | Annotated | Semantic.

Definition parseMode (s : string) : mode * option error :=
  if String.eqb s "semantic" then (Semantic, None)
  else if String.eqb s "annotated" then (Annotated, None)
  else if String.eqb s "native" then (Native, None)
  else (Native, Some (mkError KOther ("unknown mode: " ++ s))).

Definition modeString (m : mode) : string :=
  match m with
  | Native => "native"
  | Annotated => "annotated"
  | Semantic => "semantic"
  end.

Definition row : Type := list value.

(** A column reference. *)
Definition col (i : nat) : row -> Outcome Result :=
  fun r => Done (nth i r VNil, None).

(** An expression whose evaluation panics. *)
Definition faulty : row -> Outcome Result :=
  fun _ => Panicked "index out of range".

Definition toString (e : option (row -> Outcome Result)) (r : row)
  : Outcome (string * option error) :=
  match e with
  | None => Done ("", None)
  | Some e =>
      obind (e r) (fun x =>
        match snd x with
        | Some err => Done ("", Some err)
        | None =>
            match fst x with
            | VNil => Done ("", None)
            | VText s => Done (s, None)
            | VBytes b => Done (string_of_list_byte b, None)
            | _ => Done ("", Some (mkError KOther "cannot convert to text"))
            end
        end)
  end.

Definition blobConvert (v : value) : value * option error :=
  match v with
  | VBytes b => (VBytes b, None)
  | VText s => (VBytes (list_byte_of_string s), None)
  | VNil => (VNil, None)
  | _ => (VNil, Some (mkError KOther "cannot convert to blob"))
  end.

Definition textOf (n : Node) : value * option error :=
  match n with
  | NString s => (VText s, None)
  | NBool true => (VText "true", None)
  | NBool false => (VText "false", None)
  | _ => (VNil, Some (mkError KOther "cannot convert to text"))
  end.

Definition ident (name : string) : Node :=
  NObject [("@type", NString "Identifier"); ("@token", NString name);
           ("@role", NArray [NString "Expression"; NString "Identifier"]);
           ("@pos", NObject [("start", NInt 1); ("end", NInt 2)])].

Definition file (lang : string) : Node :=
  NObject [("@type", NString "File"); ("lang", NString lang);
           ("body", NArray [ident "x"; ident "y"]); ("doc", NString "x")].

(** The parser: content starting with [!] has a syntax error, the empty
    language is not supported, anything else is a file of two
    identifiers. *)
Definition parse (served : list (list byte * string * string * mode))
           (blob : list byte) (lang xpath : string) (m : mode) : Node * option error :=
  match blob with
  | x21 :: _ => (NNil, Some (mkError KSyntax "syntax error"))
  | _ =>
      if String.eqb lang "" then (NNil, Some (mkError KParseBlob "cannot parse blob"))
      else (file lang, None)
  end.

(** The evaluator: [//*] selects the node itself, [//body/*] the elements
    of its [body]; any other query is malformed. *)
Definition xpath (n : Node) (q : string) : Array * option error :=
  if String.eqb q "//*" then ([n], None)
  else if String.eqb q "//body/*" then
    match n with
    | NObject o =>
        match lookup "body" o with
        | Some (NArray l) => (l, None)
        | _ => ([], None)
        end
    | _ => ([], None)
    end
  else ([], Some (mkError KOther ("invalid query: " ++ q))).

(** The code book: byte 1 is one go file, byte 2 the two identifiers,
    byte 3 an object with a null field, byte 4 one identifier. *)
Definition withNull : Node := NObject [("value", NNil); ("@type", NString "Return")].

Definition kindOfTree (n : Node) : string :=
  match n with
  | NObject o => match lookup "@type" o with Some (NString s) => s | _ => "" end
  | _ => ""
  end.

Definition encode (a : Array) : value * option error :=
  match a with
  | [] => (VNil, None)
  | [n] =>
      if String.eqb (kindOfTree n) "File" then (VBytes [x01], None)
      else if String.eqb (kindOfTree n) "Return" then (VBytes [x03], None)
      else if String.eqb (kindOfTree n) "Identifier" then (VBytes [x04], None)
      else (VBytes [x00], None)
  | [_; _] => (VBytes [x02], None)
  | _ => (VBytes [x00], None)
  end.

Definition decode (v : value) : option Array * option error :=
  match v with
  | VNil => (None, None)
  | VBytes [x01] => (Some [file "go"], None)
  | VBytes [x02] => (Some [ident "x"; ident "y"], None)
  | VBytes [x03] => (Some [withNull], None)
  | VBytes [x04] => (Some [ident "x"], None)
  | _ => (None, Some (mkError KOther "cannot decode nodes"))
  end.

Definition typeOf (o : Object) : string :=
  match lookup "@type" o with Some (NString s) => s | _ => "" end.

Definition tokenOf (o : Object) : string :=
  match lookup "@token" o with Some (NString s) => s | _ => "" end.

Definition rolesOf (o : Object) : list string :=
  match lookup "@role" o with
  | Some (NArray l) =>
      flat_map (fun n => match n with NString s => [s] | _ => [] end) l
  | _ => []
  end.

Definition positionsOf (o : Object) : option Object :=
  match lookup "@pos" o with
  | Some (NObject (f :: fs)) => Some (f :: fs)
  | _ => None
  end.

Definition marshalPos (p : Object) : string * option error :=
  (String.concat "," (Keys p), None).

Definition importsOf (n : Node) : list string :=
  match n with
  | NObject o =>
      match lookup "imports" o with
      | Some (NArray l) =>
          flat_map (fun n => match n with NString s => [s] | _ => [] end) l
      | _ => []
      end
  | _ => []
  end.

End demo.

#[export] Instance demoHost : Host := {
  Row := demo.row;
  Mode := demo.mode;
  ParseMode := demo.parseMode;
  Mode_String := demo.modeString;
  exprToString := demo.toString;
  Blob_Convert := demo.blobConvert;
  Text_Convert_Native := demo.textOf;
  getUASTFromBblfsh := demo.parse;
  applyXpath := demo.xpath;
  marshalNodes := demo.encode;
  getNodes := demo.decode;
  TypeOf := demo.typeOf;
  TokenOf := demo.tokenOf;
  Role := string;
  Role_String := fun r => r;
  RolesOf := demo.rolesOf;
  Positions := Object;
  PositionsOf := demo.positionsOf;
  json_Marshal := demo.marshalPos;
  AllImportPaths := demo.importsOf;
  lowerRun := fun s => s
}.

(** ** Sample runs *)
Module sample.

(** An environment with a cache of 250 trees and a ceiling of 4 bytes. *)
Definition env4 (k : string) : string :=
  if String.eqb k uastCacheSizeKey then "250"
  else if String.eqb k uastMaxBlobSizeKey then "4"
  else "".

(** An environment that switches the ceiling off. *)
Definition envOff (k : string) : string :=
  if String.eqb k uastMaxBlobSizeKey then "-1" else "".

Definition w4 : World := init env4 (zeroWorld fnv.offset64).
Definition wOff : World := init envOff (zeroWorld fnv.offset64).

(** [uast_mode(c0, c1, c2)] and [uast_mode(c0, c1, c3)] *)
Definition byCol2 : uastFunc := NewUASTMode (demo.col 0) (demo.col 1) (demo.col 2).
Definition byCol3 : uastFunc := NewUASTMode (demo.col 0) (demo.col 1) (demo.col 3).

Definition ab : list byte := [x61; x62].
Definition abcde : list byte := [x61; x62; x63; x64; x65].
Definition broken : list byte := [x21; x62].

Definition small : demo.row := [VText "semantic"; VBytes ab; VText "Go"; VText "gO"].
Definition big : demo.row := [VText "semantic"; VBytes abcde; VText "Go"; VText "gO"].

(** [f(c0, c1)] and [f(c0)] for the functions over serialised nodes. *)
Definition binary : BinaryExpression := mkBinary (demo.col 0) (demo.col 1).
Definition unary : UnaryExpression := mkUnary (demo.col 0).
Definition unaryFaulty : UnaryExpression := mkUnary demo.faulty.

End sample.

(** ** A second host and a cache that refuses writes *)

(** As [demo], with a parser that cannot be reached for the language
    [down], a serialiser that gives up on more than one node and a fifth
    entry in the code book. *)
Module demo2.

Definition parse (served : list (list byte * string * string * demo.mode))
           (blob : list byte) (lang xpath : string) (m : demo.mode) : Node * option error :=
  if String.eqb lang "down"
  then (NNil, Some (mkError KOther "connection refused"))
  else demo.parse served blob lang xpath m.

Definition encode (a : Array) : value * option error :=
  match a with
  | _ :: _ :: _ => (VNil, Some (mkError KOther "too many nodes"))
  | _ => demo.encode a
  end.

(** An object with array properties: scalars and composites, a scalar that
    does not convert, and a null. *)
Definition props : Object :=
  [("names", NArray [NString "a"; NObject []; NBool true; NArray []; NString "b"]);
   ("sizes", NArray [NString "a"; NInt 3]);
   ("holes", NArray [NString "a"; NNil]);
   ("name", NString "n");
   ("size", NInt 3)].

Definition decode (v : value) : option Array * option error :=
  match v with
  | VBytes [x05] => (Some [NObject props; demo.ident "x"], None)
  | _ => demo.decode v
  end.

Definition host : Host := {|
  Row := demo.row;
  Mode := demo.mode;
  ParseMode := demo.parseMode;
  Mode_String := demo.modeString;
  exprToString := demo.toString;
  Blob_Convert := demo.blobConvert;
  Text_Convert_Native := demo.textOf;
  getUASTFromBblfsh := parse;
  applyXpath := demo.xpath;
  marshalNodes := encode;
  getNodes := decode;
  TypeOf := demo.typeOf;
  TokenOf := demo.tokenOf;
  Role := string;
  Role_String := fun r => r;
  RolesOf := demo.rolesOf;
  Positions := Object;
  PositionsOf := demo.positionsOf;
  json_Marshal := demo.marshalPos;
  AllImportPaths := demo.importsOf;
  lowerRun := fun s => s
|}.

(** A cache that holds nothing and refuses every write. *)
Definition refusing : KeyValueCache := {|
  cache := unit;
  kvGet := fun c _ => ((NNil, Some lru.ErrKeyNotFound), c);
  kvPut := fun c _ _ => (Some (mkError KOther "memory: no space left"), c);
  NewLRUCache := fun _ => tt
|}.

(** The state after [init] for [host] and for [host] with [refusing]. *)
Definition w4 : @World fnv1a lruCache host :=
  @init fnv1a lruCache host sample.env4 (@zeroWorld fnv1a lruCache host fnv.offset64).

Definition wRefusing : @World fnv1a refusing host :=
  @init fnv1a refusing host sample.env4 (@zeroWorld fnv1a refusing host fnv.offset64).

(** [f(c0, c1)] and [f(c0)] over [host]. *)
Definition binary : @BinaryExpression host := @mkBinary host (demo.col 0) (demo.col 1).
Definition unary : @UnaryExpression host := @mkUnary host (demo.col 0).

End demo2.

(** ** A host for loc.go *)
Module demoLoc.

Definition textConvert (v : value) : value * option error :=
  match v with
  | VNil => (VNil, None)
  | VText s => (VText s, None)
  | VBytes b => (VText (string_of_list_byte b), None)
  | VInt _ => (VNil, Some (mkError KOther "cannot convert to text"))
  | VArray _ => (VNil, Some (mkError KOther "cannot convert to text"))
  end.

(** The detector knows one file name. *)
Definition detect (path : string) (blob : list byte) : string :=
  if String.eqb path "main.go" then "Go" else "".

Definition langs (lang : string) : option unit :=
  if String.eqb lang "Go" then Some tt else None.

(** Every byte counts as a line of code. *)
Definition analyze (path : string) (l : unit) (blob : list byte) : ClocFile :=
  mkClocFile (len blob) 0 0 path "Go".

Definition hash (path : string) (blob : list byte) : Z :=
  fold_left fnv.step (list_byte_of_string path ++ blob)%list fnv.offset64.

(** An unbounded cache: the entries, the last one written first. *)
Definition find (k : Z) (es : list (Z * string)) : option string :=
  match List.find (fun e => fst e =? k) es with
  | Some e => Some (snd e)
  | None => None
  end.

Definition get (c : list (Z * string)) (k : Z) : (string * option error) * list (Z * string) :=
  match find k c with
  | Some s => ((s, None), c)
  | None => (("", Some lru.ErrKeyNotFound), c)
  end.

Definition put (c : list (Z * string)) (k : Z) (s : string)
  : option error * list (Z * string) :=
  (None, (k, s) :: c).

End demoLoc.

#[export] Instance demoLocHost : @LocHost demoHost := {
  Text_Convert := demoLoc.textConvert;
  Language := unit;
  Langs := demoLoc.langs;
  AnalyzeReader := demoLoc.analyze;
  languageHash := demoLoc.hash;
  enry_GetLanguage := demoLoc.detect
}.

#[export] Instance demoStringCache : StringCache := {
  scache := list (Z * string);
  scGet := demoLoc.get;
  scPut := demoLoc.put
}.

Module sampleLoc.

(** [loc(c0, c1)] *)
Definition byCols : loc.LOC := loc.mkLOC (demo.col 0) (Some (demo.col 1)).

Definition start : loc.World := loc.mkWorld [] [].

Definition mainGo : demo.row := [VText "main.go"; VBytes sample.abcde].

End sampleLoc.

(** ** A host with the case tables up to U+017F *)

(** As [demo], with [strings.Map(unicode.ToLower, _)] for the runs of
    two-byte sequences up to U+017F. *)
Module latin.

Definition host : Host := {|
  Row := demo.row;
  Mode := demo.mode;
  ParseMode := demo.parseMode;
  Mode_String := demo.modeString;
  exprToString := demo.toString;
  Blob_Convert := demo.blobConvert;
  Text_Convert_Native := demo.textOf;
  getUASTFromBblfsh := demo.parse;
  applyXpath := demo.xpath;
  marshalNodes := demo.encode;
  getNodes := demo.decode;
  TypeOf := demo.typeOf;
  TokenOf := demo.tokenOf;
  Role := string;
  Role_String := fun r => r;
  RolesOf := demo.rolesOf;
  Positions := Object;
  PositionsOf := demo.positionsOf;
  json_Marshal := demo.marshalPos;
  AllImportPaths := demo.importsOf;
  lowerRun := utf8.Map unicode.ToLower
|}.

Definition w4 : @World fnv1a lruCache host :=
  @init fnv1a lruCache host sample.env4 (@zeroWorld fnv1a lruCache host fnv.offset64).

(** [uast_mode(c0, c1, c2)] and [uast_mode(c0, c1, c3)] over [host]. *)
Definition byCol2 : @uastFunc host := @NewUASTMode host (demo.col 0) (demo.col 1) (demo.col 2).
Definition byCol3 : @uastFunc host := @NewUASTMode host (demo.col 0) (demo.col 1) (demo.col 3).

(** [G] and U+00C9, the capital E with acute; [g] and U+00E9, the small
    one. *)
Definition capitalGE : string := string_of_list_byte [x47; xc3; x89].
Definition smallGE : string := string_of_list_byte [x67; xc3; xa9].

(** [SQL], and U+017F, the small long s, before [ql]. *)
Definition capitalSQL : string := "SQL".
Definition longSQL : string := string_of_list_byte [xc5; xbf; x71; x6c].

Definition rowGE : demo.row :=
  [VText "semantic"; VBytes sample.ab; VText capitalGE; VText smallGE].
Definition rowSQL : demo.row :=
  [VText "semantic"; VBytes sample.ab; VText capitalSQL; VText longSQL].

End latin.

(** ** The vocabulary of the statements *)

(** Two runes that are one letter in either case: equal, or one is what
    [unicode.ToLower] or [unicode.ToUpper] makes of the other. *)
Definition sameLetterRune (a b : Z) : bool :=
  ((a =? b) || (unicode.ToLower a =? b) || (unicode.ToLower b =? a)
   || (unicode.ToUpper a =? b) || (unicode.ToUpper b =? a))%bool.

(** Two strings of runes up to U+017F that differ only in letter case. *)
Definition caseVariantRunes (s t : string) : bool :=
  match utf8.decode s, utf8.decode t with
  | Some rs, Some rt =>
      (Nat.eqb (List.length rs) (List.length rt)
       && forallb (fun p => sameLetterRune (fst p) (snd p)) (combine rs rt))%bool
  | _, _ => false
  end.

(** Two runes that are equal, or of which one is the lower-case form of
    the other. *)
Definition lowerOrSame (a b : Z) : bool :=
  ((a =? b) || (unicode.ToLower a =? b) || (unicode.ToLower b =? a))%bool.

(** Two strings of runes up to U+017F that differ only in that letters of
    the one stand in their lower-case form in the other. *)
Definition lowerVariant (s t : string) : bool :=
  match utf8.decode s, utf8.decode t with
  | Some rs, Some rt =>
      (Nat.eqb (List.length rs) (List.length rt)
       && forallb (fun p => lowerOrSame (fst p) (snd p)) (combine rs rt))%bool
  | _, _ => false
  end.

(** Two bytes that are equal, or the two cases of one ASCII letter. *)
Definition sameLetter (a b : ascii) : bool :=
  (Ascii.eqb a b
   || (strings.isUpper a && Nat.eqb (nat_of_ascii b) (nat_of_ascii a + 32))
   || (strings.isUpper b && Nat.eqb (nat_of_ascii a) (nat_of_ascii b + 32)))%bool.

(** Two strings that differ only in the case of ASCII letters. *)
Fixpoint caseVariant (s t : string) : bool :=
  match s, t with
  | EmptyString, EmptyString => true
  | String a s', String b t' => (sameLetter a b && caseVariant s' t')%bool
  | _, _ => false
  end.

Section Specification.

Context {HH : Hash64} {KV : KeyValueCache} {HO : Host}.

(** The children one field value contributes: an object itself, of an
    array its elements that are objects. *)
Definition collect (c : Node) : Array :=
  match c with
  | NObject _ => [c]
  | NArray elems => filter isObject elems
  | _ => []
  end.

(** The children of an object: per field in declared order, the common
    keys skipped. *)
Definition childrenOf (o : Object) : Array :=
  flat_map (fun kv => if isCommonProp (fst kv) then [] else collect (snd kv)) o.

(** The children of a sequence of nodes, per node in order. *)
Definition childrenOfAll (arr : Array) : Array :=
  flat_map (fun n => match n with NObject o => childrenOf o | _ => [] end) arr.

(** No field outside the common keys holds a null, and no array held by
    such a field has a null element. *)
Definition nullFree (o : Object) : bool :=
  forallb (fun kv =>
    (isCommonProp (fst kv)
     || match snd kv with
        | NNil => false
        | NArray elems => forallb (fun n => negb (isNil n)) elems
        | _ => true
        end)%bool) o.

(** The process at its start: the zero values, then [init]. *)
Definition boot (getenv : string -> string) (h0 : hstate) : World :=
  init getenv (zeroWorld h0).

(** One evaluation of [uast] or [uast_mode]; the other functions of the
    package do not touch the package variables. *)
Inductive step : World -> World -> Prop :=
| step_Eval (u : uastFunc) (row : Row) (w : World) :
    step w (snd (uastFunc_Eval u row w)).

(** Any number of evaluations, one after the other. *)
Inductive steps : World -> World -> Prop :=
| steps_refl (w : World) : steps w w
| steps_more (w w' w'' : World) : steps w w' -> step w' w'' -> steps w w''.

(** The outcome of an evaluation is a result and not a panic. *)
Definition returns {A : Type} (o : Outcome A) : Prop := exists a, o = Done a.

(** [s] occurs in [t]. *)
Definition names (t s : string) : Prop := exists pre post, t = pre ++ s ++ post.

(** From [w] to [w'] the sizes stay, a cache that exists stays in place
    without a new construction, and a cache that does not exist is
    constructed at most once. *)
Definition keeps (w w' : World) : Prop :=
  uastCacheSize w' = uastCacheSize w /\
  uastMaxBlobSize w' = uastMaxBlobSize w /\
  (uastCache w <> None ->
   uastCache w' <> None /\ constructed w' = constructed w) /\
  (uastCache w = None ->
   (uastCache w' = None /\ constructed w' = constructed w) \/
   (uastCache w' <> None /\ constructed w' = S (constructed w))).

Definition keeping {A : Type} (c : M A) : Prop := forall w, keeps w (snd (c w)).

(** The cache is in place exactly when it has been constructed, and it
    has been constructed at most once. *)
Definition constructedOnce (w : World) : Prop :=
  (uastCache w = None /\ constructed w = 0%nat) \/
  (uastCache w <> None /\ constructed w = 1%nat).

(** The cache [getUASTCache] hands out in [w]. *)
Definition theCache (w : World) : cache :=
  match uastCache w with
  | Some c => c
  | None => NewLRUCache (uint (uastCacheSize w))
  end.

(** The lookup of [key] in [w] fails. *)
Definition misses (w : World) (key : Z) : Prop :=
  snd (fst (kvGet (theCache w) key)) <> None.

(** The world after the first half of [getUAST]: the key is computed
    (leaving the hash object in [s']), the cache is in place and the
    lookup has left it as [c']. *)
Definition looked (s' : hstate) (c' : cache) (w : World) : World :=
  let w1 := snd (getUASTCache (with_h s' w)) in
  with_cache (Some c') (constructed w1) w1.

(** The resolution of [(blob, lang, mode)] in [w] gets [node]: from the
    cache, or from the parser with the cache accepting it. *)
Definition resolvesTo (blob : list byte) (lang xpath : string) (mode : Mode)
           (w : World) (key : Z) (node : Node) : Prop :=
  (exists c', kvGet (theCache w) key = ((node, None), c') /\ node <> NNil) \/
  (exists v e0 c' c'',
      kvGet (theCache w) key = ((v, Some e0), c') /\
      getUASTFromBblfsh (requests w) blob lang xpath mode = (node, None) /\
      kvPut c' key node = (None, c'')).

(** The first node of [ns] the evaluator rejects, with its error. *)
Inductive firstError (xpath : string) : Array -> error -> Prop :=
| firstError_here (n : Node) (ns : Array) (arr : Array) (e : error) :
    applyXpath n xpath = (arr, Some e) -> firstError xpath (n :: ns) e
| firstError_later (n : Node) (ns : Array) (arr : Array) (e : error) :
    applyXpath n xpath = (arr, None) -> firstError xpath ns e ->
    firstError xpath (n :: ns) e.

End Specification.

(** ** More vocabulary *)

Section MoreVocabulary.

Context {HH : Hash64} {KV : KeyValueCache} {HO : Host}.

(** From [w] to [w'] the requests, the diagnostics and the metrics have
    only grown, by at most [nr], [nd] and [nm] entries. *)
Definition grew (nr nd nm : nat) (w w' : World) : Prop :=
  exists rs ds ms,
    requests w' = (requests w ++ rs)%list /\ (List.length rs <= nr)%nat /\
    diagnostics w' = (diagnostics w ++ ds)%list /\ (List.length ds <= nd)%nat /\
    metrics w' = (metrics w ++ ms)%list /\ (List.length ms <= nm)%nat.

Definition growing (nr nd nm : nat) {A : Type} (c : M A) : Prop :=
  forall w, grew nr nd nm w (snd (c w)).

(** [w'] differs from [w] in its logs only. *)
Definition sameStore (w w' : World) : Prop :=
  uastCache w' = uastCache w /\ h w' = h w /\ requests w' = requests w /\
  uastCacheSize w' = uastCacheSize w /\ uastMaxBlobSize w' = uastMaxBlobSize w /\
  constructed w' = constructed w.

(** A [nodes.Value]: a node whose kind is in [nodes.KindsValues]. *)
Definition isScalar (n : Node) : bool :=
  match n with
  | NString _ | NInt _ | NUint _ | NFloat _ | NBool _ => true
  | _ => false
  end.

End MoreVocabulary.

(** ** Proofs *)

Section Proofs.

Context {HH : Hash64} {KV : KeyValueCache} {HO : Host}.

Local Open Scope go_scope.

(** *** How an evaluation moves the package variables *)

Lemma keeps_refl (w : World) : keeps w w.
Proof. unfold keeps; intuition. Qed.

Lemma keeps_trans (w1 w2 w3 : World) : keeps w1 w2 -> keeps w2 w3 -> keeps w1 w3.
Proof.
  unfold keeps.
  intros (S1 & B1 & K1 & N1) (S2 & B2 & K2 & N2).
  repeat split; try congruence.
  - destruct (K1 H) as [H2 E]; destruct (K2 H2); assumption.
  - destruct (K1 H) as [H2 E]; destruct (K2 H2); congruence.
  - intros HN. destruct (N1 HN) as [[HN2 E] | [HS2 E]].
    + destruct (N2 HN2) as [[HN3 E'] | [HS3 E']]; [left | right]; split; congruence.
    + destruct (K2 HS2) as [HS3 E']. right; split; congruence.
Qed.

Lemma keeping_ret {A : Type} (a : A) : keeping (ret a).
Proof. intros w; apply keeps_refl. Qed.

Lemma keeping_lift {A : Type} (o : Outcome A) : keeping (lift o).
Proof. intros w; apply keeps_refl. Qed.

Lemma keeping_gets {A : Type} (f : World -> A) : keeping (gets f).
Proof. intros w; apply keeps_refl. Qed.

Lemma keeping_bind {A B : Type} (c : M A) (k : A -> M B) :
  keeping c -> (forall a, keeping (k a)) -> keeping (bind c k).
Proof.
  intros Hc Hk w. unfold bind.
  specialize (Hc w). destruct (c w) as [[a | r] w1]; simpl in *.
  - eapply keeps_trans; [exact Hc | apply Hk].
  - exact Hc.
Qed.

Lemma keeping_check {A : Type} (c : M (A * option error)) (k : A -> M Result) :
  keeping c -> (forall a, keeping (k a)) -> keeping (check c k).
Proof.
  intros Hc Hk. unfold check. apply keeping_bind; [exact Hc |].
  intros [a [e |]]; simpl; [apply keeping_ret | apply Hk].
Qed.

Lemma keeping_recover (prefix : string) (c : M Result) :
  keeping c -> keeping (recover prefix c).
Proof.
  intros Hc w. unfold recover. specialize (Hc w).
  destruct (c w) as [[a | r] w1]; exact Hc.
Qed.

Lemma keeping_log (f : World -> list Diagnostic) :
  keeping (modify (fun w => with_diagnostics (f w) w)).
Proof. intros w; unfold keeps; simpl; intuition. Qed.

Lemma keeping_finish (lang xpath : string) (ok : bool) : keeping (finish lang xpath ok).
Proof. intros w; unfold keeps; simpl; intuition. Qed.

Lemma keeping_computeKey (mode lang : string) (blob : list byte) :
  keeping (uastFunc_computeKey mode lang blob).
Proof.
  intros w; unfold uastFunc_computeKey.
  destruct (computeKey (h w) mode lang blob) as [r s']; unfold keeps; simpl; intuition.
Qed.

Lemma keeping_callBblfsh (blob : list byte) (lang xpath : string) (mode : Mode) :
  keeping (callBblfsh blob lang xpath mode).
Proof. intros w; unfold keeps; simpl; intuition. Qed.

Lemma keeping_getUASTCache : keeping getUASTCache.
Proof.
  intros w; unfold getUASTCache, keeps.
  destruct (uastCache w) eqn:E; simpl; rewrite ?E; intuition; try discriminate.
  right; split; [discriminate | reflexivity].
Qed.

Lemma keeping_cacheGet (key : Z) : keeping (cacheGet key).
Proof.
  intros w; unfold cacheGet, keeps.
  destruct (uastCache w) eqn:E; simpl.
  - destruct (kvGet c key) as [r c']; simpl; rewrite ?E; intuition; discriminate.
  - rewrite ?E; intuition.
Qed.

Lemma keeping_cachePut (key : Z) (node : Node) : keeping (cachePut key node).
Proof.
  intros w; unfold cachePut, keeps.
  destruct (uastCache w) eqn:E; simpl.
  - destruct (kvPut c key node) as [r c']; simpl; rewrite ?E; intuition; discriminate.
  - rewrite ?E; intuition.
Qed.

Lemma keeping_filterAndMarshal (lang xpath : string) (miss : bool) (node : Node) :
  keeping (filterAndMarshal lang xpath miss node).
Proof.
  unfold filterAndMarshal.
  destruct (if String.eqb xpath "" then _ else _) as [arr [e |]].
  - apply keeping_bind; [apply keeping_log | intros; apply keeping_ret].
  - destruct (marshalNodes arr) as [r [e |]].
    + apply keeping_bind; [apply keeping_log | intros; apply keeping_ret].
    + apply keeping_bind; [apply keeping_finish | intros; apply keeping_ret].
Qed.

Lemma keeping_getUAST (blob : list byte) (lang xpath : string) (mode : Mode) :
  keeping (getUAST blob lang xpath mode).
Proof.
  unfold getUAST.
  apply keeping_check; [apply keeping_computeKey | intros key].
  apply keeping_bind; [apply keeping_getUASTCache | intros _].
  apply keeping_bind; [apply keeping_cacheGet | intros [v [e |]]]; simpl.
  - apply keeping_bind; [apply keeping_callBblfsh | intros [n [e' |]]]; simpl.
    + destruct (_ || _)%bool; apply keeping_ret.
    + apply keeping_bind; [apply keeping_cachePut | intros [e'' |]].
      * apply keeping_ret.
      * apply keeping_filterAndMarshal.
  - apply keeping_bind; [apply keeping_lift | intros; apply keeping_filterAndMarshal].
Qed.

Lemma keeping_Eval (u : uastFunc) (row : Row) : keeping (uastFunc_Eval u row).
Proof.
  unfold uastFunc_Eval, uastFunc_Eval_body.
  apply keeping_recover.
  apply keeping_check; [apply keeping_lift | intros m].
  apply keeping_check; [apply keeping_ret | intros mode].
  apply keeping_check; [apply keeping_lift | intros blob].
  assert (K : keeping
    (blob0 <~ ret (Blob_Convert blob) ;;
     bytes <- lift (assertBytes blob0) ;;
     if len bytes =? 0 then ret (VNil, None)
     else
       maxBlob <- gets uastMaxBlobSize ;;
       if ((0 <=? maxBlob) && (maxBlob <? len bytes))%bool
       then
         _ <- logrus_Warn tooBigMsg ;;
         _ <- ctx_Warn tooBigMsg ;;
         ret (VNil, None)
       else
         lang <~ lift (exprToString (Lang u) row) ;;
         xpath <~ lift (exprToString (XPath u) row) ;;
         getUAST bytes (strings.ToLower lowerRun lang) xpath mode)).
  { apply keeping_check; [apply keeping_ret | intros blob0].
    apply keeping_bind; [apply keeping_lift | intros bytes].
    destruct (len bytes =? 0); [apply keeping_ret |].
    apply keeping_bind; [apply keeping_gets | intros maxBlob].
    destruct (_ && _)%bool.
    - apply keeping_bind; [apply keeping_log | intros _].
      apply keeping_bind; [apply keeping_log | intros _].
      apply keeping_ret.
    - apply keeping_check; [apply keeping_lift | intros lang].
      apply keeping_check; [apply keeping_lift | intros xpath].
      apply keeping_getUAST. }
  destruct blob; try exact K. apply keeping_ret.
Qed.

Lemma keeps_steps (w w' : World) : steps w w' -> keeps w w'.
Proof.
  induction 1 as [w | w w' w'' _ IH Hs].
  - apply keeps_refl.
  - destruct Hs as [u row w']. eapply keeps_trans; [exact IH | apply keeping_Eval].
Qed.

Lemma boot_lazy (getenv : string -> string) (h0 : hstate) :
  uastCache (boot getenv h0) = None /\ constructed (boot getenv h0) = 0%nat.
Proof.
  unfold boot, init.
  destruct (strconv.Atoi (getenv uastCacheSizeKey)) as [n e].
  destruct (strconv.Atoi (getenv uastMaxBlobSizeKey)) as [n' e'].
  split; reflexivity.
Qed.

Lemma boot_size (getenv : string -> string) (h0 : hstate) :
  uastCacheSize (boot getenv h0) =
  match strconv.Atoi (getenv uastCacheSizeKey) with
  | (n, None) => if n <=? 0 then defaultUASTCacheSize else n
  | (_, Some _) => defaultUASTCacheSize
  end.
Proof.
  unfold boot, init.
  destruct (strconv.Atoi (getenv uastCacheSizeKey)) as [n e].
  destruct (strconv.Atoi (getenv uastMaxBlobSizeKey)) as [n' e'].
  destruct e; reflexivity.
Qed.

Lemma boot_maxBlob (getenv : string -> string) (h0 : hstate) :
  uastMaxBlobSize (boot getenv h0) =
  match strconv.Atoi (getenv uastMaxBlobSizeKey) with
  | (n, None) => n
  | (_, Some _) => defaultUASTMaxBlobSize
  end.
Proof.
  unfold boot, init.
  destruct (strconv.Atoi (getenv uastCacheSizeKey)) as [n e].
  destruct (strconv.Atoi (getenv uastMaxBlobSizeKey)) as [n' e'].
  destruct e'; reflexivity.
Qed.

Lemma constructedOnce_keeps (w w' : World) :
  constructedOnce w -> keeps w w' -> constructedOnce w'.
Proof.
  intros [[HN E] | [HS E]] (_ & _ & K & N).
  - destruct (N HN) as [[HN' E'] | [HS' E']]; [left | right]; split; congruence.
  - destruct (K HS) as [HS' E']. right; split; congruence.
Qed.

(** C9. The capacity of the tree cache is read from the environment when
    the process starts: it is positive, it is the configured value when
    that parses to a positive integer, and it is 10000 when the value is
    invalid or not positive. The cache does not exist at start; the first
    use constructs it with that capacity; over any run of evaluations it
    is constructed at most once, the capacity does not change, and once
    the cache is in place it stays in place. *)
Theorem cache_capacity_and_lifetime :
  forall (getenv : string -> string) (h0 : hstate) (w w' : World),
    steps (boot getenv h0) w ->
    steps w w' ->
    let conf := strconv.Atoi (getenv uastCacheSizeKey) in
    0 < uastCacheSize (boot getenv h0) /\
    (snd conf = None -> 0 < fst conf -> uastCacheSize (boot getenv h0) = fst conf) /\
    (snd conf <> None \/ fst conf <= 0 -> uastCacheSize (boot getenv h0) = 10000) /\
    uastCache (boot getenv h0) = None /\
    constructed (boot getenv h0) = 0%nat /\
    (uastCache w = None ->
     uastCache (snd (getUASTCache w)) = Some (NewLRUCache (uint (uastCacheSize w))) /\
     constructed (snd (getUASTCache w)) = 1%nat) /\
    uastCacheSize w = uastCacheSize (boot getenv h0) /\
    (constructed w <= 1)%nat /\
    (uastCache w = None <-> constructed w = 0%nat) /\
    (uastCache w <> None ->
     uastCache w' <> None /\ constructed w' = constructed w /\
     uastCache (snd (getUASTCache w')) = uastCache w').
Proof.
  intros getenv h0 w w' R R' conf.
  pose proof (boot_size getenv h0) as Hsize.
  pose proof (boot_lazy getenv h0) as [Hnone Hzero].
  pose proof (keeps_steps R) as Kw.
  pose proof (keeps_steps R') as Kw'.
  assert (Once : constructedOnce w).
  { eapply constructedOnce_keeps; [left; split; eassumption | exact Kw]. }
  fold conf in Hsize. destruct conf as [n e]; simpl.
  repeat split.
  - rewrite Hsize. destruct e; [reflexivity |].
    destruct (n <=? 0) eqn:E; [reflexivity | apply Z.leb_gt in E; exact E].
  - intros -> Hpos. rewrite Hsize.
    destruct (n <=? 0) eqn:E; [apply Z.leb_le in E; lia | reflexivity].
  - intros [Hbad | Hneg]; rewrite Hsize.
    + destruct e; [reflexivity | congruence].
    + destruct e; [reflexivity |].
      destruct (n <=? 0) eqn:E; [reflexivity | apply Z.leb_gt in E; lia].
  - exact Hnone.
  - exact Hzero.
  - unfold getUASTCache; rewrite H; reflexivity.
  - unfold getUASTCache; rewrite H; simpl.
    destruct Once as [[_ E] | [HS _]]; [rewrite E; reflexivity | contradiction].
  - apply Kw.
  - destruct Once as [[_ E] | [_ E]]; rewrite E; lia.
  - destruct Once as [[_ E] | [HS E]]; [exact (fun _ => E) | contradiction].
  - destruct Once as [[HN _] | [_ E]]; [exact (fun _ => HN) | congruence].
  - apply Kw'; assumption.
  - apply Kw'; assumption.
  - destruct Kw' as (_ & _ & K & _). destruct (K H) as [HS _].
    unfold getUASTCache. destruct (uastCache w') eqn:E; [simpl; congruence | contradiction].
Qed.

(** C8. The key [uastFunc.computeKey] returns for a mode, a language and
    content does not depend on the state the hash object was left in: any
    two invocations on the same triple return the same 64-bit value (and
    the same error, if the hash fails to write), in particular two
    invocations one after the other with any other invocation between
    them. *)
Theorem computeKey_deterministic :
  forall (mode lang : string) (blob : list byte) (w w' : World),
    fst (uastFunc_computeKey mode lang blob w) =
    fst (uastFunc_computeKey mode lang blob w') /\
    forall (mode' lang' : string) (blob' : list byte),
      let w1 := snd (uastFunc_computeKey mode lang blob w) in
      let w2 := snd (uastFunc_computeKey mode' lang' blob' w1) in
      fst (uastFunc_computeKey mode lang blob w2) =
      fst (uastFunc_computeKey mode lang blob w).
Proof.
  assert (G : forall mode lang blob w w',
             fst (uastFunc_computeKey mode lang blob w) =
             fst (uastFunc_computeKey mode lang blob w')).
  { intros mode lang blob w w'. unfold uastFunc_computeKey, computeKey, hReset.
    destruct (writeToHash hInit _) as [s' [e |]]; reflexivity. }
  intros mode lang blob w w'. split; [apply G |].
  intros mode' lang' blob' w1 w2. apply G.
Qed.

(** *** The oversize guard *)

Lemma tooBigMsg_names_key : names tooBigMsg uastMaxBlobSizeKey.
Proof.
  exists ("uast will be skipped, file is too big to send to bblfsh." ++
          "This can be configured using "), " environment variable".
  reflexivity.
Qed.

Lemma looked_fields (s' : hstate) (c' : cache) (w : World) :
  uastCache (looked s' c' w) = Some c' /\
  h (looked s' c' w) = s' /\
  requests (looked s' c' w) = requests w /\
  diagnostics (looked s' c' w) = diagnostics w /\
  metrics (looked s' c' w) = metrics w /\
  uastCacheSize (looked s' c' w) = uastCacheSize w /\
  uastMaxBlobSize (looked s' c' w) = uastMaxBlobSize w.
Proof.
  unfold looked, getUASTCache; simpl.
  destruct (uastCache w); simpl; repeat split; reflexivity.
Qed.

(** The first half of [getUAST]: what remains to run after the lookup. *)
Lemma getUAST_lookup
      (blob : list byte) (lang xpath : string) (mode : Mode) (w : World)
      (key : Z) (s' : hstate) (got : Node * option error) (c' : cache) :
  computeKey (h w) (Mode_String mode) lang blob = ((key, None), s') ->
  kvGet (theCache w) key = (got, c') ->
  getUAST blob lang xpath mode w =
  match snd got with
  | None =>
      (node <- lift (assertNode (fst got)) ;;
       filterAndMarshal lang xpath false node) (looked s' c' w)
  | Some _ =>
      (parsed <- callBblfsh blob lang xpath mode ;;
       match snd parsed with
       | Some e =>
           if (ErrParseBlob_Is e || ErrSyntax_Is e)%bool
           then ret (VNil, None)
           else ret (VNil, Some e)
       | None =>
           perr <- cachePut key (fst parsed) ;;
           match perr with
           | Some e => ret (VNil, Some e)
           | None => filterAndMarshal lang xpath true (fst parsed)
           end
       end) (looked s' c' w)
  end.
Proof.
  intros Hk Hg.
  unfold getUAST, check, bind, uastFunc_computeKey. rewrite Hk; simpl.
  unfold looked, theCache, getUASTCache, cacheGet in *; simpl.
  destruct (uastCache w) as [c |] eqn:E; simpl; rewrite ?E; simpl; rewrite Hg; simpl;
    destruct (snd got); reflexivity.
Qed.

Local Opaque looked.

Lemma filterAndMarshal_requests (lang xpath : string) (miss : bool) (node : Node) (w : World) :
  requests (snd (filterAndMarshal lang xpath miss node w)) = requests w.
Proof.
  unfold filterAndMarshal.
  destruct (if String.eqb xpath "" then _ else _) as [arr [e |]]; [reflexivity |].
  destruct (marshalNodes arr) as [res [e |]]; reflexivity.
Qed.

(** On a miss the request goes out to the parser, whatever it answers. *)
Lemma getUAST_miss_requests
      (blob : list byte) (lang xpath : string) (mode : Mode) (w : World) (key : Z) :
  fst (computeKey (h w) (Mode_String mode) lang blob) = (key, None) ->
  misses w key ->
  requests (snd (getUAST blob lang xpath mode w)) =
  (requests w ++ [(blob, lang, xpath, mode)])%list.
Proof.
  unfold misses. intros Hk Hm.
  destruct (computeKey (h w) (Mode_String mode) lang blob) as [r s'] eqn:Ek.
  simpl in Hk; subst r.
  destruct (kvGet (theCache w) key) as [got c'] eqn:Eg. simpl in Hm.
  rewrite (@getUAST_lookup blob lang xpath mode w key s' got c' Ek Eg).
  destruct (snd got) as [e |]; [| congruence].
  destruct (looked_fields s' c' w) as (Hc & _ & Hr & _).
  unfold bind, callBblfsh; simpl. rewrite Hr.
  destruct (getUASTFromBblfsh _ _ _ _ _) as [n [e' |]]; simpl.
  - destruct (_ || _)%bool; reflexivity.
  - unfold cachePut; simpl. rewrite Hc.
    destruct (kvPut c' key n) as [[e'' |] c'']; simpl; [reflexivity |].
    apply filterAndMarshal_requests.
Qed.

Lemma recover_requests (prefix : string) (c : M Result) (w : World) :
  requests (snd (recover prefix c w)) = requests (snd (c w)).
Proof. unfold recover. destruct (c w) as [[r | p] w']; reflexivity. Qed.

(** C3 (as the code has it). When the mode parses and the blob expression
    yields content, then
    - content longer than a non-negative ceiling makes [uast] and
      [uast_mode] return null without error, with two warnings that name
      the configuration key and without a request to the parser;
    - under a negative ceiling content of any length is resolved by
      [getUAST], and on a cache miss it is sent to the parser;
    and the ceiling is the configured integer, 5 MB when the
    configuration does not parse. *)
Theorem oversize_guard :
  forall (u : uastFunc) (row : Row) (w : World)
         (m : string) (mode : Mode) (v : value) (bytes : list byte),
    exprToString (Some (Mode_ u)) row = Done (m, None) ->
    ParseMode m = (mode, None) ->
    Blob u row = Done (v, None) ->
    v <> VNil ->
    Blob_Convert v = (VBytes bytes, None) ->
    (0 <= uastMaxBlobSize w < len bytes ->
     uastFunc_Eval u row w =
     (Done (VNil, None),
      with_diagnostics
        (diagnostics w ++ [mkDiag Logrus LWarn tooBigMsg; mkDiag CtxWarn LWarn tooBigMsg])%list
        w) /\
     names tooBigMsg uastMaxBlobSizeKey /\
     requests (snd (uastFunc_Eval u row w)) = requests w) /\
    (uastMaxBlobSize w < 0 ->
     bytes <> [] ->
     forall (lang xpath : string),
       exprToString (Lang u) row = Done (lang, None) ->
       exprToString (XPath u) row = Done (xpath, None) ->
       let lang' := strings.ToLower lowerRun lang in
       uastFunc_Eval u row w =
       recover "uast: unknown error: " (getUAST bytes lang' xpath mode) w /\
       forall (key : Z),
         fst (computeKey (h w) (Mode_String mode) lang' bytes) = (key, None) ->
         misses w key ->
         requests (snd (uastFunc_Eval u row w)) =
         (requests w ++ [(bytes, lang', xpath, mode)])%list) /\
    (forall (getenv : string -> string) (h0 : hstate),
       let conf := strconv.Atoi (getenv uastMaxBlobSizeKey) in
       (snd conf = None -> uastMaxBlobSize (boot getenv h0) = fst conf) /\
       (snd conf <> None -> uastMaxBlobSize (boot getenv h0) = 5242880)).
Proof.
  intros u row w m mode v bytes Hm Hmode Hblob Hv Hconv.
  assert (Body : uastFunc_Eval_body u row w =
    (bytes <- lift (assertBytes (VBytes bytes)) ;;
     if len bytes =? 0 then ret (VNil, None)
     else
       maxBlob <- gets uastMaxBlobSize ;;
       if ((0 <=? maxBlob) && (maxBlob <? len bytes))%bool
       then
         _ <- logrus_Warn tooBigMsg ;;
         _ <- ctx_Warn tooBigMsg ;;
         ret (VNil, None)
       else
         lang <~ lift (exprToString (Lang u) row) ;;
         xpath <~ lift (exprToString (XPath u) row) ;;
         getUAST bytes (strings.ToLower lowerRun lang) xpath mode) w).
  { unfold uastFunc_Eval_body, check, bind, lift, ret.
    rewrite Hm; simpl. rewrite Hmode; simpl. rewrite Hblob; simpl.
    destruct v; try congruence; rewrite Hconv; reflexivity. }
  split; [| split].
  - intros [Hlo Hhi].
    assert (E : uastFunc_Eval u row w =
      (Done (VNil, None),
       with_diagnostics
         (diagnostics w ++ [mkDiag Logrus LWarn tooBigMsg; mkDiag CtxWarn LWarn tooBigMsg])%list
         w)).
    { unfold uastFunc_Eval, recover. rewrite Body.
      unfold bind, lift, gets, ret; simpl.
      replace (len bytes =? 0) with false by (symmetry; apply Z.eqb_neq; lia).
      replace (0 <=? uastMaxBlobSize w) with true by (symmetry; apply Z.leb_le; lia).
      replace (uastMaxBlobSize w <? len bytes) with true by (symmetry; apply Z.ltb_lt; lia).
      simpl. unfold with_diagnostics; simpl. rewrite <- app_assoc. reflexivity. }
    split; [exact E | split; [apply tooBigMsg_names_key | rewrite E; reflexivity]].
  - intros Hneg Hne lang xpath Hlang Hxpath lang'.
    assert (E : uastFunc_Eval u row w =
                recover "uast: unknown error: " (getUAST bytes lang' xpath mode) w).
    { unfold uastFunc_Eval, recover. rewrite Body.
      unfold check, bind, lift, gets, ret; simpl.
      replace (len bytes =? 0) with false
        by (symmetry; apply Z.eqb_neq; unfold len; destruct bytes; [congruence | simpl; lia]).
      replace (0 <=? uastMaxBlobSize w) with false by (symmetry; apply Z.leb_gt; lia).
      simpl. rewrite Hlang; simpl. rewrite Hxpath; simpl. reflexivity. }
    split; [exact E |].
    intros key Hk Hmiss. rewrite E, recover_requests.
    apply getUAST_miss_requests with (key := key); assumption.
  - intros getenv h0 conf. subst conf. rewrite (boot_maxBlob getenv h0).
    destruct (strconv.Atoi (getenv uastMaxBlobSizeKey)) as [n [e |]]; simpl;
      split; intros; solve [reflexivity | congruence].
Qed.

(** *** Soft parse failures *)

Lemma computeKey_any_state (s1 s2 : hstate) (mode lang : string) (blob : list byte) :
  fst (computeKey s1 mode lang blob) = fst (computeKey s2 mode lang blob).
Proof.
  unfold computeKey, hReset.
  destruct (writeToHash hInit _) as [s' [e |]]; reflexivity.
Qed.

(** C2. A resolution that misses the cache and is answered by the parser
    with a soft failure ([ErrParseBlob] or a syntax error) returns null
    without error and stores nothing: the cache is the one the failed
    lookup found (or the empty one just constructed), the key still
    misses, and a second resolution of the same content, language and
    mode sends a second request to the parser. *)
Theorem soft_failure_not_cached :
  GetMissKeeps KV ->
  forall (blob : list byte) (lang xpath xpath2 : string) (mode : Mode) (w : World)
         (key : Z) (n : Node) (e : error),
    fst (computeKey (h w) (Mode_String mode) lang blob) = (key, None) ->
    misses w key ->
    getUASTFromBblfsh (requests w) blob lang xpath mode = (n, Some e) ->
    (ErrParseBlob_Is e || ErrSyntax_Is e)%bool = true ->
    let w1 := snd (getUAST blob lang xpath mode w) in
    fst (getUAST blob lang xpath mode w) = Done (VNil, None) /\
    uastCache w1 = Some (theCache w) /\
    misses w1 key /\
    requests w1 = (requests w ++ [(blob, lang, xpath, mode)])%list /\
    requests (snd (getUAST blob lang xpath2 mode w1)) =
    (requests w ++ [(blob, lang, xpath, mode); (blob, lang, xpath2, mode)])%list.
Proof.
  intros Keeps blob lang xpath xpath2 mode w key n e Hk Hmiss Hparse Hsoft w1.
  destruct (computeKey (h w) (Mode_String mode) lang blob) as [r s'] eqn:Ek.
  simpl in Hk; subst r.
  destruct (kvGet (theCache w) key) as [got c'] eqn:Eg.
  assert (Hgot : snd got <> None) by (unfold misses in Hmiss; rewrite Eg in Hmiss; exact Hmiss).
  destruct got as [v [e0 |]]; simpl in Hgot; [clear Hgot | congruence].
  assert (c' = theCache w) by (eapply Keeps; exact Eg). subst c'.
  destruct (looked_fields s' (theCache w) w) as (Hc & Hh & Hr & _).
  assert (E1 : getUAST blob lang xpath mode w =
               (Done (VNil, None),
                with_requests (requests w ++ [(blob, lang, xpath, mode)])%list
                              (looked s' (theCache w) w))).
  { rewrite (@getUAST_lookup blob lang xpath mode w key s' _ _ Ek Eg); simpl.
    unfold bind, callBblfsh; simpl. rewrite Hr, Hparse; simpl. rewrite Hsoft.
    reflexivity. }
  assert (Hc1 : uastCache w1 = Some (theCache w)) by (unfold w1; rewrite E1; simpl; exact Hc).
  assert (Hm1 : misses w1 key).
  { unfold misses, theCache at 1. rewrite Hc1, Eg. simpl. discriminate. }
  assert (Hr1 : requests w1 = (requests w ++ [(blob, lang, xpath, mode)])%list)
    by (unfold w1; rewrite E1; reflexivity).
  repeat split.
  - rewrite E1; reflexivity.
  - exact Hc1.
  - exact Hm1.
  - exact Hr1.
  - rewrite (@getUAST_miss_requests blob lang xpath2 mode w1 key).
    + rewrite Hr1, <- app_assoc. reflexivity.
    + rewrite (computeKey_any_state (h w1) (h w)), Ek. reflexivity.
    + exact Hm1.
Qed.

(** *** Path queries *)

(** With the node in hand [getUAST] goes on to its second half; nothing
    has been logged so far. *)
Lemma getUAST_resolved
      (blob : list byte) (lang xpath : string) (mode : Mode) (w : World)
      (key : Z) (node : Node) :
  fst (computeKey (h w) (Mode_String mode) lang blob) = (key, None) ->
  resolvesTo blob lang xpath mode w key node ->
  exists (miss : bool) (w2 : World),
    getUAST blob lang xpath mode w = filterAndMarshal lang xpath miss node w2 /\
    diagnostics w2 = diagnostics w.
Proof.
  intros Hk Hres.
  destruct (computeKey (h w) (Mode_String mode) lang blob) as [r s'] eqn:Ek.
  simpl in Hk; subst r.
  destruct Hres as [(c' & Hg & Hnn) | (v & e0 & c' & c'' & Hg & Hp & Hput)];
    rewrite (@getUAST_lookup blob lang xpath mode w key s' _ _ Ek Hg); simpl;
    destruct (looked_fields s' c' w) as (Hc & _ & Hr & Hd & _).
  - exists false, (looked s' c' w). split; [| exact Hd].
    unfold bind, lift. destruct node; try reflexivity. congruence.
  - exists true.
    exists (with_cache (Some c'')
              (constructed (looked s' c' w))
              (with_requests (requests w ++ [(blob, lang, xpath, mode)])%list
                             (looked s' c' w))).
    split; [| exact Hd].
    unfold bind, callBblfsh; simpl. rewrite Hr, Hp; simpl.
    unfold cachePut; simpl. rewrite Hc, Hput; simpl. reflexivity.
Qed.

Lemma filterLoop_error (xpath : string) (ns : Array) (e : error) :
  firstError xpath ns e ->
  forall filtered, filterLoop xpath ns filtered = ([], Some e).
Proof.
  induction 1 as [n ns arr e Ha | n ns arr e Ha _ IH]; intros filtered; simpl; rewrite Ha.
  - reflexivity.
  - apply IH.
Qed.

(** C1 (as the code has it). When the path-query evaluator returns an
    error for the node and a non-empty query,
    - [getUAST], for [uast] and [uast_mode], logs an error-level
      diagnostic and returns null without error;
    - [uast_xpath] returns that error to its caller, with a null value. *)
Theorem xpath_error_handling :
  (forall (blob : list byte) (lang xpath : string) (mode : Mode) (w : World)
          (key : Z) (node : Node) (arr : Array) (e : error),
      fst (computeKey (h w) (Mode_String mode) lang blob) = (key, None) ->
      resolvesTo blob lang xpath mode w key node ->
      xpath <> "" ->
      applyXpath node xpath = (arr, Some e) ->
      fst (getUAST blob lang xpath mode w) = Done (VNil, None) /\
      diagnostics (snd (getUAST blob lang xpath mode w)) =
      (diagnostics w ++
       [mkDiag Logrus LError ("unable to filter node using xpath: " ++ xpath)])%list) /\
  (forall (f : BinaryExpression) (row : Row) (xpath : string) (v : value)
          (ns : Array) (e : error),
      exprToString (Some (Right f)) row = Done (xpath, None) ->
      xpath <> "" ->
      Left f row = Done (v, None) ->
      getNodes v = (Some ns, None) ->
      firstError xpath ns e ->
      UASTXPath_Eval f row = Done (VNil, Some e)).
Proof.
  split.
  - intros blob lang xpath mode w key node arr e Hk Hres Hne Hx.
    destruct (getUAST_resolved Hk Hres) as (miss & w2 & E & Hd).
    rewrite E. unfold filterAndMarshal.
    apply String.eqb_neq in Hne. rewrite Hne, Hx.
    unfold bind, logrus_Error, modify, ret; simpl. rewrite Hd. split; reflexivity.
  - intros f row xpath v ns e Hx Hne Hl Hn Hfirst.
    unfold UASTXPath_Eval, UASTXPath_Eval_body, ocheck, obind.
    rewrite Hx; simpl. apply String.eqb_neq in Hne. rewrite Hne, Hl; simpl.
    rewrite Hn; simpl. rewrite (filterLoop_error Hfirst). reflexivity.
Qed.

(** C4 (as the code has it). With the empty query,
    - [getUAST], for [uast] and [uast_mode], does not consult the
      evaluator: its result is the serialisation of the one-element
      sequence holding the resolved node (null when serialising fails);
    - [uast_xpath] returns null, whatever its first argument holds. *)
Theorem empty_query :
  (forall (blob : list byte) (lang : string) (mode : Mode) (w : World)
          (key : Z) (node : Node),
      fst (computeKey (h w) (Mode_String mode) lang blob) = (key, None) ->
      resolvesTo blob lang "" mode w key node ->
      fst (getUAST blob lang "" mode w) =
      Done (match marshalNodes [node] with
            | (result, None) => (result, None)
            | (_, Some _) => (VNil, None)
            end)) /\
  (forall (f : BinaryExpression) (row : Row),
      exprToString (Some (Right f)) row = Done ("", None) ->
      UASTXPath_Eval f row = Done (VNil, None)).
Proof.
  split.
  - intros blob lang mode w key node Hk Hres.
    destruct (getUAST_resolved Hk Hres) as (miss & w2 & E & _).
    rewrite E. unfold filterAndMarshal; simpl.
    destruct (marshalNodes [node]) as [result [e |]]; reflexivity.
  - intros f row Hx.
    unfold UASTXPath_Eval, UASTXPath_Eval_body, ocheck, obind.
    rewrite Hx; reflexivity.
Qed.

(** *** The language argument *)

Lemma sameLetter_lower (a b : ascii) :
  sameLetter a b = true ->
  strings.isASCIIByte a = strings.isASCIIByte b /\
  strings.lowerByte a = strings.lowerByte b.
Proof.
  assert (Up : forall x y : ascii,
             strings.isUpper x = true ->
             Nat.eqb (nat_of_ascii y) (nat_of_ascii x + 32) = true ->
             strings.isASCIIByte x = strings.isASCIIByte y /\
             strings.lowerByte x = strings.lowerByte y).
  { intros x y Hu He. apply Nat.eqb_eq in He.
    unfold strings.isUpper in Hu. apply andb_true_iff in Hu as [Hlo Hhi].
    apply Nat.leb_le in Hlo, Hhi.
    unfold strings.isASCIIByte, strings.RuneSelf, strings.lowerByte, strings.isUpper.
    rewrite He.
    replace (Nat.ltb (nat_of_ascii x) 128) with true
      by (symmetry; apply Nat.ltb_lt; lia).
    replace (Nat.ltb (nat_of_ascii x + 32) 128) with true
      by (symmetry; apply Nat.ltb_lt; lia).
    replace (Nat.leb 65 (nat_of_ascii x)) with true by (symmetry; apply Nat.leb_le; lia).
    replace (Nat.leb (nat_of_ascii x) 90) with true by (symmetry; apply Nat.leb_le; lia).
    replace (Nat.leb (nat_of_ascii x + 32) 90) with false
      by (symmetry; apply Nat.leb_gt; lia).
    rewrite andb_false_r; simpl.
    split; [reflexivity |].
    rewrite <- He. apply ascii_nat_embedding. }
  unfold sameLetter. intros H.
  apply orb_true_iff in H as [H | H]; [apply orb_true_iff in H as [H | H] |].
  - apply Ascii.eqb_eq in H. subst b. split; reflexivity.
  - apply andb_true_iff in H as [Hu He]. apply Up; assumption.
  - apply andb_true_iff in H as [Hu He].
    destruct (Up b a Hu He) as [H1 H2]. split; congruence.
Qed.

Lemma caseVariant_isASCII (s t : string) :
  caseVariant s t = true -> strings.isASCII s = strings.isASCII t.
Proof.
  revert t. induction s as [| a s IH]; intros [| b t] H; simpl in *; try discriminate.
  - reflexivity.
  - apply andb_true_iff in H as [Hl Hr].
    destruct (sameLetter_lower _ _ Hl) as [-> _]. rewrite (IH _ Hr). reflexivity.
Qed.

Lemma caseVariant_lowerBytes (s t : string) :
  caseVariant s t = true -> strings.lowerBytes s = strings.lowerBytes t.
Proof.
  revert t. induction s as [| a s IH]; intros [| b t] H; simpl in *; try discriminate.
  - reflexivity.
  - apply andb_true_iff in H as [Hl Hr].
    destruct (sameLetter_lower _ _ Hl) as [_ ->]. rewrite (IH _ Hr). reflexivity.
Qed.

Lemma caseVariant_MapToLower (s t : string) :
  caseVariant s t = true ->
  forall run, strings.MapToLower lowerRun run s = strings.MapToLower lowerRun run t.
Proof.
  revert t. induction s as [| a s IH]; intros [| b t] H run; simpl in *; try discriminate.
  - reflexivity.
  - apply andb_true_iff in H as [Hl Hr].
    destruct (sameLetter_lower _ _ Hl) as [Ha Hb]. rewrite <- Ha, Hb.
    destruct (strings.isASCIIByte a) eqn:E.
    + rewrite (IH _ Hr). reflexivity.
    + assert (a = b).
      { unfold sameLetter in Hl.
        apply orb_true_iff in Hl as [Hl | Hl]; [apply orb_true_iff in Hl as [Hl | Hl] |].
        - apply Ascii.eqb_eq; exact Hl.
        - exfalso. apply andb_true_iff in Hl as [Hu _].
          unfold strings.isUpper in Hu. apply andb_true_iff in Hu as [_ Hhi].
          apply Nat.leb_le in Hhi. unfold strings.isASCIIByte, strings.RuneSelf in E.
          apply Nat.ltb_ge in E. lia.
        - exfalso. apply andb_true_iff in Hl as [Hu He]. apply Nat.eqb_eq in He.
          unfold strings.isUpper in Hu. apply andb_true_iff in Hu as [_ Hhi].
          apply Nat.leb_le in Hhi. unfold strings.isASCIIByte, strings.RuneSelf in E.
          apply Nat.ltb_ge in E. lia. }
      subst b. apply IH; exact Hr.
Qed.

Lemma lowerBytes_noUpper (s : string) :
  strings.hasUpper s = false -> strings.lowerBytes s = s.
Proof.
  induction s as [| a s IH]; simpl; intros H; [reflexivity |].
  apply orb_false_iff in H as [Ha Hs].
  unfold strings.lowerByte. rewrite Ha, (IH Hs). reflexivity.
Qed.

Lemma ToLower_ASCII (s : string) :
  strings.isASCII s = true -> strings.ToLower lowerRun s = strings.lowerBytes s.
Proof.
  intros H. unfold strings.ToLower. rewrite H.
  destruct (strings.hasUpper s) eqn:E; [reflexivity |].
  symmetry; apply lowerBytes_noUpper; exact E.
Qed.

Lemma caseVariant_ToLower (s t : string) :
  caseVariant s t = true -> strings.ToLower lowerRun s = strings.ToLower lowerRun t.
Proof.
  intros H. pose proof (caseVariant_isASCII _ _ H) as HA.
  destruct (strings.isASCII s) eqn:E.
  - rewrite (ToLower_ASCII _ E), (ToLower_ASCII t (eq_sym HA)).
    apply caseVariant_lowerBytes; exact H.
  - unfold strings.ToLower. rewrite E, <- HA.
    apply caseVariant_MapToLower; exact H.
Qed.

Lemma lowerBytes_length (s : string) :
  String.length (strings.lowerBytes s) = String.length s.
Proof. induction s as [| a s IH]; simpl; [reflexivity | rewrite IH; reflexivity]. Qed.

Lemma lowerBytes_get (s : string) :
  forall (i : nat) (c : ascii),
    String.get i s = Some c ->
    String.get i (strings.lowerBytes s) = Some (strings.lowerByte c).
Proof.
  induction s as [| a s IH]; intros i c H; simpl in *; [discriminate |].
  destruct i as [| i]; [inversion H; reflexivity | apply IH; exact H].
Qed.

Lemma lowerByte_spec (c : ascii) :
  (strings.isUpper c = true ->
   nat_of_ascii (strings.lowerByte c) = (nat_of_ascii c + 32)%nat) /\
  (strings.isUpper c = false -> strings.lowerByte c = c).
Proof.
  unfold strings.lowerByte. split; intros H; rewrite H; [| reflexivity].
  unfold strings.isUpper in H. apply andb_true_iff in H as [_ Hhi].
  apply Nat.leb_le in Hhi. apply nat_ascii_embedding. lia.
Qed.

(** *** Runes up to U+017F *)

Lemma unicode_ToLower_idempotent (r : Z) :
  unicode.ToLower (unicode.ToLower r) = unicode.ToLower r.
Proof.
  destruct (Z_lt_le_dec r 0) as [Hneg | Hpos].
  - unfold unicode.ToLower, unicode.MaxASCII.
    replace (r <=? 127) with true by (symmetry; apply Z.leb_le; lia).
    replace (65 <=? r) with false by (symmetry; apply Z.leb_gt; lia).
    simpl. replace (r <=? 127) with true by (symmetry; apply Z.leb_le; lia).
    replace (65 <=? r) with false by (symmetry; apply Z.leb_gt; lia).
    reflexivity.
  - destruct (Z_lt_le_dec 383 r) as [Hbig | Hsmall].
    + assert (E : unicode.ToLower r = r).
      { unfold unicode.ToLower, unicode.MaxASCII.
        replace (r <=? 127) with false by (symmetry; apply Z.leb_gt; lia).
        unfold unicode.CaseRanges, unicode.to; cbn [unicode.Lo unicode.Hi].
        repeat (match goal with
                | |- context [r <=? ?k] =>
                    replace (r <=? k) with false by (symmetry; apply Z.leb_gt; lia)
                end; rewrite ?andb_false_r).
        reflexivity. }
      rewrite E. exact E.
    + assert (All : forallb (fun n => unicode.ToLower (unicode.ToLower (Z.of_nat n))
                                      =? unicode.ToLower (Z.of_nat n)) (seq 0 384) = true)
        by (vm_compute; reflexivity).
      rewrite forallb_forall in All.
      specialize (All (Z.to_nat r)). rewrite Z2Nat.id in All by lia.
      apply Z.eqb_eq, All. apply in_seq. lia.
Qed.

Lemma lowerOrSame_ToLower (a b : Z) :
  lowerOrSame a b = true -> unicode.ToLower a = unicode.ToLower b.
Proof.
  unfold lowerOrSame. intros H.
  apply orb_true_iff in H as [H | H]; [apply orb_true_iff in H as [H | H] |];
    apply Z.eqb_eq in H.
  - subst b. reflexivity.
  - subst b. symmetry. apply unicode_ToLower_idempotent.
  - subst a. apply unicode_ToLower_idempotent.
Qed.

Lemma lowerOrSame_map (rs rt : list Z) :
  List.length rs = List.length rt ->
  forallb (fun p => lowerOrSame (fst p) (snd p)) (combine rs rt) = true ->
  map unicode.ToLower rs = map unicode.ToLower rt.
Proof.
  revert rt. induction rs as [| a rs IH]; intros [| b rt] Hlen H; simpl in *;
    try discriminate; [reflexivity |].
  apply andb_true_iff in H as [Hab Hrest].
  rewrite (lowerOrSame_ToLower _ _ Hab), (IH rt); [reflexivity | lia | exact Hrest].
Qed.

Lemma lowerByte_EncodeRune (a : ascii) :
  strings.isASCIIByte a = true ->
  String (strings.lowerByte a) EmptyString =
  utf8.EncodeRune (unicode.ToLower (utf8.byteOf a)).
Proof.
  destruct a as [[|] [|] [|] [|] [|] [|] [|] [|]]; intros H;
    first [discriminate H | vm_compute; reflexivity].
Qed.

Lemma append_assoc (x y z : string) : (x ++ y) ++ z = x ++ (y ++ z).
Proof. induction x as [| a x IH]; simpl; [reflexivity | rewrite IH; reflexivity]. Qed.

Lemma append_empty (x : string) : x ++ EmptyString = x.
Proof. induction x as [| a x IH]; simpl; [reflexivity | rewrite IH; reflexivity]. Qed.

Lemma EncodeRunes_app (x y : list Z) :
  utf8.EncodeRunes (x ++ y) = utf8.EncodeRunes x ++ utf8.EncodeRunes y.
Proof.
  induction x as [| r x IH]; simpl; [reflexivity |].
  rewrite IH, append_assoc. reflexivity.
Qed.

(** [decode] reads two strings one after the other as it reads each. *)
Lemma decode_app (n : nat) :
  forall (s1 s2 : string) (x y : list Z),
    (String.length s1 <= n)%nat ->
    utf8.decode s1 = Some x ->
    utf8.decode s2 = Some y ->
    utf8.decode (s1 ++ s2) = Some (x ++ y)%list.
Proof.
  induction n as [| n IH]; intros s1 s2 x y Hlen H1 H2.
  - destruct s1; simpl in Hlen; [| lia]. simpl in H1. inversion H1. exact H2.
  - destruct s1 as [| a s1]; [simpl in H1; inversion H1; exact H2 |].
    simpl in H1 |- *. simpl in Hlen.
    destruct (strings.isASCIIByte a).
    + destruct (utf8.decode s1) as [x' |] eqn:E1; simpl in H1; [| discriminate].
      inversion H1; subst x.
      rewrite (IH s1 s2 x' y); [reflexivity | lia | exact E1 | exact H2].
    + destruct s1 as [| b s1]; [discriminate |]. simpl in Hlen |- *.
      destruct (_ && _)%bool; [| discriminate].
      destruct (utf8.decode s1) as [x' |] eqn:E1; simpl in H1; [| discriminate].
      inversion H1; subst x.
      rewrite (IH s1 s2 x' y); [reflexivity | lia | exact E1 | exact H2].
Qed.

Lemma continuation_notASCII (b : ascii) :
  (128 <=? utf8.byteOf b) = true -> strings.isASCIIByte b = false.
Proof.
  unfold utf8.byteOf, strings.isASCIIByte, strings.RuneSelf. intros H.
  apply Z.leb_le in H. apply Nat.ltb_ge. lia.
Qed.

(** On a string that [decode] reads, with a run that it reads, the loop
    of [strings.ToLower] produces the lower-cased runes of both. *)
Lemma MapToLower_decode (n : nat) :
  (forall (run : string) (runes : list Z),
      utf8.decode run = Some runes ->
      lowerRun run = utf8.EncodeRunes (map unicode.ToLower runes)) ->
  forall (s run : string) (rs rr : list Z),
    (String.length s <= n)%nat ->
    utf8.decode s = Some rs ->
    utf8.decode run = Some rr ->
    strings.MapToLower lowerRun run s =
    utf8.EncodeRunes (map unicode.ToLower rr) ++ utf8.EncodeRunes (map unicode.ToLower rs).
Proof.
  intros HL.
  assert (Flush : forall run rr, utf8.decode run = Some rr ->
                    strings.flush lowerRun run = utf8.EncodeRunes (map unicode.ToLower rr)).
  { intros run rr H. destruct run as [| c run]; simpl.
    - simpl in H. inversion H. reflexivity.
    - apply HL. exact H. }
  induction n as [| n IH]; intros s run rs rr Hlen Hs Hrun.
  - destruct s; simpl in Hlen; [| lia]. simpl in Hs. inversion Hs; subst rs.
    simpl. rewrite (Flush _ _ Hrun), append_empty. reflexivity.
  - destruct s as [| a s].
    + simpl in Hs. inversion Hs; subst rs.
      simpl. rewrite (Flush _ _ Hrun), append_empty. reflexivity.
    + simpl in Hlen. cbn [strings.MapToLower]. cbn [utf8.decode] in Hs.
      destruct (strings.isASCIIByte a) eqn:Ea.
      * destruct (utf8.decode s) as [rs' |] eqn:E1; cbn [option_map] in Hs; [| discriminate].
        inversion Hs; subst rs.
        rewrite (Flush _ _ Hrun).
        rewrite (IH s EmptyString rs' []); [| lia | exact E1 | reflexivity].
        cbn [map utf8.EncodeRunes fold_right].
        rewrite <- (lowerByte_EncodeRune a Ea). reflexivity.
      * destruct s as [| b s]; [discriminate |]. simpl in Hlen.
        destruct (_ && _)%bool eqn:Eab; [| discriminate].
        destruct (utf8.decode s) as [rs' |] eqn:E1; cbn [option_map] in Hs; [| discriminate].
        inversion Hs; subst rs.
        assert (Eb : strings.isASCIIByte b = false).
        { apply andb_true_iff in Eab as [Eab _]. apply andb_true_iff in Eab as [_ Eab].
          apply continuation_notASCII; exact Eab. }
        cbn [strings.MapToLower]. rewrite Eb.
        assert (Hrun' : utf8.decode ((run ++ String a EmptyString) ++ String b EmptyString)
                        = Some (rr ++ [utf8.twoBytes a b])%list).
        { rewrite append_assoc.
          apply decode_app with (n := String.length run); [lia | exact Hrun |].
          cbn [append utf8.decode]. rewrite Ea, Eab. reflexivity. }
        rewrite (IH s _ rs' _ ltac:(lia) E1 Hrun').
        rewrite map_app, EncodeRunes_app, append_assoc.
        cbn [map utf8.EncodeRunes fold_right]. rewrite append_empty. reflexivity.
Qed.

Lemma lowerBytes_decode (s : string) :
  forall rs : list Z,
    strings.isASCII s = true ->
    utf8.decode s = Some rs ->
    strings.lowerBytes s = utf8.EncodeRunes (map unicode.ToLower rs).
Proof.
  induction s as [| a s IH]; intros rs Ha Hs; simpl in *.
  - inversion Hs. reflexivity.
  - apply andb_true_iff in Ha as [Ha Hrest]. rewrite Ha in Hs.
    destruct (utf8.decode s) as [rs' |] eqn:E1; simpl in Hs; [| discriminate].
    inversion Hs; subst rs. cbn [map utf8.EncodeRunes fold_right].
    rewrite <- (lowerByte_EncodeRune a Ha). simpl. rewrite (IH rs' Hrest eq_refl). reflexivity.
Qed.

(** When the runs are lower-cased by the tables up to U+017F,
    [strings.ToLower] on a string that [decode] reads gives the
    lower-cased runes. *)
Lemma ToLower_decode (s : string) (rs : list Z) :
  (forall (run : string) (runes : list Z),
      utf8.decode run = Some runes ->
      lowerRun run = utf8.EncodeRunes (map unicode.ToLower runes)) ->
  utf8.decode s = Some rs ->
  strings.ToLower lowerRun s = utf8.EncodeRunes (map unicode.ToLower rs).
Proof.
  intros HL Hs. destruct (strings.isASCII s) eqn:E.
  - rewrite (ToLower_ASCII _ E). apply lowerBytes_decode; assumption.
  - unfold strings.ToLower. rewrite E.
    rewrite (@MapToLower_decode (String.length s) HL s EmptyString rs []);
      [reflexivity | lia | exact Hs | reflexivity].
Qed.

Lemma lowerVariant_ToLower (s t : string) :
  (forall (run : string) (runes : list Z),
      utf8.decode run = Some runes ->
      lowerRun run = utf8.EncodeRunes (map unicode.ToLower runes)) ->
  lowerVariant s t = true ->
  strings.ToLower lowerRun s = strings.ToLower lowerRun t.
Proof.
  intros HL H. unfold lowerVariant in H.
  destruct (utf8.decode s) as [rs |] eqn:Es; [| discriminate].
  destruct (utf8.decode t) as [rt |] eqn:Et; [| discriminate].
  apply andb_true_iff in H as [Hlen Hall]. apply Nat.eqb_eq in Hlen.
  rewrite (@ToLower_decode s rs HL Es), (@ToLower_decode t rt HL Et).
  rewrite (lowerOrSame_map _ _ Hlen Hall). reflexivity.
Qed.

(** When the arguments evaluate and the content passes the guards,
    [Eval] is [getUAST] on the lower-cased language. *)
Lemma Eval_resolves
      (u : uastFunc) (row : Row) (w : World) (m : string) (mode : Mode)
      (v : value) (bytes : list byte) (lang xpath : string) :
  exprToString (Some (Mode_ u)) row = Done (m, None) ->
  ParseMode m = (mode, None) ->
  Blob u row = Done (v, None) ->
  v <> VNil ->
  Blob_Convert v = (VBytes bytes, None) ->
  bytes <> [] ->
  uastMaxBlobSize w < 0 \/ len bytes <= uastMaxBlobSize w ->
  exprToString (Lang u) row = Done (lang, None) ->
  exprToString (XPath u) row = Done (xpath, None) ->
  uastFunc_Eval u row w =
  recover "uast: unknown error: "
          (getUAST bytes (strings.ToLower lowerRun lang) xpath mode) w.
Proof.
  intros Hm Hmode Hblob Hv Hconv Hne Hsize Hlang Hxpath.
  unfold uastFunc_Eval, recover, uastFunc_Eval_body, check, bind, lift, ret, gets.
  rewrite Hm; simpl. rewrite Hmode; simpl. rewrite Hblob; simpl.
  assert (E : (if len bytes =? 0 then true
               else ((0 <=? uastMaxBlobSize w) && (uastMaxBlobSize w <? len bytes))%bool)
              = false).
  { replace (len bytes =? 0) with false
      by (symmetry; apply Z.eqb_neq; unfold len; destruct bytes; [congruence | simpl; lia]).
    destruct Hsize as [Hneg | Hfit].
    - replace (0 <=? uastMaxBlobSize w) with false by (symmetry; apply Z.leb_gt; lia).
      reflexivity.
    - replace (uastMaxBlobSize w <? len bytes) with false
        by (symmetry; apply Z.ltb_ge; lia).
      apply andb_false_r. }
  destruct v; try congruence; rewrite Hconv; simpl;
    destruct (len bytes =? 0); try discriminate;
    rewrite E; rewrite Hlang; simpl; rewrite Hxpath; simpl; reflexivity.
Qed.

(** Evaluations whose language arguments lower-case to the same string
    are the same evaluation. *)
Lemma Eval_lang_ToLower (u1 u2 : uastFunc) (row : Row) (l1 l2 : string) :
  Mode_ u1 = Mode_ u2 ->
  Blob u1 = Blob u2 ->
  XPath u1 = XPath u2 ->
  exprToString (Lang u1) row = Done (l1, None) ->
  exprToString (Lang u2) row = Done (l2, None) ->
  strings.ToLower lowerRun l1 = strings.ToLower lowerRun l2 ->
  forall w, uastFunc_Eval u1 row w = uastFunc_Eval u2 row w.
Proof.
  intros HM HB HX H1 H2 HL w.
  unfold uastFunc_Eval, uastFunc_Eval_body.
  rewrite HM, HB, HX, H1, H2.
  unfold recover, check, bind, lift, ret; simpl. rewrite HL. reflexivity.
Qed.

(** C10 (as the code has it). [uast] and [uast_mode] lower-case the
    language with [strings.ToLower] before the key is computed and the
    parser is contacted.
    - On an ASCII string [strings.ToLower] keeps the length and replaces
      each byte by its [lowerByte]: an upper-case letter by the byte 32
      above it, any other byte by itself.
    - Two strings that differ only in the case of ASCII letters have the
      same lower-case form.
    - When the runs of non-ASCII bytes that are runes up to U+017F are
      lower-cased by the case tables, two strings of such runes that
      differ only in that letters of the one stand in their lower-case
      form in the other have the same lower-case form.
    - Two evaluations on the same row and in the same state whose
      language arguments have the same lower-case form are the same
      evaluation: same result, same state afterwards (hash object, cache,
      requests sent, diagnostics, metrics). When the evaluation gets as
      far as resolving the tree, it is [getUAST] on the lower-cased
      language, so that the key is computed from it and, on a miss, the
      request carries it. *)
Theorem language_case_insensitive :
  (forall s : string,
      strings.isASCII s = true ->
      String.length (strings.ToLower lowerRun s) = String.length s /\
      forall (i : nat) (c : ascii),
        String.get i s = Some c ->
        String.get i (strings.ToLower lowerRun s) = Some (strings.lowerByte c)) /\
  (forall c : ascii,
      (strings.isUpper c = true ->
       nat_of_ascii (strings.lowerByte c) = (nat_of_ascii c + 32)%nat) /\
      (strings.isUpper c = false -> strings.lowerByte c = c)) /\
  (forall s t : string,
      caseVariant s t = true ->
      strings.ToLower lowerRun s = strings.ToLower lowerRun t) /\
  ((forall (run : string) (runes : list Z),
       utf8.decode run = Some runes ->
       lowerRun run = utf8.EncodeRunes (map unicode.ToLower runes)) ->
   forall s t : string,
     lowerVariant s t = true ->
     strings.ToLower lowerRun s = strings.ToLower lowerRun t) /\
  forall (u1 u2 : uastFunc) (row : Row) (w : World) (l1 l2 : string),
    Mode_ u1 = Mode_ u2 ->
    Blob u1 = Blob u2 ->
    XPath u1 = XPath u2 ->
    exprToString (Lang u1) row = Done (l1, None) ->
    exprToString (Lang u2) row = Done (l2, None) ->
    strings.ToLower lowerRun l1 = strings.ToLower lowerRun l2 ->
    let lang := strings.ToLower lowerRun l1 in
    uastFunc_Eval u1 row w = uastFunc_Eval u2 row w /\
    forall (m : string) (mode : Mode) (v : value) (bytes : list byte) (xpath : string),
      exprToString (Some (Mode_ u1)) row = Done (m, None) ->
      ParseMode m = (mode, None) ->
      Blob u1 row = Done (v, None) ->
      v <> VNil ->
      Blob_Convert v = (VBytes bytes, None) ->
      bytes <> [] ->
      uastMaxBlobSize w < 0 \/ len bytes <= uastMaxBlobSize w ->
      exprToString (XPath u1) row = Done (xpath, None) ->
      uastFunc_Eval u1 row w =
      recover "uast: unknown error: " (getUAST bytes lang xpath mode) w /\
      uastFunc_Eval u2 row w =
      recover "uast: unknown error: " (getUAST bytes lang xpath mode) w /\
      forall (key : Z),
        fst (computeKey (h w) (Mode_String mode) lang bytes) = (key, None) ->
        misses w key ->
        requests (snd (uastFunc_Eval u1 row w)) =
        (requests w ++ [(bytes, lang, xpath, mode)])%list /\
        requests (snd (uastFunc_Eval u2 row w)) =
        (requests w ++ [(bytes, lang, xpath, mode)])%list.
Proof.
  split; [| split; [| split; [| split]]].
  - intros s Hs. rewrite (ToLower_ASCII _ Hs).
    split; [apply lowerBytes_length | apply lowerBytes_get].
  - apply lowerByte_spec.
  - apply caseVariant_ToLower.
  - intros HL s t. apply lowerVariant_ToLower; exact HL.
  - intros u1 u2 row w l1 l2 HM HB HX H1 H2 HL lang. fold lang in HL.
    pose proof (Eval_lang_ToLower u1 u2 row HM HB HX H1 H2 HL w) as HE.
    split; [exact HE |].
    intros m mode v bytes xpath Hm Hmode Hblob Hv Hconv Hne Hsize Hxpath.
    assert (E : uastFunc_Eval u1 row w =
                recover "uast: unknown error: " (getUAST bytes lang xpath mode) w).
    { eapply Eval_resolves; eassumption. }
    split; [exact E | split; [rewrite <- HE; exact E |]].
    intros key Hk Hmiss. rewrite <- HE, E, recover_requests.
    split; apply getUAST_miss_requests with (key := key); assumption.
Qed.

(** *** The recovery boundary *)

Lemma orecover_returns (prefix : string) (c : Outcome Result) :
  returns (orecover prefix c).
Proof. destruct c as [r | p]; eexists; reflexivity. Qed.

Lemma recover_returns (prefix : string) (c : M Result) (w : World) :
  returns (fst (recover prefix c w)).
Proof. unfold recover. destruct (c w) as [[r | p] w']; eexists; reflexivity. Qed.

(** C5. [uast], [uast_mode], [uast_xpath], [uast_extract] and
    [uast_children] never let a panic out: a panic raised while the
    argument is evaluated comes back as an error. [uast_imports] has no
    such boundary: the same panic leaves [UASTImports.Eval] as a panic. *)
Theorem imports_panic_escapes :
  forall (f : UnaryExpression) (row : Row) (r : string),
    Child f row = Panicked r ->
    UASTImports_Eval f row = Panicked r /\
    ~ returns (UASTImports_Eval f row) /\
    UASTChildren_Eval f row = Done (VNil, Some (Errorf "uast: unknown error: " r)) /\
    (forall (u : uastFunc) (row' : Row) (w : World),
        returns (fst (uastFunc_Eval u row' w))) /\
    (forall (b : BinaryExpression) (row' : Row),
        returns (UASTXPath_Eval b row') /\ returns (UASTExtract_Eval b row')) /\
    (forall (c : UnaryExpression) (row' : Row), returns (UASTChildren_Eval c row')).
Proof.
  intros f row r Hp.
  assert (E : UASTImports_Eval f row = Panicked r).
  { unfold UASTImports_Eval, ocheck, obind. rewrite Hp. reflexivity. }
  repeat split.
  - exact E.
  - rewrite E. intros [a Ha]. discriminate.
  - unfold UASTChildren_Eval, UASTChildren_Eval_body, ocheck, obind. rewrite Hp. reflexivity.
  - intros u row' w. apply recover_returns.
  - apply orecover_returns.
  - apply orecover_returns.
  - intros c row'. apply orecover_returns.
Qed.

(** *** Property extraction *)

Lemma extractLoop_single (key : string) (n : Node) (props : list value) :
  extractProperties n key = Done props ->
  extractLoop key [n] [] = Done props.
Proof.
  intros H. simpl. rewrite H; simpl.
  destruct props; reflexivity.
Qed.

Lemma UASTExtract_single
      (u : BinaryExpression) (row : Row) (v : value) (n : Node) (key : string)
      (props : list value) :
  Left u row = Done (v, None) ->
  getNodes v = (Some [n], None) ->
  exprToString (Some (Right u)) row = Done (key, None) ->
  key <> "" ->
  extractProperties n key = Done props ->
  UASTExtract_Eval u row = Done (VArray props, None).
Proof.
  intros Hl Hn Hk Hne Hp.
  unfold UASTExtract_Eval, UASTExtract_Eval_body, ocheck, obind.
  rewrite Hl; cbn [fst snd]. rewrite Hn; cbn [fst snd]. rewrite Hk; cbn [fst snd].
  apply String.eqb_neq in Hne. rewrite Hne.
  rewrite (extractLoop_single _ _ Hp). reflexivity.
Qed.

(** When [uast_extract] returns null without an error: the first argument
    decodes to no nodes, or the key is the empty string. *)
Lemma UASTExtract_null (u : BinaryExpression) (row : Row) :
  UASTExtract_Eval u row = Done (VNil, None) <->
  exists (v : value) (ns : option Array),
    Left u row = Done (v, None) /\
    getNodes v = (ns, None) /\
    (ns = None \/ exprToString (Some (Right u)) row = Done ("", None)).
Proof.
  unfold UASTExtract_Eval, UASTExtract_Eval_body, orecover, ocheck, obind.
  split.
  - destruct (Left u row) as [[v [e |]] | p] eqn:El; cbn [fst snd]; try discriminate.
    destruct (getNodes v) as [ns [e |]] eqn:En; cbn [fst snd]; try discriminate.
    destruct ns as [ns |].
    + destruct (exprToString (Some (Right u)) row) as [[k [e |]] | p] eqn:Ek;
        cbn [fst snd]; try discriminate.
      destruct (String.eqb k "") eqn:E0.
      * apply String.eqb_eq in E0. subst k. intros _.
        exists v, (Some ns). split; [reflexivity | split; [exact En | right; reflexivity]].
      * destruct (extractLoop k ns []); discriminate.
    + intros _. exists v, None. split; [reflexivity | split; [exact En | left; reflexivity]].
  - intros (v & ns & Hl & Hn & Hcase).
    rewrite Hl; cbn [fst snd]. rewrite Hn; cbn [fst snd].
    destruct ns as [ns |]; [| reflexivity].
    destruct Hcase as [Hnone | Hk]; [discriminate |].
    rewrite Hk; cbn [fst snd]. reflexivity.
Qed.

(** C6 (as the code has it). For an object node [o] and a key, the strings
    [uast_extract] returns are these: for [@type] and [@token] the
    accessor's string, left out when it is empty; for [@role] the names
    of the roles in order; for [@pos] the JSON encoding of the positions
    as one string, nothing when the node has none. A key the node does
    not have, or one that maps to a null or to an object, gives the empty
    sequence, which is not null, and no error. The empty key gives null,
    and null without an error is returned exactly when the first argument
    decodes to no nodes or the key is the empty string. *)
Theorem extract_properties :
  forall (u : BinaryExpression) (row : Row) (v : value) (o : Object) (key : string),
    Left u row = Done (v, None) ->
    getNodes v = (Some [NObject o], None) ->
    exprToString (Some (Right u)) row = Done (key, None) ->
    (key = "@type" ->
     UASTExtract_Eval u row =
     Done (VArray (if String.eqb (TypeOf o) "" then [] else [VText (TypeOf o)]), None)) /\
    (key = "@token" ->
     UASTExtract_Eval u row =
     Done (VArray (if String.eqb (TokenOf o) "" then [] else [VText (TokenOf o)]), None)) /\
    (key = "@role" ->
     UASTExtract_Eval u row =
     Done (VArray (map (fun r => VText (Role_String r)) (RolesOf o)), None)) /\
    (key = "@pos" ->
     (PositionsOf o = None -> UASTExtract_Eval u row = Done (VArray [], None)) /\
     (forall (p : Positions) (data : string),
         PositionsOf o = Some p ->
         json_Marshal p = (data, None) ->
         data <> "" ->
         UASTExtract_Eval u row = Done (VArray [VText data], None))) /\
    (isCommonProp key = false ->
     key <> "" ->
     lookup key o = None \/ lookup key o = Some NNil \/
     (exists fields, lookup key o = Some (NObject fields)) ->
     UASTExtract_Eval u row = Done (VArray [], None) /\
     UASTExtract_Eval u row <> Done (VNil, None)) /\
    (key = "" -> UASTExtract_Eval u row = Done (VNil, None)) /\
    (key <> "" -> UASTExtract_Eval u row <> Done (VNil, None)) /\
    (forall (u' : BinaryExpression) (row' : Row),
       UASTExtract_Eval u' row' = Done (VNil, None) <->
       exists (v' : value) (ns : option Array),
         Left u' row' = Done (v', None) /\
         getNodes v' = (ns, None) /\
         (ns = None \/ exprToString (Some (Right u')) row' = Done ("", None))).
Proof.
  intros u row v o key Hl Hn Hk.
  assert (Common : forall props,
             isCommonProp key = true ->
             extractCommonProp o key = props ->
             UASTExtract_Eval u row = Done (VArray props, None)).
  { intros props Hc Hp.
    apply (UASTExtract_single u row Hl Hn Hk).
    - intros ->. discriminate.
    - simpl. rewrite Hc, Hp. reflexivity. }
  split; [| split; [| split; [| split; [| split; [| split; [| split]]]]]].
  - intros ->. apply Common; reflexivity.
  - intros ->. apply Common; reflexivity.
  - intros ->. apply Common; reflexivity.
  - intros ->. split.
    + intros Hnone. apply Common; [reflexivity |].
      unfold extractCommonProp, uast.KeyType, uast.KeyToken, uast.KeyRoles, uast.KeyPos; simpl.
      rewrite Hnone. reflexivity.
    + intros p data Hsome Hdata Hne. apply Common; [reflexivity |].
      unfold extractCommonProp, posToString, uast.KeyType, uast.KeyToken, uast.KeyRoles,
        uast.KeyPos; simpl.
      rewrite Hsome, Hdata.
      apply String.eqb_neq in Hne. rewrite Hne. reflexivity.
  - intros Hc Hne Hshape.
    assert (E : UASTExtract_Eval u row = Done (VArray [], None)).
    { apply (UASTExtract_single u row Hl Hn Hk); [assumption |].
      simpl. rewrite Hc. unfold extractAnyProp.
      destruct Hshape as [-> | [-> | [fields ->]]]; reflexivity. }
    split; [exact E | rewrite E; discriminate].
  - intros ->. apply UASTExtract_null.
    exists v, (Some [NObject o]). split; [exact Hl | split; [exact Hn | right; exact Hk]].
  - intros Hne Hnull. apply UASTExtract_null in Hnull.
    destruct Hnull as (v' & ns & Hl' & Hn' & [Hnone | Hk']).
    + rewrite Hl in Hl'. inversion Hl'; subst v'.
      rewrite Hn in Hn'. inversion Hn'; subst ns. discriminate.
    + rewrite Hk in Hk'. inversion Hk'. contradiction.
  - intros u' row'. apply UASTExtract_null.
Qed.

(** *** Children *)

Lemma arrayLoop_nullFree (elems : Array) :
  forallb (fun n => negb (isNil n)) elems = true ->
  forall children,
    arrayLoop elems children = Done (children ++ filter isObject elems)%list.
Proof.
  induction elems as [| n elems IH]; intros H children; simpl in *.
  - rewrite app_nil_r. reflexivity.
  - apply andb_true_iff in H as [Hn Hrest].
    destruct n; try discriminate; simpl; rewrite (IH Hrest); try reflexivity.
    rewrite <- app_assoc. reflexivity.
Qed.

Lemma lookup_In (o : Object) (k : string) (v : Node) :
  NoDup (Keys o) -> In (k, v) o -> lookup k o = Some v.
Proof.
  unfold Keys. induction o as [| [k' v'] o IH]; intros Hnd Hin; simpl in *.
  - contradiction.
  - inversion Hnd as [| ? ? Hnotin Hnd']; subst.
    destruct Hin as [E | Hin].
    + inversion E; subst. rewrite String.eqb_refl. reflexivity.
    + destruct (String.eqb k' k) eqn:Ek.
      * apply String.eqb_eq in Ek. subst k'.
        exfalso. apply Hnotin. apply (in_map fst) in Hin. exact Hin.
      * apply IH; assumption.
Qed.

Lemma keysLoop_nullFree (node : Object) (fields : Object) :
  (forall k v, In (k, v) fields -> lookup k node = Some v) ->
  nullFree fields = true ->
  forall children,
    keysLoop node (Keys fields) children = Done (children ++ childrenOf fields)%list.
Proof.
  unfold Keys, nullFree, childrenOf.
  induction fields as [| [k v] fields IH]; intros Hlk Hnf children; simpl in *.
  - rewrite app_nil_r. reflexivity.
  - apply andb_true_iff in Hnf as [Hkv Hrest].
    assert (IH' : forall children,
               keysLoop node (map fst fields) children =
               Done (children ++ flat_map
                       (fun kv => if isCommonProp (fst kv) then [] else collect (snd kv))
                       fields)%list).
    { apply IH; [intros k0 v0 Hin; apply Hlk; right; exact Hin | exact Hrest]. }
    destruct (isCommonProp k) eqn:Ec; simpl; [apply IH' |].
    rewrite (Hlk k v (or_introl eq_refl)).
    simpl in Hkv.
    destruct v; try discriminate; simpl; rewrite ?IH'; try reflexivity.
    + rewrite (arrayLoop_nullFree _ Hkv); simpl. rewrite IH', <- app_assoc. reflexivity.
    + rewrite <- app_assoc. reflexivity.
Qed.

Lemma getChildren_nullFree (o : Object) :
  NoDup (Keys o) -> nullFree o = true -> getChildren o = Done (childrenOf o).
Proof.
  intros Hnd Hnf. unfold getChildren.
  rewrite (@keysLoop_nullFree o o); [reflexivity | | exact Hnf].
  intros k v Hin. apply lookup_In; assumption.
Qed.

(** Away from nulls [flattenChildren] computes the children the
    specification describes, in its order. *)
Lemma flattenChildren_nullFree (arr : Array) :
  (forall o, In (NObject o) arr -> NoDup (Keys o) /\ nullFree o = true) ->
  flattenChildren arr = Done (childrenOfAll arr).
Proof.
  unfold flattenChildren, childrenOfAll.
  assert (G : forall children,
             (forall o, In (NObject o) arr -> NoDup (Keys o) /\ nullFree o = true) ->
             flattenLoop arr children =
             Done (children ++
                   flat_map (fun n => match n with NObject o => childrenOf o | _ => [] end)
                            arr)%list).
  { induction arr as [| n arr IH]; intros children Hwf; simpl.
    - rewrite app_nil_r. reflexivity.
    - assert (Hrest : forall o, In (NObject o) arr -> NoDup (Keys o) /\ nullFree o = true)
        by (intros o Hin; apply Hwf; right; exact Hin).
      destruct n; try (apply IH; exact Hrest).
      destruct (Hwf fields (or_introl eq_refl)) as [Hnd Hnf].
      rewrite (@getChildren_nullFree fields Hnd Hnf); simpl.
      destruct (childrenOf fields) eqn:Ech; simpl.
      + apply IH; exact Hrest.
      + rewrite (IH _ Hrest), <- app_assoc. reflexivity. }
  intros Hwf. apply (G [] Hwf).
Qed.

Lemma arrayLoop_null (elems : Array) :
  forallb (fun n => negb (isNil n)) elems = false ->
  forall children, arrayLoop elems children = Panicked nilDeref.
Proof.
  induction elems as [| n elems IH]; intros H children; simpl in *.
  - discriminate.
  - destruct n; simpl in *; try reflexivity; apply IH; exact H.
Qed.

Lemma keysLoop_null (node : Object) (fields : Object) :
  (forall k v, In (k, v) fields -> lookup k node = Some v) ->
  nullFree fields = false ->
  forall children, keysLoop node (Keys fields) children = Panicked nilDeref.
Proof.
  unfold Keys, nullFree.
  induction fields as [| [k v] fields IH]; intros Hlk Hnf children; simpl in *.
  - discriminate.
  - assert (IH' : forallb
                    (fun kv =>
                       (isCommonProp (fst kv)
                        || match snd kv with
                           | NNil => false
                           | NArray elems => forallb (fun n => negb (isNil n)) elems
                           | _ => true
                           end)%bool) fields = false ->
                  forall children,
                    keysLoop node (map fst fields) children = Panicked nilDeref).
    { intros Hrest. apply IH; [intros k0 v0 Hin; apply Hlk; right; exact Hin | exact Hrest]. }
    destruct (isCommonProp k) eqn:Ec; simpl in *; [apply IH'; exact Hnf |].
    rewrite (Hlk k v (or_introl eq_refl)).
    destruct v; simpl in *; try reflexivity; try (apply IH'; exact Hnf).
    destruct (forallb (fun n => negb (isNil n)) elems) eqn:Ea; simpl in Hnf.
    + rewrite (arrayLoop_nullFree _ Ea); simpl. apply IH'; exact Hnf.
    + rewrite (arrayLoop_null _ Ea). reflexivity.
Qed.

(** C7. An object with a null in a field outside the common keys, or with a
    null element in an array held by such a field, makes [getChildren] panic
    on the call of [Kind] instead of dropping the null: [flattenChildren]
    panics with it and [uast_children] returns an error, where the
    specification has the children of the other fields and elements
    ([childrenOf]). *)
Theorem children_of_null_panics :
  forall (o : Object) (u : UnaryExpression) (row : Row) (v : value) (ns : Array),
    NoDup (Keys o) ->
    nullFree o = false ->
    Child u row = Done (v, None) ->
    getNodes v = (Some (NObject o :: ns), None) ->
    getChildren o = Panicked nilDeref /\
    flattenChildren (NObject o :: ns) = Panicked nilDeref /\
    UASTChildren_Eval u row =
    Done (VNil, Some (Errorf "uast: unknown error: " nilDeref)).
Proof.
  intros o u row v ns Hnd Hnf Hchild Hnodes.
  assert (E1 : getChildren o = Panicked nilDeref).
  { unfold getChildren. apply keysLoop_null; [| exact Hnf].
    intros k v0 Hin. apply lookup_In; assumption. }
  assert (E2 : flattenChildren (NObject o :: ns) = Panicked nilDeref).
  { unfold flattenChildren. cbn [flattenLoop]. rewrite E1. reflexivity. }
  assert (E3 : UASTChildren_Eval u row =
               Done (VNil, Some (Errorf "uast: unknown error: " nilDeref))).
  { unfold UASTChildren_Eval, UASTChildren_Eval_body, ocheck, obind.
    rewrite Hchild; cbn [fst snd]. rewrite Hnodes; cbn [fst snd]. rewrite E2. reflexivity. }
  split; [exact E1 | split; [exact E2 | exact E3]].
Qed.

End Proofs.

(** ** The statements on the sample runs *)

Lemma lru_GetMissKeeps : GetMissKeeps lruCache.
Proof.
  intros c c' k v e H. simpl in H. unfold lru.Get in H.
  destruct (lru.find k (lru.entries c)); inversion H; reflexivity.
Qed.

(** One evaluation after the start of the process: the capacity is the
    configured 250, one cache has been constructed and it is in place. *)
Lemma cache_capacity_and_lifetime_witness :
  let w0 := boot sample.env4 fnv.offset64 in
  let w1 := snd (uastFunc_Eval sample.byCol2 sample.small w0) in
  steps w0 w1 /\ steps w1 w1 /\
  uastCacheSize w0 = 250 /\ uastCacheSize w1 = 250 /\
  (constructed w1 <= 1)%nat /\ uastCache w0 = None /\ uastCache w1 <> None.
Proof.
  intros w0 w1.
  assert (S1 : steps w0 w1).
  { eapply steps_more; [apply steps_refl | apply step_Eval]. }
  assert (S2 : steps w1 w1) by apply steps_refl.
  destruct (@cache_capacity_and_lifetime fnv1a lruCache demoHost
              sample.env4 fnv.offset64 w1 w1 S1 S2)
    as (_ & Hconf & _ & Hnone & _ & _ & Hsame & Hone & _ & Hstay).
  assert (Hin : uastCache w1 <> None) by (vm_compute; discriminate).
  assert (H250 : uastCacheSize w0 = 250) by (apply Hconf; vm_compute; reflexivity).
  split; [exact S1 | split; [exact S2 | split; [exact H250 |]]].
  split; [rewrite Hsame; exact H250 | split; [exact Hone | split; [exact Hnone | exact Hin]]].
Defined.

(** Five bytes against a ceiling of four, and against no ceiling. *)
Lemma oversize_guard_witness :
  fst (uastFunc_Eval sample.byCol2 sample.big sample.w4) = Done (VNil, None) /\
  requests (snd (uastFunc_Eval sample.byCol2 sample.big sample.w4)) = [] /\
  requests (snd (uastFunc_Eval sample.byCol2 sample.big sample.wOff)) =
  [(sample.abcde, "go", "", demo.Semantic)].
Proof.
  destruct (@oversize_guard fnv1a lruCache demoHost
              sample.byCol2 sample.big sample.w4
              "semantic" demo.Semantic (VBytes sample.abcde) sample.abcde
              eq_refl eq_refl eq_refl ltac:(discriminate) eq_refl)
    as (Hbig & _ & _).
  destruct (@oversize_guard fnv1a lruCache demoHost
              sample.byCol2 sample.big sample.wOff
              "semantic" demo.Semantic (VBytes sample.abcde) sample.abcde
              eq_refl eq_refl eq_refl ltac:(discriminate) eq_refl)
    as (_ & Hoff & _).
  assert (In4 : 0 <= uastMaxBlobSize sample.w4 < len sample.abcde) by (vm_compute; split; congruence).
  destruct (Hbig In4) as (E & _ & R).
  split; [rewrite E; reflexivity | split; [rewrite R; reflexivity |]].
  assert (Neg : uastMaxBlobSize sample.wOff < 0) by (vm_compute; reflexivity).
  destruct (Hoff Neg ltac:(discriminate) "Go" "" eq_refl eq_refl) as (_ & Hreq).
  rewrite (Hreq (fst (fst (computeKey (h sample.wOff) "semantic" "go" sample.abcde)))).
  - reflexivity.
  - vm_compute; reflexivity.
  - vm_compute; discriminate.
Defined.

(** C3, as stated, fails when the mode does not parse: with five bytes
    against a ceiling of four and the mode [bogus], the evaluation
    returns the error of the mode and logs no warning. And under a
    negative ceiling not all content is sent to the parser: content that
    has been resolved before is answered from the cache, and empty
    content is answered with null. *)
Lemma oversize_with_unknown_mode_is_an_error :
  let row := [VText "bogus"; VBytes sample.abcde; VText "Go"] in
  let w1 := snd (uastFunc_Eval sample.byCol2 sample.big sample.wOff) in
  let empty := [VText "semantic"; VBytes []; VText "Go"] in
  (uastMaxBlobSize sample.w4 = 4 /\ len sample.abcde = 5 /\
   ParseMode "bogus" = (demo.Native, Some (mkError KOther "unknown mode: bogus")) /\
   fst (uastFunc_Eval sample.byCol2 row sample.w4) =
   Done (VNil, Some (mkError KOther "unknown mode: bogus")) /\
   fst (uastFunc_Eval sample.byCol2 row sample.w4) <> Done (VNil, None) /\
   diagnostics (snd (uastFunc_Eval sample.byCol2 row sample.w4)) = [] /\
   requests (snd (uastFunc_Eval sample.byCol2 row sample.w4)) = []) /\
  (uastMaxBlobSize w1 = -1 /\
   requests w1 = [(sample.abcde, "go", "", demo.Semantic)] /\
   fst (uastFunc_Eval sample.byCol2 sample.big w1) = Done (VBytes [x01], None) /\
   requests (snd (uastFunc_Eval sample.byCol2 sample.big w1)) = requests w1) /\
  (uastMaxBlobSize sample.wOff = -1 /\
   fst (uastFunc_Eval sample.byCol2 empty sample.wOff) = Done (VNil, None) /\
   requests (snd (uastFunc_Eval sample.byCol2 empty sample.wOff)) = []).
Proof.
  intros row w1 empty.
  split; [| split].
  - split; [reflexivity | split; [reflexivity | split; [reflexivity |]]].
    split; [vm_compute; reflexivity | split; [vm_compute; discriminate |]].
    split; vm_compute; reflexivity.
  - split; [vm_compute; reflexivity | split; [vm_compute; reflexivity |]].
    split; vm_compute; reflexivity.
  - split; [vm_compute; reflexivity | split; vm_compute; reflexivity].
Qed.

(** Content with a syntax error, resolved twice. *)
Lemma soft_failure_not_cached_witness :
  let w1 := snd (getUAST sample.broken "go" "" demo.Semantic sample.w4) in
  fst (getUAST sample.broken "go" "" demo.Semantic sample.w4) = Done (VNil, None) /\
  uastCache w1 = Some (lru.New 250) /\
  requests (snd (getUAST sample.broken "go" "" demo.Semantic w1)) =
  [(sample.broken, "go", "", demo.Semantic); (sample.broken, "go", "", demo.Semantic)].
Proof.
  intros w1.
  destruct (@soft_failure_not_cached fnv1a lruCache demoHost lru_GetMissKeeps
              sample.broken "go" "" "" demo.Semantic sample.w4
              (fst (fst (computeKey (h sample.w4) "semantic" "go" sample.broken)))
              NNil (mkError KSyntax "syntax error"))
    as (Hnull & Hcache & _ & _ & Hagain).
  - vm_compute; reflexivity.
  - vm_compute; discriminate.
  - reflexivity.
  - reflexivity.
  - split; [exact Hnull | split; [unfold w1; rewrite Hcache; reflexivity | exact Hagain]].
Defined.

(** A malformed query, given to [uast] and to [uast_xpath]. *)
Lemma xpath_error_handling_witness :
  fst (getUAST sample.ab "go" "][" demo.Semantic sample.w4) = Done (VNil, None) /\
  UASTXPath_Eval sample.binary [VBytes [x01]; VText "]["] =
  Done (VNil, Some (mkError KOther "invalid query: ][")).
Proof.
  destruct (@xpath_error_handling fnv1a lruCache demoHost) as [Huast Hxpath].
  split.
  - apply (Huast sample.ab "go" "][" demo.Semantic sample.w4
                 (fst (fst (computeKey (h sample.w4) "semantic" "go" sample.ab)))
                 (demo.file "go") [] (mkError KOther "invalid query: ][")).
    + vm_compute; reflexivity.
    + right. exists NNil, lru.ErrKeyNotFound, (lru.New 250).
      eexists. split; [vm_compute; reflexivity | split; reflexivity].
    + discriminate.
    + reflexivity.
  - apply (Hxpath sample.binary [VBytes [x01]; VText "]["] "][" (VBytes [x01])
                  [demo.file "go"] (mkError KOther "invalid query: ][")).
    + reflexivity.
    + discriminate.
    + reflexivity.
    + reflexivity.
    + apply firstError_here with (arr := []). reflexivity.
Defined.

(** C1, as stated, fails for [uast_xpath]: the evaluator rejects the query
    [][] on the node, and the error is returned to the caller. *)
Lemma uast_xpath_returns_the_error :
  getNodes (VBytes [x01]) = (Some [demo.file "go"], None) /\
  applyXpath (demo.file "go") "][" = ([], Some (mkError KOther "invalid query: ][")) /\
  UASTXPath_Eval sample.binary [VBytes [x01]; VText "]["] =
  Done (VNil, Some (mkError KOther "invalid query: ][")) /\
  UASTXPath_Eval sample.binary [VBytes [x01]; VText "]["] <> Done (VNil, None).
Proof.
  split; [reflexivity | split; [reflexivity | split; [reflexivity |]]].
  vm_compute. discriminate.
Qed.

(** The empty query, given to [uast] and to [uast_xpath]. *)
Lemma empty_query_witness :
  fst (getUAST sample.ab "go" "" demo.Semantic sample.w4) = Done (VBytes [x01], None) /\
  UASTXPath_Eval sample.binary [VBytes [x01]; VText ""] = Done (VNil, None).
Proof.
  destruct (@empty_query fnv1a lruCache demoHost) as [Huast Hxpath].
  split.
  - apply (Huast sample.ab "go" demo.Semantic sample.w4
                 (fst (fst (computeKey (h sample.w4) "semantic" "go" sample.ab)))
                 (demo.file "go")).
    + vm_compute; reflexivity.
    + right. exists NNil, lru.ErrKeyNotFound, (lru.New 250).
      eexists. split; [vm_compute; reflexivity | split; reflexivity].
  - apply (Hxpath sample.binary [VBytes [x01]; VText ""]). reflexivity.
Defined.

(** C4, as stated, fails for [uast_xpath]: on the serialised file node and
    the empty query it returns null, not the node wrapped in a sequence
    (whose serialisation is the input). *)
Lemma uast_xpath_empty_query_is_null :
  getNodes (VBytes [x01]) = (Some [demo.file "go"], None) /\
  marshalNodes [demo.file "go"] = (VBytes [x01], None) /\
  UASTXPath_Eval sample.binary [VBytes [x01]; VText ""] = Done (VNil, None) /\
  UASTXPath_Eval sample.binary [VBytes [x01]; VText ""] <> Done (VBytes [x01], None).
Proof.
  split; [reflexivity | split; [reflexivity | split; [reflexivity |]]].
  vm_compute. discriminate.
Qed.

(** [Go] and [gO] as the language of the same content, and, with the case
    tables up to U+017F, [G] with the capital E with acute and [g] with
    the small one. *)
Lemma language_case_insensitive_witness :
  (caseVariant "Go" "gO" = true /\
   strings.ToLower lowerRun "Go" = "go" /\
   strings.ToLower lowerRun "gO" = "go" /\
   uastFunc_Eval sample.byCol2 sample.small sample.w4 =
   uastFunc_Eval sample.byCol3 sample.small sample.w4 /\
   requests (snd (uastFunc_Eval sample.byCol2 sample.small sample.w4)) =
   [(sample.ab, "go", "", demo.Semantic)] /\
   requests (snd (uastFunc_Eval sample.byCol3 sample.small sample.w4)) =
   [(sample.ab, "go", "", demo.Semantic)]) /\
  (lowerVariant latin.capitalGE latin.smallGE = true /\
   caseVariant latin.capitalGE latin.smallGE = false /\
   strings.ToLower (@lowerRun latin.host) latin.capitalGE = latin.smallGE /\
   strings.ToLower (@lowerRun latin.host) latin.smallGE = latin.smallGE /\
   @uastFunc_Eval fnv1a lruCache latin.host latin.byCol2 latin.rowGE latin.w4 =
   @uastFunc_Eval fnv1a lruCache latin.host latin.byCol3 latin.rowGE latin.w4 /\
   requests (snd (@uastFunc_Eval fnv1a lruCache latin.host latin.byCol2 latin.rowGE latin.w4)) =
   [(sample.ab, latin.smallGE, "", demo.Semantic)] /\
   requests (snd (@uastFunc_Eval fnv1a lruCache latin.host latin.byCol3 latin.rowGE latin.w4)) =
   [(sample.ab, latin.smallGE, "", demo.Semantic)]).
Proof.
  split.
  - destruct (@language_case_insensitive fnv1a lruCache demoHost)
      as (Hascii & _ & Hvariant & _ & Hsame).
    pose proof (Hvariant "Go" "gO" eq_refl) as HL.
    destruct (Hsame sample.byCol2 sample.byCol3 sample.small sample.w4 "Go" "gO"
                    eq_refl eq_refl eq_refl eq_refl eq_refl HL)
      as (Heq & Hreach).
    destruct (Hreach "semantic" demo.Semantic (VBytes sample.ab) sample.ab ""
                     eq_refl eq_refl eq_refl ltac:(discriminate) eq_refl
                     ltac:(discriminate) ltac:(right; vm_compute; discriminate) eq_refl)
      as (_ & _ & Hreq).
    destruct (Hreq (fst (fst (computeKey (h sample.w4) "semantic" "go" sample.ab))))
      as (R1 & R2); [vm_compute; reflexivity | vm_compute; discriminate |].
    split; [reflexivity | split; [| split; [| split; [exact Heq | split; [exact R1 | exact R2]]]]].
    + destruct (Hascii "Go" eq_refl) as (_ & Hget).
      pose proof (Hget 0%nat "G"%char eq_refl) as G0.
      pose proof (Hget 1%nat "o"%char eq_refl) as G1.
      reflexivity.
    + rewrite <- HL. reflexivity.
  - destruct (@language_case_insensitive fnv1a lruCache latin.host)
      as (_ & _ & _ & Hlower & Hsame).
    assert (Tables : forall (run : string) (runes : list Z),
               utf8.decode run = Some runes ->
               @lowerRun latin.host run = utf8.EncodeRunes (map unicode.ToLower runes)).
    { intros run runes Hrun. simpl. unfold utf8.Map. rewrite Hrun. reflexivity. }
    pose proof (Hlower Tables latin.capitalGE latin.smallGE eq_refl) as HL.
    destruct (Hsame latin.byCol2 latin.byCol3 latin.rowGE latin.w4
                    latin.capitalGE latin.smallGE
                    eq_refl eq_refl eq_refl eq_refl eq_refl HL)
      as (Heq & Hreach).
    destruct (Hreach "semantic" demo.Semantic (VBytes sample.ab) sample.ab ""
                     eq_refl eq_refl eq_refl ltac:(discriminate) eq_refl
                     ltac:(discriminate) ltac:(right; vm_compute; discriminate) eq_refl)
      as (_ & _ & Hreq).
    destruct (Hreq (fst (fst (@computeKey fnv1a (h latin.w4) "semantic" latin.smallGE sample.ab))))
      as (R1 & R2); [vm_compute; reflexivity | vm_compute; discriminate |].
    split; [reflexivity | split; [reflexivity | split; [| split; [reflexivity |]]]].
    + rewrite HL. reflexivity.
    + split; [exact Heq | split; [exact R1 | exact R2]].
Defined.

(** C10, as stated, fails beyond the ASCII letters. U+017F is the small
    long s: [unicode.ToUpper] makes S of it, so that [SQL] and the string
    with U+017F before [ql] differ only in letter case, and
    [strings.ToLower] leaves it as it is, while it makes [s] of S. The two
    evaluations compute different keys and send different requests. *)
Lemma long_s_gets_another_key :
  caseVariantRunes latin.capitalSQL latin.longSQL = true /\
  utf8.decode latin.capitalSQL = Some [83; 81; 76] /\
  utf8.decode latin.longSQL = Some [383; 113; 108] /\
  unicode.ToUpper 383 = 83 /\
  unicode.ToLower 383 = 383 /\
  unicode.ToLower 83 = 115 /\
  strings.ToLower (@lowerRun latin.host) latin.capitalSQL = "sql" /\
  strings.ToLower (@lowerRun latin.host) latin.longSQL = latin.longSQL /\
  fst (@computeKey fnv1a (h latin.w4) "semantic" "sql" sample.ab) =
  (214609106502188116, None) /\
  fst (@computeKey fnv1a (h latin.w4) "semantic" latin.longSQL sample.ab) =
  (6474995576825179951, None) /\
  requests (snd (@uastFunc_Eval fnv1a lruCache latin.host latin.byCol2 latin.rowSQL latin.w4)) =
  [(sample.ab, "sql", "", demo.Semantic)] /\
  requests (snd (@uastFunc_Eval fnv1a lruCache latin.host latin.byCol3 latin.rowSQL latin.w4)) =
  [(sample.ab, latin.longSQL, "", demo.Semantic)] /\
  @uastFunc_Eval fnv1a lruCache latin.host latin.byCol2 latin.rowSQL latin.w4 <>
  @uastFunc_Eval fnv1a lruCache latin.host latin.byCol3 latin.rowSQL latin.w4.
Proof.
  repeat (split; [vm_compute; reflexivity |]).
  intros H. apply (f_equal (fun x => requests (snd x))) in H.
  vm_compute in H. discriminate H.
Qed.

(** An argument whose evaluation panics. *)
Lemma imports_panic_escapes_witness :
  UASTImports_Eval sample.unaryFaulty [] = Panicked "index out of range" /\
  UASTChildren_Eval sample.unaryFaulty [] =
  Done (VNil, Some (mkError KOther "uast: unknown error: index out of range")).
Proof.
  destruct (@imports_panic_escapes fnv1a lruCache demoHost sample.unaryFaulty [] "index out of range" eq_refl)
    as (Himports & _ & Hchildren & _).
  split; [exact Himports | exact Hchildren].
Defined.

(** The common keys of one identifier, a key it does not have, the empty
    key and a null first argument. *)
Lemma extract_properties_witness :
  UASTExtract_Eval sample.binary [VBytes [x04]; VText "@type"] =
  Done (VArray [VText "Identifier"], None) /\
  UASTExtract_Eval sample.binary [VBytes [x04]; VText "@role"] =
  Done (VArray [VText "Expression"; VText "Identifier"], None) /\
  UASTExtract_Eval sample.binary [VBytes [x04]; VText "@pos"] =
  Done (VArray [VText "start,end"], None) /\
  UASTExtract_Eval sample.binary [VBytes [x04]; VText "missing"] = Done (VArray [], None) /\
  UASTExtract_Eval sample.binary [VBytes [x04]; VText ""] = Done (VNil, None) /\
  UASTExtract_Eval sample.binary [VBytes [x04]; VText "@token"] <> Done (VNil, None) /\
  UASTExtract_Eval sample.binary [VNil; VText "@type"] = Done (VNil, None).
Proof.
  pose (W := fun key =>
              @extract_properties demoHost sample.binary [VBytes [x04]; VText key]
                (VBytes [x04]) _ key eq_refl eq_refl eq_refl).
  split; [| split; [| split; [| split; [| split; [| split]]]]].
  - destruct (W "@type") as (H & _). exact (H eq_refl).
  - destruct (W "@role") as (_ & _ & H & _). exact (H eq_refl).
  - destruct (W "@pos") as (_ & _ & _ & H & _). destruct (H eq_refl) as [_ Hsome].
    apply (Hsome [("start", NInt 1); ("end", NInt 2)] "start,end");
      [reflexivity | reflexivity | discriminate].
  - destruct (W "missing") as (_ & _ & _ & _ & H & _).
    apply H; [reflexivity | discriminate | left; reflexivity].
  - destruct (W "") as (_ & _ & _ & _ & _ & H & _). exact (H eq_refl).
  - destruct (W "@token") as (_ & _ & _ & _ & _ & _ & H & _). apply H. discriminate.
  - destruct (W "@type") as (_ & _ & _ & _ & _ & _ & _ & H).
    apply (H sample.binary [VNil; VText "@type"]).
    exists VNil, None. split; [reflexivity | split; [reflexivity | left; reflexivity]].
Defined.

(** C6, as stated, fails on a key the node does not have: the result is the
    empty sequence and not null. *)
Lemma uast_extract_absent_key_is_not_null :
  getNodes (VBytes [x04]) = (Some [demo.ident "x"], None) /\
  (forall o, demo.ident "x" = NObject o -> lookup "missing" o = None) /\
  UASTExtract_Eval sample.binary [VBytes [x04]; VText "missing"] = Done (VArray [], None) /\
  UASTExtract_Eval sample.binary [VBytes [x04]; VText "missing"] <> Done (VNil, None).
Proof.
  split; [reflexivity | split; [| split; [reflexivity |]]].
  - intros o H. inversion H. reflexivity.
  - vm_compute. discriminate.
Qed.

(** An object whose field [value] is null. *)
Lemma children_of_null_panics_witness :
  getNodes (VBytes [x03]) = (Some [demo.withNull], None) /\
  getChildren [("value", NNil); ("@type", NString "Return")] = Panicked nilDeref /\
  UASTChildren_Eval sample.unary [VBytes [x03]] =
  Done (VNil, Some (Errorf "uast: unknown error: " nilDeref)) /\
  childrenOfAll [demo.withNull] = [].
Proof.
  destruct (@children_of_null_panics demoHost
              [("value", NNil); ("@type", NString "Return")]
              sample.unary [VBytes [x03]] (VBytes [x03]) [])
    as (Hget & _ & Heval).
  - repeat constructor; simpl; intuition discriminate.
  - reflexivity.
  - reflexivity.
  - reflexivity.
  - split; [reflexivity | split; [exact Hget | split; [exact Heval | reflexivity]]].
Defined.

(** ** Further properties of uast.go *)

Section Trees.

Context {HO : Host}.

(** The number of children [uastFunc.WithChildren] expects. *)
Lemma uastFunc_Children_length (u : uastFunc) :
  List.length (uastFunc_Children u) =
  (2 + (if isSome (Lang u) then 1 else 0) + (if isSome (XPath u) then 1 else 0))%nat.
Proof.
  unfold uastFunc_Children. destruct (Lang u), (XPath u); reflexivity.
Qed.

(** X1. [uastFunc.WithChildren] and [uastFunc.Children] are inverse to each
    other: rebuilding a function from its own children gives the function
    back, and the children of a rebuilt function are the children it was
    given. A list of the wrong length is refused with an error, and no
    list makes the indexing panic. *)
Theorem uastFunc_WithChildren_Children :
  forall (u : uastFunc),
    uastFunc_WithChildren u (uastFunc_Children u) = Done (Some u, None) /\
    forall (children : list Expression),
      (List.length children <> List.length (uastFunc_Children u) ->
       exists e, uastFunc_WithChildren u children = Done (None, Some e)) /\
      (List.length children = List.length (uastFunc_Children u) ->
       exists u',
         uastFunc_WithChildren u children = Done (Some u', None) /\
         uastFunc_Children u' = children).
Proof.
  intros [mode blob lang xpath]. split.
  - destruct lang, xpath; reflexivity.
  - intros children. rewrite uastFunc_Children_length. simpl. split.
    + intros Hlen. unfold uastFunc_WithChildren; simpl.
      destruct lang, xpath; simpl in *;
        (destruct (Nat.eqb (List.length children) _) eqn:E;
         [apply Nat.eqb_eq in E; congruence | simpl; eexists; reflexivity]).
    + intros Hlen. unfold uastFunc_WithChildren, uastFunc_Children; simpl.
      destruct lang, xpath; simpl in *;
        destruct children as [| c0 [| c1 [| c2 [| c3 [| c4 rest]]]]];
        try discriminate; simpl; eexists; split; reflexivity.
Qed.

(** X2. [UASTMode] takes its children from the embedded [uastFunc], which
    lists the blob before the mode, and [UASTMode.WithChildren] passes them
    to [NewUASTMode], which takes the mode before the blob: rebuilding
    [uast_mode(mode, blob, lang)] from its own children gives
    [uast_mode(blob, mode, lang)]. Doing it twice gives the function back. *)
Theorem UASTMode_WithChildren_swaps :
  forall (mode blob lang : Expression),
    let u := NewUASTMode mode blob lang in
    let swapped := NewUASTMode blob mode lang in
    UASTMode_WithChildren u (uastFunc_Children u) = Done (Some swapped, None) /\
    Mode_ swapped = blob /\
    Blob swapped = mode /\
    UASTMode_WithChildren swapped (uastFunc_Children swapped) = Done (Some u, None).
Proof.
  intros mode blob lang u swapped. repeat split; reflexivity.
Qed.

(** X3. [NewUAST] accepts one, two or three arguments and nothing else; the
    children of the function it builds are the arguments, and
    [UAST.WithChildren] rebuilds the same function from them. A list of
    another length is refused by [UAST.WithChildren]. *)
Theorem UAST_WithChildren_Children :
  forall (args : list Expression),
    ((1 <= List.length args <= 3)%nat <-> exists u, NewUAST args = Some u) /\
    (forall u,
        NewUAST args = Some u ->
        UAST_Children u = args /\
        UAST_WithChildren u args = (Some u, None) /\
        forall children,
          List.length children <> List.length args ->
          exists e, UAST_WithChildren u children = (None, Some e)).
Proof.
  intros args. split.
  - split.
    + intros [Hlo Hhi].
      destruct args as [| a [| b [| c [| d rest]]]]; simpl in *; try lia;
        eexists; reflexivity.
    + intros [u Hu].
      destruct args as [| a [| b [| c [| d rest]]]]; simpl in *; try discriminate; lia.
  - intros u Hu.
    destruct args as [| a [| b [| c [| d rest]]]]; simpl in Hu; try discriminate;
      inversion Hu; subst u; (split; [reflexivity | split; [reflexivity |]]);
      intros children Hlen; unfold UAST_WithChildren; simpl in *;
      (destruct (Nat.eqb (List.length children) _) eqn:E;
       [apply Nat.eqb_eq in E; congruence | simpl; eexists; reflexivity]).
Qed.

End Trees.

Section MoreProofs.

Context {HH : Hash64} {KV : KeyValueCache} {HO : Host}.

Local Open Scope go_scope.

Lemma value_is_nil (v : value) : v = VNil \/ v <> VNil.
Proof. destruct v; [left; reflexivity | right; discriminate ..]. Qed.

(** *** The paths through [uastFunc.Eval] *)

(** X4. An evaluation of [uast] / [uast_mode] does one of three things. It
    leaves the state of the package as it was (an argument fails or panics,
    the mode is not a mode, the blob is null or empty). Or the content is
    over a non-negative ceiling, and the only effect is the two warnings.
    Or the mode, the blob, the language and the query all evaluate, the
    content is not empty and within the ceiling (or the ceiling is
    negative), and the evaluation is [getUAST] on that content, the
    lower-cased language, the query and the mode. *)
Theorem Eval_paths :
  forall (u : uastFunc) (row : Row) (w : World),
    snd (uastFunc_Eval u row w) = w \/
    (exists (v : value) (bytes : list byte),
        Blob u row = Done (v, None) /\
        Blob_Convert v = (VBytes bytes, None) /\
        0 <= uastMaxBlobSize w < len bytes /\
        uastFunc_Eval u row w =
        (Done (VNil, None),
         with_diagnostics
           (diagnostics w ++
            [mkDiag Logrus LWarn tooBigMsg; mkDiag CtxWarn LWarn tooBigMsg])%list w)) \/
    (exists (m : string) (mode : Mode) (v : value) (bytes : list byte) (lang xpath : string),
        exprToString (Some (Mode_ u)) row = Done (m, None) /\
        ParseMode m = (mode, None) /\
        Blob u row = Done (v, None) /\
        Blob_Convert v = (VBytes bytes, None) /\
        bytes <> [] /\
        (uastMaxBlobSize w < 0 \/ len bytes <= uastMaxBlobSize w) /\
        exprToString (Lang u) row = Done (lang, None) /\
        exprToString (XPath u) row = Done (xpath, None) /\
        uastFunc_Eval u row w =
        recover "uast: unknown error: "
                (getUAST bytes (strings.ToLower lowerRun lang) xpath mode) w).
Proof.
  intros u row w.
  destruct (exprToString (Some (Mode_ u)) row) as [[m [e |]] | p] eqn:Em;
    try (left; unfold uastFunc_Eval, recover, uastFunc_Eval_body, check, bind, lift;
         rewrite Em; reflexivity).
  destruct (ParseMode m) as [mode [e |]] eqn:Ep;
    try (left; unfold uastFunc_Eval, recover, uastFunc_Eval_body, check, bind, lift, ret;
         rewrite Em; simpl; rewrite Ep; reflexivity).
  destruct (Blob u row) as [[v [e |]] | p] eqn:Eb;
    try (left; unfold uastFunc_Eval, recover, uastFunc_Eval_body, check, bind, lift, ret;
         rewrite Em; simpl; rewrite Ep; simpl; rewrite Eb; reflexivity).
  assert (Body : v <> VNil ->
    uastFunc_Eval_body u row w =
    (blob0 <~ ret (Blob_Convert v) ;;
     bytes <- lift (assertBytes blob0) ;;
     if len bytes =? 0 then ret (VNil, None)
     else
       maxBlob <- gets uastMaxBlobSize ;;
       if ((0 <=? maxBlob) && (maxBlob <? len bytes))%bool
       then
         _ <- logrus_Warn tooBigMsg ;;
         _ <- ctx_Warn tooBigMsg ;;
         ret (VNil, None)
       else
         lang <~ lift (exprToString (Lang u) row) ;;
         xpath <~ lift (exprToString (XPath u) row) ;;
         getUAST bytes (strings.ToLower lowerRun lang) xpath mode) w).
  { intros Hv. unfold uastFunc_Eval_body, check, bind, lift, ret.
    rewrite Em; simpl. rewrite Ep; simpl. rewrite Eb; simpl.
    destruct v; try congruence; reflexivity. }
  destruct (value_is_nil v) as [Hnil | Hv].
  { left. subst v. unfold uastFunc_Eval, recover, uastFunc_Eval_body, check, bind, lift, ret.
    rewrite Em; simpl. rewrite Ep; simpl. rewrite Eb; reflexivity. }
  specialize (Body Hv).
  unfold uastFunc_Eval, recover. rewrite Body. clear Body.
  unfold check, bind, lift, ret, gets.
  destruct (Blob_Convert v) as [conv [e |]] eqn:Ec; simpl; [left; reflexivity |].
  destruct conv as [| bytes | s | i | elems]; simpl; try (left; reflexivity).
  destruct (len bytes =? 0) eqn:Elen; [left; reflexivity |].
  apply Z.eqb_neq in Elen.
  assert (Hne : bytes <> []) by (intros ->; apply Elen; reflexivity).
  destruct ((0 <=? uastMaxBlobSize w) && (uastMaxBlobSize w <? len bytes))%bool eqn:Esize.
  - right; left. exists v, bytes.
    apply andb_true_iff in Esize as [Hlo Hhi].
    apply Z.leb_le in Hlo. apply Z.ltb_lt in Hhi.
    repeat split; try assumption.
    simpl. unfold with_diagnostics; simpl. rewrite <- app_assoc. reflexivity.
  - assert (Hfit : uastMaxBlobSize w < 0 \/ len bytes <= uastMaxBlobSize w).
    { apply andb_false_iff in Esize as [Hlo | Hhi].
      - left. apply Z.leb_gt in Hlo. exact Hlo.
      - right. apply Z.ltb_ge in Hhi. exact Hhi. }
    destruct (exprToString (Lang u) row) as [[lang [e |]] | p] eqn:El; simpl;
      try (left; reflexivity).
    destruct (exprToString (XPath u) row) as [[xpath [e |]] | p] eqn:Ex; simpl;
      try (left; reflexivity).
    right; right. exists m, mode, v, bytes, lang, xpath.
    repeat split; try assumption; reflexivity.
Qed.

(** *** What one evaluation adds to the logs *)

Lemma grew_refl (w : World) : grew 0 0 0 w w.
Proof.
  exists [], [], []. rewrite !app_nil_r. simpl. repeat split; lia.
Qed.

Lemma grew_trans (a b c a' b' c' : nat) (w1 w2 w3 : World) :
  grew a b c w1 w2 -> grew a' b' c' w2 w3 -> grew (a + a') (b + b') (c + c') w1 w3.
Proof.
  intros (rs & ds & ms & R & LR & D & LD & Mx & LM)
         (rs' & ds' & ms' & R' & LR' & D' & LD' & Mx' & LM').
  exists (rs ++ rs')%list, (ds ++ ds')%list, (ms ++ ms')%list.
  rewrite R', R, D', D, Mx', Mx, !app_assoc, !length_app.
  repeat split; lia.
Qed.

Lemma grew_mono (a b c a' b' c' : nat) (w1 w2 : World) :
  (a <= a')%nat -> (b <= b')%nat -> (c <= c')%nat ->
  grew a b c w1 w2 -> grew a' b' c' w1 w2.
Proof.
  intros Ha Hb Hc (rs & ds & ms & R & LR & D & LD & Mx & LM).
  exists rs, ds, ms. repeat split; try assumption; lia.
Qed.

Lemma growing_bind (a b c a' b' c' : nat) {A B : Type} (m : M A) (k : A -> M B) :
  growing a b c m -> (forall x, growing a' b' c' (k x)) ->
  growing (a + a') (b + b') (c + c') (bind m k).
Proof.
  intros Hm Hk w. unfold bind. specialize (Hm w).
  destruct (m w) as [[x | p] w1]; simpl in *.
  - eapply grew_trans; [exact Hm | apply Hk].
  - eapply grew_mono; [| | | exact Hm]; lia.
Qed.

Lemma growing_ret (a b c : nat) {A : Type} (x : A) : growing a b c (ret x).
Proof.
  intros w. apply (@grew_mono 0 0 0); try lia. apply grew_refl.
Qed.

Lemma filterAndMarshal_growing (lang xpath : string) (miss : bool) (node : Node) :
  growing 0 1 1 (filterAndMarshal lang xpath miss node).
Proof.
  intros w. unfold filterAndMarshal.
  destruct (if String.eqb xpath "" then _ else _) as [arr [e |]].
  - exists [], [mkDiag Logrus LError ("unable to filter node using xpath: " ++ xpath)], [].
    simpl. rewrite !app_nil_r. repeat split; lia.
  - destruct (marshalNodes arr) as [res [e |]].
    + exists [], [mkDiag Logrus LError "unable to marshal UAST nodes"], [].
      simpl. rewrite !app_nil_r. repeat split; lia.
    + exists [], [], [mkMetric lang xpath (negb miss)].
      simpl. rewrite !app_nil_r. repeat split; lia.
Qed.

Lemma growing_still {A : Type} (c : M A) :
  (forall w, requests (snd (c w)) = requests w /\
             diagnostics (snd (c w)) = diagnostics w /\
             metrics (snd (c w)) = metrics w) ->
  growing 0 0 0 c.
Proof.
  intros H w. destruct (H w) as (R & D & Mx).
  exists [], [], []. rewrite R, D, Mx, !app_nil_r. simpl. repeat split; lia.
Qed.

Lemma getUAST_growing (blob : list byte) (lang xpath : string) (mode : Mode) :
  growing 1 1 1 (getUAST blob lang xpath mode).
Proof.
  unfold getUAST, check.
  apply (@growing_bind 0 0 0 1 1 1).
  { apply growing_still. intros w. unfold uastFunc_computeKey.
    destruct (computeKey _ _ _ _); simpl; repeat split. }
  intros [key [e |]]; simpl.
  { apply growing_ret. }
  apply (@growing_bind 0 0 0 1 1 1).
  { apply growing_still. intros w. unfold getUASTCache.
    destruct (uastCache w); simpl; repeat split. }
  intros _.
  apply (@growing_bind 0 0 0 1 1 1).
  { apply growing_still. intros w. unfold cacheGet.
    destruct (uastCache w); simpl; [destruct (kvGet _ _) |]; simpl; repeat split. }
  intros [v [e |]]; simpl.
  - apply (@growing_bind 1 0 0 0 1 1).
    { intros w. exists [(blob, lang, xpath, mode)], [], [].
      simpl. rewrite !app_nil_r. repeat split; lia. }
    intros [n [e' |]]; simpl.
    + destruct (_ || _)%bool; apply growing_ret.
    + apply (@growing_bind 0 0 0 0 1 1).
      { apply growing_still. intros w. unfold cachePut.
        destruct (uastCache w); simpl; [destruct (kvPut _ _ _) |]; simpl; repeat split. }
      intros [e'' |].
      * apply growing_ret.
      * apply filterAndMarshal_growing.
  - apply (@growing_bind 0 0 0 1 1 1).
    { apply growing_still. intros w. simpl. repeat split. }
    intros node w. apply (@grew_mono 0 1 1); try lia. apply filterAndMarshal_growing.
Qed.

Lemma growing_mono (a b c a' b' c' : nat) {A : Type} (m : M A) :
  (a <= a')%nat -> (b <= b')%nat -> (c <= c')%nat ->
  growing a b c m -> growing a' b' c' m.
Proof.
  intros Ha Hb Hc Hm w. eapply grew_mono; [exact Ha | exact Hb | exact Hc | apply Hm].
Qed.

Lemma growing_check (a b c a' b' c' : nat) {A : Type}
      (m : M (A * option error)) (k : A -> M Result) :
  growing a b c m -> (forall x, growing a' b' c' (k x)) ->
  growing (a + a') (b + b') (c + c') (check m k).
Proof.
  intros Hm Hk. unfold check. apply growing_bind; [exact Hm |].
  intros [x [e |]]; simpl; [apply growing_ret | apply Hk].
Qed.

Lemma growing_recover (a b c : nat) (prefix : string) (m : M Result) :
  growing a b c m -> growing a b c (recover prefix m).
Proof.
  intros Hm w. unfold recover. specialize (Hm w).
  destruct (m w) as [[r | p] w']; exact Hm.
Qed.

Lemma growing_lift (a b c : nat) {A : Type} (o : Outcome A) : growing a b c (lift o).
Proof.
  intros w. apply (@grew_mono 0 0 0); try lia. apply grew_refl.
Qed.

Lemma growing_warning (d : Diagnostic) :
  growing 0 1 0 (modify (fun w => with_diagnostics (diagnostics w ++ [d])%list w)).
Proof.
  intros w. exists [], [d], []. simpl. rewrite !app_nil_r. repeat split; lia.
Qed.

Lemma Eval_growing (u : uastFunc) (row : Row) : growing 1 2 1 (uastFunc_Eval u row).
Proof.
  unfold uastFunc_Eval, uastFunc_Eval_body.
  apply growing_recover.
  apply (@growing_check 0 0 0 1 2 1); [apply growing_lift | intros m].
  apply (@growing_check 0 0 0 1 2 1); [apply growing_ret | intros mode].
  apply (@growing_check 0 0 0 1 2 1); [apply growing_lift | intros blob].
  assert (K : growing 1 2 1
    (blob0 <~ ret (Blob_Convert blob) ;;
     bytes <- lift (assertBytes blob0) ;;
     if len bytes =? 0 then ret (VNil, None)
     else
       maxBlob <- gets uastMaxBlobSize ;;
       if ((0 <=? maxBlob) && (maxBlob <? len bytes))%bool
       then
         _ <- logrus_Warn tooBigMsg ;;
         _ <- ctx_Warn tooBigMsg ;;
         ret (VNil, None)
       else
         lang <~ lift (exprToString (Lang u) row) ;;
         xpath <~ lift (exprToString (XPath u) row) ;;
         getUAST bytes (strings.ToLower lowerRun lang) xpath mode)).
  { apply (@growing_check 0 0 0 1 2 1); [apply growing_ret | intros blob0].
    apply (@growing_bind 0 0 0 1 2 1); [apply growing_lift | intros bytes].
    destruct (len bytes =? 0); [apply growing_ret |].
    apply (@growing_bind 0 0 0 1 2 1).
    { intros w. apply grew_refl. }
    intros maxBlob. destruct (_ && _)%bool.
    - apply (@growing_mono 0 2 0); try lia.
      apply (@growing_bind 0 1 0 0 1 0); [apply growing_warning | intros _].
      apply (@growing_bind 0 1 0 0 0 0); [apply growing_warning | intros _].
      apply growing_ret.
    - apply (@growing_check 0 0 0 1 2 1); [apply growing_lift | intros lang].
      apply (@growing_check 0 0 0 1 2 1); [apply growing_lift | intros xpath].
      apply (@growing_mono 1 1 1); try lia. apply getUAST_growing. }
  destruct blob; try exact K. apply growing_ret.
Qed.

(** X5. One evaluation of [uast] / [uast_mode] sends at most one request to
    the parser and records at most one observation and at most two
    diagnostics; what was sent and logged before stays in place, in
    order. *)
Theorem Eval_sends_at_most_one_request :
  forall (u : uastFunc) (row : Row) (w : World),
  exists (rs : list Request) (ds : list Diagnostic) (ms : list Metric),
    requests (snd (uastFunc_Eval u row w)) = (requests w ++ rs)%list /\
    (List.length rs <= 1)%nat /\
    diagnostics (snd (uastFunc_Eval u row w)) = (diagnostics w ++ ds)%list /\
    (List.length ds <= 2)%nat /\
    metrics (snd (uastFunc_Eval u row w)) = (metrics w ++ ms)%list /\
    (List.length ms <= 1)%nat.
Proof.
  intros u row w.
  destruct (Eval_growing u row w) as (rs & ds & ms & R & LR & D & LD & Mx & LM).
  exists rs, ds, ms. repeat split; assumption.
Qed.

(** *** The paths through [getUAST] *)

Local Opaque looked.

Lemma filterAndMarshal_sameStore (lang xpath : string) (miss : bool) (node : Node) (w : World) :
  sameStore w (snd (filterAndMarshal lang xpath miss node w)).
Proof.
  unfold filterAndMarshal, sameStore.
  destruct (if String.eqb xpath "" then _ else _) as [arr [e |]];
    [simpl; repeat split |].
  destruct (marshalNodes arr) as [res [e |]]; simpl; repeat split.
Qed.

(** The value the second half of [getUAST] returns depends on the node and
    the query alone. *)
Lemma filterAndMarshal_result
      (lang xpath : string) (miss miss' : bool) (node : Node) (w w' : World) :
  fst (filterAndMarshal lang xpath miss node w) =
  fst (filterAndMarshal lang xpath miss' node w').
Proof.
  unfold filterAndMarshal.
  destruct (if String.eqb xpath "" then _ else _) as [arr [e |]]; [reflexivity |].
  destruct (marshalNodes arr) as [res [e |]]; reflexivity.
Qed.

(** A miss answered with a node the cache accepts: the second half of
    [getUAST] starts with the node stored and the request recorded. *)
Lemma getUAST_miss_stored
      (blob : list byte) (lang xpath : string) (mode : Mode) (w : World)
      (key : Z) (v0 : Node) (e0 : error) (c1 c2 : cache) (node : Node) :
  fst (computeKey (h w) (Mode_String mode) lang blob) = (key, None) ->
  kvGet (theCache w) key = ((v0, Some e0), c1) ->
  getUASTFromBblfsh (requests w) blob lang xpath mode = (node, None) ->
  kvPut c1 key node = (None, c2) ->
  exists w2,
    getUAST blob lang xpath mode w = filterAndMarshal lang xpath true node w2 /\
    uastCache w2 = Some c2 /\
    requests w2 = (requests w ++ [(blob, lang, xpath, mode)])%list /\
    diagnostics w2 = diagnostics w /\
    metrics w2 = metrics w.
Proof.
  intros Hk Hg Hp Hput.
  destruct (computeKey (h w) (Mode_String mode) lang blob) as [r s'] eqn:Ek.
  simpl in Hk; subst r.
  rewrite (@getUAST_lookup _ _ _ blob lang xpath mode w key s' _ _ Ek Hg); simpl.
  destruct (looked_fields s' c1 w) as (Hc & _ & Hr & Hd & Hm & _).
  exists (with_cache (Some c2)
            (constructed (looked s' c1 w))
            (with_requests (requests w ++ [(blob, lang, xpath, mode)])%list
                           (looked s' c1 w))).
  split; [| simpl; repeat split; assumption].
  unfold bind, callBblfsh; simpl. rewrite Hr, Hp; simpl.
  unfold cachePut; simpl. rewrite Hc, Hput; simpl. reflexivity.
Qed.

(** A hit: the second half of [getUAST] starts with nothing sent. *)
Lemma getUAST_hit
      (blob : list byte) (lang xpath : string) (mode : Mode) (w : World)
      (key : Z) (c3 : cache) (node : Node) :
  fst (computeKey (h w) (Mode_String mode) lang blob) = (key, None) ->
  kvGet (theCache w) key = ((node, None), c3) ->
  node <> NNil ->
  exists w2,
    getUAST blob lang xpath mode w = filterAndMarshal lang xpath false node w2 /\
    uastCache w2 = Some c3 /\
    requests w2 = requests w /\
    diagnostics w2 = diagnostics w /\
    metrics w2 = metrics w.
Proof.
  intros Hk Hg Hnn.
  destruct (computeKey (h w) (Mode_String mode) lang blob) as [r s'] eqn:Ek.
  simpl in Hk; subst r.
  rewrite (@getUAST_lookup _ _ _ blob lang xpath mode w key s' _ _ Ek Hg); simpl.
  destruct (looked_fields s' c3 w) as (Hc & _ & Hr & Hd & Hm & _).
  exists (looked s' c3 w).
  split; [| repeat split; assumption].
  unfold bind, lift. destruct node; try reflexivity. congruence.
Qed.

(** X6. After a resolution that missed, got a node from the parser and
    stored it, with the cache giving the node back for the key, resolving
    the same content, language and mode again sends nothing to the parser,
    whatever the query; with the same query it returns the same result. *)
Theorem second_resolution_hits :
  forall (blob : list byte) (lang xpath : string) (mode : Mode) (w : World)
         (key : Z) (v0 : Node) (e0 : error) (c1 c2 c3 : cache) (node : Node),
    fst (computeKey (h w) (Mode_String mode) lang blob) = (key, None) ->
    kvGet (theCache w) key = ((v0, Some e0), c1) ->
    getUASTFromBblfsh (requests w) blob lang xpath mode = (node, None) ->
    node <> NNil ->
    kvPut c1 key node = (None, c2) ->
    kvGet c2 key = ((node, None), c3) ->
    let w1 := snd (getUAST blob lang xpath mode w) in
    requests w1 = (requests w ++ [(blob, lang, xpath, mode)])%list /\
    uastCache w1 = Some c2 /\
    fst (getUAST blob lang xpath mode w1) = fst (getUAST blob lang xpath mode w) /\
    forall (xpath2 : string),
      requests (snd (getUAST blob lang xpath2 mode w1)) = requests w1 /\
      uastCache (snd (getUAST blob lang xpath2 mode w1)) = Some c3.
Proof.
  intros blob lang xpath mode w key v0 e0 c1 c2 c3 node Hk Hg Hp Hnn Hput Hg2 w1.
  destruct (getUAST_miss_stored _ _ _ _ _ Hk Hg Hp Hput) as (w2 & E & Hc & Hr & _).
  pose proof (filterAndMarshal_sameStore lang xpath true node w2)
    as (Sc & Sh & Sr & _).
  assert (Hc1 : uastCache w1 = Some c2) by (unfold w1; rewrite E, Sc; exact Hc).
  assert (Hr1 : requests w1 = (requests w ++ [(blob, lang, xpath, mode)])%list)
    by (unfold w1; rewrite E, Sr; exact Hr).
  assert (Hk1 : fst (computeKey (h w1) (Mode_String mode) lang blob) = (key, None))
    by (rewrite (computeKey_any_state (h w1) (h w)); exact Hk).
  assert (Hg1 : kvGet (theCache w1) key = ((node, None), c3))
    by (unfold theCache; rewrite Hc1; exact Hg2).
  split; [exact Hr1 | split; [exact Hc1 | split]].
  - destruct (getUAST_hit blob lang xpath mode w1 Hk1 Hg1 Hnn) as (w3 & E3 & _).
    rewrite E3, E. apply filterAndMarshal_result.
  - intros xpath2.
    destruct (getUAST_hit blob lang xpath2 mode w1 Hk1 Hg1 Hnn) as (w3 & E3 & Hc3 & Hr3 & _).
    pose proof (filterAndMarshal_sameStore lang xpath2 false node w3)
      as (Sc3 & _ & Sr3 & _).
    rewrite E3, Sc3, Sr3. split; assumption.
Qed.

(** X7. On a miss, an error of the parser that is neither [ErrParseBlob]
    nor a syntax error is returned to the caller with nothing stored, and
    an error of the cache write is returned as well; neither is logged,
    and no observation is recorded. *)
Theorem hard_failures_are_returned :
  forall (blob : list byte) (lang xpath : string) (mode : Mode) (w : World)
         (key : Z) (v0 : Node) (e0 : error) (c1 : cache),
    fst (computeKey (h w) (Mode_String mode) lang blob) = (key, None) ->
    kvGet (theCache w) key = ((v0, Some e0), c1) ->
    let r := getUAST blob lang xpath mode w in
    (forall (n : Node) (e : error),
        getUASTFromBblfsh (requests w) blob lang xpath mode = (n, Some e) ->
        (ErrParseBlob_Is e || ErrSyntax_Is e)%bool = false ->
        fst r = Done (VNil, Some e) /\
        uastCache (snd r) = Some c1 /\
        diagnostics (snd r) = diagnostics w /\
        metrics (snd r) = metrics w) /\
    (forall (node : Node) (e : error) (c2 : cache),
        getUASTFromBblfsh (requests w) blob lang xpath mode = (node, None) ->
        kvPut c1 key node = (Some e, c2) ->
        fst r = Done (VNil, Some e) /\
        diagnostics (snd r) = diagnostics w /\
        metrics (snd r) = metrics w).
Proof.
  intros blob lang xpath mode w key v0 e0 c1 Hk Hg r. subst r.
  destruct (computeKey (h w) (Mode_String mode) lang blob) as [k s'] eqn:Ek.
  simpl in Hk; subst k.
  rewrite (@getUAST_lookup _ _ _ blob lang xpath mode w key s' _ _ Ek Hg); simpl.
  destruct (looked_fields s' c1 w) as (Hc & _ & Hr & Hd & Hm & _).
  split.
  - intros n e Hp Hhard.
    unfold bind, callBblfsh; simpl. rewrite Hr, Hp; simpl. rewrite Hhard; simpl.
    repeat split; assumption.
  - intros node e c2 Hp Hput.
    unfold bind, callBblfsh; simpl. rewrite Hr, Hp; simpl.
    unfold cachePut; simpl. rewrite Hc, Hput; simpl.
    repeat split; assumption.
Qed.

(** The nodes the query selects from [node]: the node itself for the empty
    query, what the evaluator returns otherwise. *)
Lemma filterAndMarshal_selected
      (lang xpath : string) (miss : bool) (node : Node) (arr : Array) (w : World) :
  (xpath = "" /\ arr = [node]) \/ (xpath <> "" /\ applyXpath node xpath = (arr, None)) ->
  filterAndMarshal lang xpath miss node w =
  match marshalNodes arr with
  | (_, Some _) =>
      (Done (VNil, None),
       with_diagnostics
         (diagnostics w ++ [mkDiag Logrus LError "unable to marshal UAST nodes"])%list w)
  | (result, None) =>
      (Done (result, None),
       with_metrics (metrics w ++ [mkMetric lang xpath (negb miss)])%list w)
  end.
Proof.
  intros [[-> ->] | [Hne Hx]]; unfold filterAndMarshal.
  - simpl. destruct (marshalNodes [node]) as [res [e |]]; reflexivity.
  - apply String.eqb_neq in Hne. rewrite Hne, Hx.
    destruct (marshalNodes arr) as [res [e |]]; reflexivity.
Qed.

(** X8. When the node is resolved and the query selects [arr] from it, the
    result of [getUAST] is the serialisation of [arr], and one observation
    is recorded, marked as a hit exactly when the node came from the
    cache. When the serialisation fails the result is null without error,
    the failure is logged and no observation is recorded. *)
Theorem resolved_result :
  forall (blob : list byte) (lang xpath : string) (mode : Mode) (w : World)
         (key : Z) (node : Node) (arr : Array),
    fst (computeKey (h w) (Mode_String mode) lang blob) = (key, None) ->
    (xpath = "" /\ arr = [node]) \/ (xpath <> "" /\ applyXpath node xpath = (arr, None)) ->
    let r := getUAST blob lang xpath mode w in
    (forall (c3 : cache) (result : value),
        kvGet (theCache w) key = ((node, None), c3) ->
        node <> NNil ->
        marshalNodes arr = (result, None) ->
        fst r = Done (result, None) /\
        requests (snd r) = requests w /\
        diagnostics (snd r) = diagnostics w /\
        metrics (snd r) = (metrics w ++ [mkMetric lang xpath true])%list) /\
    (forall (v0 : Node) (e0 : error) (c1 c2 : cache) (result : value),
        kvGet (theCache w) key = ((v0, Some e0), c1) ->
        getUASTFromBblfsh (requests w) blob lang xpath mode = (node, None) ->
        kvPut c1 key node = (None, c2) ->
        marshalNodes arr = (result, None) ->
        fst r = Done (result, None) /\
        requests (snd r) = (requests w ++ [(blob, lang, xpath, mode)])%list /\
        diagnostics (snd r) = diagnostics w /\
        metrics (snd r) = (metrics w ++ [mkMetric lang xpath false])%list) /\
    (forall (result : value) (e : error),
        resolvesTo blob lang xpath mode w key node ->
        marshalNodes arr = (result, Some e) ->
        fst r = Done (VNil, None) /\
        diagnostics (snd r) =
        (diagnostics w ++ [mkDiag Logrus LError "unable to marshal UAST nodes"])%list /\
        metrics (snd r) = metrics w).
Proof.
  intros blob lang xpath mode w key node arr Hk Hsel r. subst r.
  split; [| split].
  - intros c3 result Hg Hnn Hm.
    destruct (getUAST_hit blob lang xpath mode w Hk Hg Hnn) as (w2 & E & _ & Hr & Hd & Hmx).
    rewrite E, (filterAndMarshal_selected lang false w2 Hsel), Hm; simpl.
    rewrite Hmx. repeat split; assumption.
  - intros v0 e0 c1 c2 result Hg Hp Hput Hm.
    destruct (getUAST_miss_stored _ _ _ _ _ Hk Hg Hp Hput) as (w2 & E & _ & Hr & Hd & Hmx).
    rewrite E, (filterAndMarshal_selected lang true w2 Hsel), Hm; simpl.
    rewrite Hmx. repeat split; assumption.
  - intros result e Hres Hm.
    assert (G : exists miss w2,
               getUAST blob lang xpath mode w = filterAndMarshal lang xpath miss node w2 /\
               diagnostics w2 = diagnostics w /\ metrics w2 = metrics w).
    { destruct Hres as [(c' & Hg & Hnn) | (v & e0 & c' & c'' & Hg & Hp & Hput)].
      - destruct (getUAST_hit blob lang xpath mode w Hk Hg Hnn) as (w2 & E & _ & _ & Hd & Hmx).
        exists false, w2. repeat split; assumption.
      - destruct (getUAST_miss_stored _ _ _ _ _ Hk Hg Hp Hput)
          as (w2 & E & _ & _ & Hd & Hmx).
        exists true, w2. repeat split; assumption. }
    destruct G as (miss & w2 & E & Hd & Hmx).
    rewrite E, (filterAndMarshal_selected lang miss w2 Hsel), Hm; simpl.
    rewrite Hd. repeat split; assumption.
Qed.

End MoreProofs.

(** ** Further properties of the functions over nodes *)

Section NodeFunctions.

Context {HO : Host}.

Local Open Scope go_scope.

(** *** uast_xpath *)

Lemma filterLoop_all (xpath : string) (ns : Array) :
  (forall n, In n ns -> snd (applyXpath n xpath) = None) ->
  forall filtered,
    filterLoop xpath ns filtered =
    ((filtered ++ flat_map (fun n => fst (applyXpath n xpath)) ns)%list, None).
Proof.
  induction ns as [| n ns IH]; intros Hok filtered; simpl.
  - rewrite app_nil_r. reflexivity.
  - pose proof (Hok n (or_introl eq_refl)) as Hn.
    destruct (applyXpath n xpath) as [partial [e |]]; simpl in *; [discriminate |].
    rewrite IH; [rewrite <- app_assoc; reflexivity |].
    intros n' Hin. apply Hok. right. exact Hin.
Qed.

(** X9. When the evaluator accepts the query on every node, [uast_xpath]
    returns the serialisation of what it selects from the first node,
    followed by what it selects from the second, and so on. *)
Theorem uast_xpath_concatenates :
  forall (f : BinaryExpression) (row : Row) (xpath : string) (v : value) (ns : Array),
    exprToString (Some (Right f)) row = Done (xpath, None) ->
    xpath <> "" ->
    Left f row = Done (v, None) ->
    getNodes v = (Some ns, None) ->
    (forall n, In n ns -> snd (applyXpath n xpath) = None) ->
    UASTXPath_Eval f row =
    Done (marshalNodes (flat_map (fun n => fst (applyXpath n xpath)) ns)).
Proof.
  intros f row xpath v ns Hx Hne Hl Hn Hok.
  unfold UASTXPath_Eval, UASTXPath_Eval_body, ocheck, obind.
  rewrite Hx; cbn [fst snd]. apply String.eqb_neq in Hne. rewrite Hne.
  rewrite Hl; cbn [fst snd]. rewrite Hn; cbn [fst snd].
  rewrite (filterLoop_all xpath ns Hok []); cbn [fst snd app].
  destruct (marshalNodes _) as [r e]; reflexivity.
Qed.

(** *** uast_extract *)

Lemma extractLoop_all (key : string) (ns : Array) (pss : list (list value)) :
  Forall2 (fun n ps => extractProperties n key = Done ps) ns pss ->
  forall extracted,
    extractLoop key ns extracted = Done (extracted ++ List.concat pss)%list.
Proof.
  induction 1 as [| n ps ns pss Hn _ IH]; intros extracted; simpl.
  - rewrite app_nil_r. reflexivity.
  - rewrite Hn; simpl. destruct ps as [| p ps]; simpl.
    + apply IH.
    + rewrite IH, <- app_assoc. reflexivity.
Qed.

(** X10. [uast_extract] returns, in one sequence, what it extracts from the
    first node, then from the second, and so on; a node that is not an
    object contributes nothing. *)
Theorem uast_extract_concatenates :
  forall (u : BinaryExpression) (row : Row) (v : value) (ns : Array) (key : string)
         (pss : list (list value)),
    Left u row = Done (v, None) ->
    getNodes v = (Some ns, None) ->
    exprToString (Some (Right u)) row = Done (key, None) ->
    key <> "" ->
    Forall2 (fun n ps => extractProperties n key = Done ps) ns pss ->
    UASTExtract_Eval u row = Done (VArray (List.concat pss), None) /\
    (forall n ps, In (n, ps) (combine ns pss) -> isObject n = false -> ps = []).
Proof.
  intros u row v ns key pss Hl Hn Hk Hne Hall. split.
  - unfold UASTExtract_Eval, UASTExtract_Eval_body, ocheck, obind.
    rewrite Hl; cbn [fst snd]. rewrite Hn; cbn [fst snd]. rewrite Hk; cbn [fst snd].
    apply String.eqb_neq in Hne. rewrite Hne.
    rewrite (@extractLoop_all key ns pss Hall []). reflexivity.
  - clear Hl Hn Hk Hne. induction Hall as [| n ps ns pss Hn _ IH]; intros n' ps' Hin Hobj.
    + contradiction.
    + destruct Hin as [E | Hin]; [| apply (IH _ _ Hin Hobj)].
      inversion E; subst n' ps'.
      destruct n; simpl in Hn, Hobj; try discriminate; inversion Hn; reflexivity.
Qed.

Lemma valuesFromNodeArray_loop_ok (arr : Array) :
  forallb (fun n => negb (isNil n)) arr = true ->
  (forall n, In n arr -> isScalar n = true -> snd (Text_Convert_Native n) = None) ->
  forall values,
    valuesFromNodeArray_loop arr values =
    Done ((values ++ map (fun n => fst (Text_Convert_Native n)) (filter isScalar arr))%list,
          None).
Proof.
  induction arr as [| n arr IH]; intros Hnn Hok values; simpl in *.
  - rewrite app_nil_r. reflexivity.
  - apply andb_true_iff in Hnn as [Hn Hrest].
    assert (IH' : forall values,
               valuesFromNodeArray_loop arr values =
               Done ((values ++ map (fun n => fst (Text_Convert_Native n))
                                    (filter isScalar arr))%list, None)).
    { apply IH; [exact Hrest | intros n' Hin; apply Hok; right; exact Hin]. }
    pose proof (Hok n (or_introl eq_refl)) as Hconv.
    destruct n; simpl in *; try discriminate; try apply IH';
      unfold valueToString;
      (destruct (Text_Convert_Native _) as [sv [ev |]]; simpl in *;
       [specialize (Hconv eq_refl); discriminate |
        rewrite IH', <- app_assoc; reflexivity]).
Qed.

Lemma valuesFromNodeArray_loop_conversion_fails (arr : Array) :
  forallb (fun n => negb (isNil n)) arr = true ->
  (exists n, In n arr /\ isScalar n = true /\ snd (Text_Convert_Native n) <> None) ->
  forall values, exists e, valuesFromNodeArray_loop arr values = Done ([], Some e).
Proof.
  induction arr as [| n arr IH]; intros Hnn (bad & Hin & Hs & Hbad) values; simpl in *.
  - contradiction.
  - apply andb_true_iff in Hnn as [Hn Hrest].
    destruct (Text_Convert_Native n) as [sv [ev |]] eqn:Ec.
    + destruct n; simpl in *; try discriminate; unfold valueToString;
        try (rewrite Ec; eexists; reflexivity);
        (destruct Hin as [<- | Hin]; [discriminate |];
         apply IH; [exact Hrest | exists bad; repeat split; assumption]).
    + assert (Hin' : In bad arr).
      { destruct Hin as [<- | Hin]; [| exact Hin]. rewrite Ec in Hbad. simpl in Hbad.
        congruence. }
      assert (IH' : forall values,
                 exists e, valuesFromNodeArray_loop arr values = Done ([], Some e)).
      { apply IH; [exact Hrest | exists bad; repeat split; assumption]. }
      destruct n; simpl in *; try discriminate; unfold valueToString;
        rewrite ?Ec; apply IH'.
Qed.

Lemma valuesFromNodeArray_loop_null (arr : Array) :
  forallb (fun n => negb (isNil n)) arr = false ->
  (forall n, In n arr -> isScalar n = true -> snd (Text_Convert_Native n) = None) ->
  forall values, valuesFromNodeArray_loop arr values = Panicked nilDeref.
Proof.
  induction arr as [| n arr IH]; intros Hnn Hok values; simpl in *.
  - discriminate.
  - assert (IH' : forallb (fun n => negb (isNil n)) arr = false ->
                  forall values, valuesFromNodeArray_loop arr values = Panicked nilDeref).
    { intros H. apply IH; [exact H | intros n' Hin; apply Hok; right; exact Hin]. }
    pose proof (Hok n (or_introl eq_refl)) as Hconv.
    destruct n; simpl in *; try reflexivity; try (apply IH'; exact Hnn);
      unfold valueToString;
      (destruct (Text_Convert_Native _) as [sv [ev |]]; simpl in *;
       [specialize (Hconv eq_refl); discriminate | apply IH'; exact Hnn]).
Qed.

(** X11. For a key outside the common keys, what [uast_extract] takes from
    an object is this. A scalar gives its string, or nothing when the
    conversion fails. An array without nulls gives the strings of its
    scalar elements in order, objects and arrays among the elements being
    skipped; when the conversion of one of them fails it gives nothing at
    all. *)
Theorem extract_any_property :
  forall (node : Object) (key : string) (v : Node),
    isCommonProp key = false ->
    lookup key node = Some v ->
    (isScalar v = true ->
     extractProperties (NObject node) key =
     Done (match Text_Convert_Native v with
           | (s, None) => [s]
           | (_, Some _) => []
           end)) /\
    (forall arr,
        v = NArray arr ->
        forallb (fun n => negb (isNil n)) arr = true ->
        ((forall n, In n arr -> isScalar n = true -> snd (Text_Convert_Native n) = None) ->
         extractProperties (NObject node) key =
         Done (map (fun n => fst (Text_Convert_Native n)) (filter isScalar arr))) /\
        ((exists n, In n arr /\ isScalar n = true /\ snd (Text_Convert_Native n) <> None) ->
         extractProperties (NObject node) key = Done [])).
Proof.
  intros node key v Hc Hl. split.
  - intros Hs. simpl. rewrite Hc. unfold extractAnyProp. rewrite Hl.
    destruct v; simpl in *; try discriminate; unfold valueToString;
      destruct (Text_Convert_Native _) as [sv [ev |]]; reflexivity.
  - intros arr -> Hnn. split.
    + intros Hok. simpl. rewrite Hc. unfold extractAnyProp. rewrite Hl; simpl.
      unfold valuesFromNodeArray. rewrite (valuesFromNodeArray_loop_ok arr Hnn Hok []).
      reflexivity.
    + intros Hbad. simpl. rewrite Hc. unfold extractAnyProp. rewrite Hl; simpl.
      unfold valuesFromNodeArray.
      destruct (valuesFromNodeArray_loop_conversion_fails arr Hnn Hbad []) as [e ->].
      reflexivity.
Qed.

(** X12. A null among the elements of an array property (all scalar
    elements converting) makes the extraction panic on the call of [Kind];
    [uast_extract] returns that as an error, and the strings of the other
    nodes are lost with it. *)
Theorem extract_null_element_fails :
  forall (u : BinaryExpression) (row : Row) (v : value) (node : Object) (ns : Array)
         (key : string) (arr : Array),
    Left u row = Done (v, None) ->
    getNodes v = (Some (NObject node :: ns), None) ->
    exprToString (Some (Right u)) row = Done (key, None) ->
    key <> "" ->
    isCommonProp key = false ->
    lookup key node = Some (NArray arr) ->
    In NNil arr ->
    (forall n, In n arr -> isScalar n = true -> snd (Text_Convert_Native n) = None) ->
    extractProperties (NObject node) key = Panicked nilDeref /\
    UASTExtract_Eval u row = Done (VNil, Some (Errorf "uast: unknown error: " nilDeref)).
Proof.
  intros u row v node ns key arr Hl Hn Hk Hne Hc Hlk Hnil Hok.
  assert (Hnn : forallb (fun n => negb (isNil n)) arr = false).
  { destruct (forallb (fun n => negb (isNil n)) arr) eqn:E; [| reflexivity].
    rewrite forallb_forall in E. specialize (E NNil Hnil). discriminate. }
  assert (E1 : extractProperties (NObject node) key = Panicked nilDeref).
  { simpl. rewrite Hc. unfold extractAnyProp. rewrite Hlk; simpl.
    unfold valuesFromNodeArray. rewrite (valuesFromNodeArray_loop_null arr Hnn Hok []).
    reflexivity. }
  split; [exact E1 |].
  unfold UASTExtract_Eval, UASTExtract_Eval_body, ocheck, obind.
  rewrite Hl; cbn [fst snd]. rewrite Hn; cbn [fst snd]. rewrite Hk; cbn [fst snd].
  apply String.eqb_neq in Hne. rewrite Hne.
  cbn [extractLoop]. rewrite E1. reflexivity.
Qed.

(** *** uast_children *)

Lemma arrayLoop_objects (arr : Array) :
  forall children result,
    arrayLoop arr children = Done result ->
    Forall (fun n => isObject n = true) children ->
    Forall (fun n => isObject n = true) result.
Proof.
  induction arr as [| n arr IH]; intros children result H Hall; simpl in H.
  - inversion H; subst; exact Hall.
  - destruct n; simpl in H; try discriminate; try (eapply IH; eassumption).
    eapply IH; [exact H |].
    apply Forall_app. split; [exact Hall | constructor; [reflexivity | constructor]].
Qed.

Lemma keysLoop_objects (node : Object) (keys : list string) :
  forall children result,
    keysLoop node keys children = Done result ->
    Forall (fun n => isObject n = true) children ->
    Forall (fun n => isObject n = true) result.
Proof.
  induction keys as [| key keys IH]; intros children result H Hall; simpl in H.
  - inversion H; subst; exact Hall.
  - destruct (isCommonProp key); [eapply IH; eassumption |].
    destruct (lookup key node) as [c |]; [| eapply IH; eassumption].
    destruct c; simpl in H; try discriminate; try (eapply IH; eassumption).
    + destruct (arrayLoop elems children) as [children' | p] eqn:Ea; simpl in H;
        [| discriminate].
      eapply IH; [exact H |]. eapply arrayLoop_objects; eassumption.
    + eapply IH; [exact H |].
      apply Forall_app. split; [exact Hall | constructor; [reflexivity | constructor]].
Qed.

Lemma flattenLoop_objects (arr : Array) :
  forall children result,
    flattenLoop arr children = Done result ->
    Forall (fun n => isObject n = true) children ->
    Forall (fun n => isObject n = true) result.
Proof.
  induction arr as [| n arr IH]; intros children result H Hall; simpl in H.
  - inversion H; subst; exact Hall.
  - destruct n; try (eapply IH; eassumption).
    destruct (getChildren fields) as [c | p] eqn:Ec; simpl in H; [| discriminate].
    assert (Hc : Forall (fun n => isObject n = true) c).
    { unfold getChildren in Ec. eapply keysLoop_objects; [exact Ec | constructor]. }
    destruct (Nat.ltb 0 (List.length c)); eapply IH; try exact H; try exact Hall.
    apply Forall_app. split; assumption.
Qed.

(** X13. Whatever the nodes, every node [flattenChildren] returns is an
    object: scalars, arrays and nulls never come out as children. *)
Theorem children_are_objects :
  forall (arr : Array) (children : Array),
    flattenChildren arr = Done children ->
    Forall (fun n => isObject n = true) children.
Proof.
  intros arr children H. unfold flattenChildren in H.
  eapply flattenLoop_objects; [exact H | constructor].
Qed.

Lemma flattenLoop_from (arr : Array) :
  forall children,
    flattenLoop arr children =
    (r <-- flattenLoop arr [] ;; Done (children ++ r)%list).
Proof.
  induction arr as [| n arr IH]; intros children; simpl.
  - rewrite app_nil_r. reflexivity.
  - destruct n; try apply IH.
    destruct (getChildren fields) as [c | p]; simpl; [| reflexivity].
    destruct c as [| c0 c]; simpl; [apply IH |].
    rewrite (IH (children ++ c0 :: c)%list), (IH (c0 :: c)).
    destruct (flattenLoop arr []) as [r | p]; simpl; [| reflexivity].
    rewrite <- app_assoc. reflexivity.
Qed.

(** X14. The children of a sequence followed by another are the children
    of the first followed by the children of the second; when the first
    panics, so does the whole. *)
Theorem flattenChildren_app :
  forall (a b : Array),
    flattenChildren (a ++ b)%list =
    (x <-- flattenChildren a ;; y <-- flattenChildren b ;; Done (x ++ y)%list).
Proof.
  unfold flattenChildren. intros a b.
  induction a as [| n a IH]; simpl.
  - destruct (flattenLoop b []) as [y | p]; reflexivity.
  - destruct n; try exact IH.
    destruct (getChildren fields) as [c | p]; simpl; [| reflexivity].
    destruct c as [| c0 c]; simpl; [exact IH |].
    rewrite (flattenLoop_from (a ++ b)%list (c0 :: c)), IH, (flattenLoop_from a (c0 :: c)).
    destruct (flattenLoop a []) as [x | p]; simpl; [| reflexivity].
    destruct (flattenLoop b []) as [y | p]; simpl; [| reflexivity].
    rewrite <- app_assoc. reflexivity.
Qed.

(** *** Null input and undecodable input *)

(** X15. When the first argument decodes to no nodes at all (a null),
    [uast_extract], [uast_children] and [uast_imports] return null without
    error, [uast_extract] without evaluating its key; so does [uast_xpath]
    once its query has evaluated to a non-empty string. When the first
    argument cannot be decoded, all four return the error of the
    decoder. *)
Theorem null_and_undecodable_input :
  forall (b : BinaryExpression) (f : UnaryExpression) (row : Row) (v : value),
    Left b row = Done (v, None) ->
    Child f row = Done (v, None) ->
    (getNodes v = (None, None) ->
     UASTExtract_Eval b row = Done (VNil, None) /\
     UASTChildren_Eval f row = Done (VNil, None) /\
     UASTImports_Eval f row = Done (VNil, None) /\
     forall xpath,
       exprToString (Some (Right b)) row = Done (xpath, None) ->
       UASTXPath_Eval b row = Done (VNil, None)) /\
    (forall (ns : option Array) (e : error),
        getNodes v = (ns, Some e) ->
        UASTExtract_Eval b row = Done (VNil, Some e) /\
        UASTChildren_Eval f row = Done (VNil, Some e) /\
        UASTImports_Eval f row = Done (VNil, Some e) /\
        forall xpath,
          exprToString (Some (Right b)) row = Done (xpath, None) ->
          xpath <> "" ->
          UASTXPath_Eval b row = Done (VNil, Some e)).
Proof.
  intros b f row v Hl Hc. split.
  - intros Hn. repeat split.
    + unfold UASTExtract_Eval, UASTExtract_Eval_body, ocheck, obind.
      rewrite Hl; cbn [fst snd]. rewrite Hn. reflexivity.
    + unfold UASTChildren_Eval, UASTChildren_Eval_body, ocheck, obind.
      rewrite Hc; cbn [fst snd]. rewrite Hn. reflexivity.
    + unfold UASTImports_Eval, ocheck, obind.
      rewrite Hc; cbn [fst snd]. rewrite Hn. reflexivity.
    + intros xpath Hx.
      unfold UASTXPath_Eval, UASTXPath_Eval_body, ocheck, obind.
      rewrite Hx; cbn [fst snd]. destruct (String.eqb xpath ""); [reflexivity |].
      rewrite Hl; cbn [fst snd]. rewrite Hn. reflexivity.
  - intros ns e Hn. repeat split.
    + unfold UASTExtract_Eval, UASTExtract_Eval_body, ocheck, obind.
      rewrite Hl; cbn [fst snd]. rewrite Hn. reflexivity.
    + unfold UASTChildren_Eval, UASTChildren_Eval_body, ocheck, obind.
      rewrite Hc; cbn [fst snd]. rewrite Hn. reflexivity.
    + unfold UASTImports_Eval, ocheck, obind.
      rewrite Hc; cbn [fst snd]. rewrite Hn. reflexivity.
    + intros xpath Hx Hne.
      unfold UASTXPath_Eval, UASTXPath_Eval_body, ocheck, obind.
      rewrite Hx; cbn [fst snd]. apply String.eqb_neq in Hne. rewrite Hne.
      rewrite Hl; cbn [fst snd]. rewrite Hn. reflexivity.
Qed.

End NodeFunctions.

(** ** Properties of loc.go *)

Section LocProofs.

Context {HO : Host} {LH : LocHost} {SC : StringCache}.

(** X16. When the path and the blob evaluate and convert, [LOC.Eval] returns
    null without error and leaves the language cache and the detector
    alone if the blob is null or not a byte string, or the path is not a
    string, or either is empty. Otherwise it goes on to [getLanguage] with
    the path and the blob. *)
Theorem LOC_empty_input_is_null :
  forall (f : loc.LOC) (right : Expression) (row : Row) (w : loc.World)
         (l r path0 blob0 : value),
    loc.Left f row = Done (l, None) ->
    Text_Convert l = (path0, None) ->
    loc.Right f = Some right ->
    right row = Done (r, None) ->
    Blob_Convert r = (blob0, None) ->
    (blob0 = VNil \/ (forall b, blob0 <> VBytes b) \/ (forall s, path0 <> VText s) \/
     blob0 = VBytes [] \/ path0 = VText "" ->
     loc.Eval f row w = (Done (None, None), w)) /\
    (forall (path : string) (blob : list byte),
        path0 = VText path -> blob0 = VBytes blob -> path <> "" -> blob <> [] ->
        loc.getInputValues f row = Done (path, blob, None) /\
        snd (loc.Eval f row w) = snd (loc.getLanguage path blob w)).
Proof.
  intros f right row w l r path0 blob0 Hl Hconv Hright Hr Hbconv.
  assert (G : loc.getInputValues f row =
              match blob0 with
              | VNil => Done ("", [], Some loc.errEmptyInputValues)
              | VBytes blob =>
                  match path0 with
                  | VText path =>
                      if ((len blob =? 0) || Nat.eqb (String.length path) 0)%bool
                      then Done ("", [], Some loc.errEmptyInputValues)
                      else Done (path, blob, None)
                  | _ => Done ("", [], Some loc.errEmptyInputValues)
                  end
              | _ => Done ("", [], Some loc.errEmptyInputValues)
              end).
  { unfold loc.getInputValues, obind. rewrite Hl; cbn [fst snd]. rewrite Hconv.
    rewrite Hright, Hr; cbn [fst snd]. rewrite Hbconv.
    destruct blob0; try reflexivity; destruct path0; reflexivity. }
  split.
  - intros Hempty. unfold loc.Eval. rewrite G.
    destruct Hempty as [-> | [Hb | [Hp | [-> | ->]]]].
    + reflexivity.
    + destruct blob0; try reflexivity. exfalso. apply (Hb b). reflexivity.
    + destruct blob0; try reflexivity. destruct path0; try reflexivity.
      exfalso. apply (Hp s). reflexivity.
    + destruct path0; reflexivity.
    + destruct blob0; try reflexivity.
      rewrite orb_true_r. reflexivity.
  - intros path blob -> -> Hp Hb.
    assert (E : ((len blob =? 0) || Nat.eqb (String.length path) 0)%bool = false).
    { apply orb_false_iff. split.
      - apply Z.eqb_neq. unfold len. destruct blob; [congruence | simpl; lia].
      - apply Nat.eqb_neq. destruct path; [congruence | simpl; lia]. }
    rewrite E in G. split; [exact G |].
    unfold loc.Eval. rewrite G.
    destruct (loc.getLanguage path blob w) as [[lang [e |]] w1]; simpl; [reflexivity |].
    destruct (String.eqb lang ""); [reflexivity |].
    destruct (Langs lang); reflexivity.
Qed.

(** X17. [getLanguage] detects the language of a non-empty blob once: when
    the lookup misses and the cache takes the detected language and gives
    it back for the key, the first call asks the detector and a second call
    returns the same language without asking. When the cache refuses the
    write, the error is returned in place of the detected language. *)
Theorem getLanguage_memoises :
  forall (path : string) (blob : list byte) (w : loc.World)
         (s0 : string) (e0 : error) (c1 : scache),
    blob <> [] ->
    scGet (loc.languageCache w) (languageHash path blob) = ((s0, Some e0), c1) ->
    let lang := enry_GetLanguage path blob in
    (forall (c2 c3 : scache),
        scPut c1 (languageHash path blob) lang = (None, c2) ->
        scGet c2 (languageHash path blob) = ((lang, None), c3) ->
        let r1 := loc.getLanguage path blob w in
        let r2 := loc.getLanguage path blob (snd r1) in
        fst r1 = (lang, None) /\
        loc.detected (snd r1) = (loc.detected w ++ [(path, blob)])%list /\
        fst r2 = (lang, None) /\
        loc.detected (snd r2) = loc.detected (snd r1)) /\
    (forall (e : error) (c2 : scache),
        scPut c1 (languageHash path blob) lang = (Some e, c2) ->
        fst (loc.getLanguage path blob w) = ("", Some e)).
Proof.
  intros path blob w s0 e0 c1 Hne Hmiss lang.
  assert (Hlen : (0 <? len blob) = true).
  { apply Z.ltb_lt. unfold len. destruct blob; [congruence | simpl; lia]. }
  split.
  - intros c2 c3 Hput Hget r1 r2.
    assert (E1 : r1 = ((lang, None),
                       loc.mkWorld c2 (loc.detected w ++ [(path, blob)])%list)).
    { unfold r1, loc.getLanguage. rewrite Hmiss, Hlen. fold lang. rewrite Hput.
      reflexivity. }
    assert (E2 : r2 = ((lang, None),
                       loc.mkWorld c3 (loc.detected w ++ [(path, blob)])%list)).
    { unfold r2. rewrite E1. unfold loc.getLanguage; simpl. rewrite Hget. reflexivity. }
    rewrite E2, E1. simpl. repeat split.
  - intros e c2 Hput. unfold loc.getLanguage. rewrite Hmiss, Hlen. fold lang.
    rewrite Hput. reflexivity.
Qed.

(** X18. [NewLOC] accepts exactly two arguments; the children of the
    function it builds are the two arguments, and [LOC.WithChildren]
    rebuilds the same function from them. A [LOC] without a right
    expression has one child and cannot be rebuilt from it. *)
Theorem LOC_WithChildren_Children :
  forall (args : list Expression),
    (List.length args = 2%nat <-> exists f, loc.NewLOC args = (Some f, None)) /\
    (List.length args <> 2%nat -> exists e, loc.NewLOC args = (None, Some e)) /\
    (forall f,
        loc.NewLOC args = (Some f, None) ->
        loc.Children f = args /\
        loc.WithChildren f (loc.Children f) = (Some f, None)) /\
    (forall l, exists e,
        loc.WithChildren (loc.mkLOC l None) (loc.Children (loc.mkLOC l None)) =
        (None, Some e)).
Proof.
  intros args. split; [| split; [| split]].
  - split.
    + intros Hlen. destruct args as [| a [| b [| c rest]]]; simpl in *; try discriminate.
      eexists; reflexivity.
    + intros [f Hf]. destruct args as [| a [| b [| c rest]]]; simpl in *;
        try discriminate; reflexivity.
  - intros Hlen. destruct args as [| a [| b [| c rest]]]; simpl in *;
      try (eexists; reflexivity). congruence.
  - intros f Hf. destruct args as [| a [| b [| c rest]]]; simpl in *; try discriminate.
    inversion Hf; subst f. split; reflexivity.
  - intros l. eexists. reflexivity.
Qed.

End LocProofs.

(** ** The further statements on the sample runs *)

(** [uast_mode(c0, c1, c2)] rebuilt from its children, and from one child. *)
Lemma uastFunc_WithChildren_Children_witness :
  uastFunc_WithChildren sample.byCol2 [demo.col 1; demo.col 0; demo.col 2] =
  Done (Some sample.byCol2, None) /\
  (exists e, uastFunc_WithChildren sample.byCol2 [demo.col 1] = Done (None, Some e)) /\
  (exists u', uastFunc_WithChildren sample.byCol2 [demo.col 3; demo.col 4; demo.col 5] =
              Done (Some u', None) /\
              uastFunc_Children u' = [demo.col 3; demo.col 4; demo.col 5]).
Proof.
  destruct (@uastFunc_WithChildren_Children demoHost sample.byCol2) as [Hself Hany].
  split; [exact Hself | split].
  - apply (Hany [demo.col 1]). simpl. discriminate.
  - apply (Hany [demo.col 3; demo.col 4; demo.col 5]). reflexivity.
Defined.

(** [uast(c1, c2)] *)
Lemma UAST_WithChildren_Children_witness :
  let u := mkUastFunc (NewLiteral "semantic") (demo.col 1) (Some (demo.col 2)) None in
  NewUAST [demo.col 1; demo.col 2] = Some u /\
  UAST_Children u = [demo.col 1; demo.col 2] /\
  UAST_WithChildren u [demo.col 1; demo.col 2] = (Some u, None) /\
  (exists e, UAST_WithChildren u [demo.col 1] = (None, Some e)).
Proof.
  intros u.
  destruct (@UAST_WithChildren_Children demoHost [demo.col 1; demo.col 2]) as [_ Hbuilt].
  destruct (Hbuilt u eq_refl) as (Hc & Hw & Hother).
  split; [reflexivity | split; [exact Hc | split; [exact Hw |]]].
  apply (Hother [demo.col 1]). simpl. discriminate.
Defined.

(** The same content resolved twice, then once more with a query. *)
Lemma second_resolution_hits_witness :
  let w1 := snd (getUAST sample.ab "go" "" demo.Semantic sample.w4) in
  requests w1 = [(sample.ab, "go", "", demo.Semantic)] /\
  fst (getUAST sample.ab "go" "" demo.Semantic w1) =
  fst (getUAST sample.ab "go" "" demo.Semantic sample.w4) /\
  requests (snd (getUAST sample.ab "go" "//body/*" demo.Semantic w1)) =
  [(sample.ab, "go", "", demo.Semantic)].
Proof.
  intros w1.
  pose (key := fst (fst (computeKey (h sample.w4) "semantic" "go" sample.ab))).
  destruct (@second_resolution_hits fnv1a lruCache demoHost
              sample.ab "go" "" demo.Semantic sample.w4 key
              NNil lru.ErrKeyNotFound (lru.New 250)
              (lru.mk 250 [(key, demo.file "go")]) (lru.mk 250 [(key, demo.file "go")])
              (demo.file "go"))
    as (Hr & _ & Hsame & Hany).
  - vm_compute; reflexivity.
  - vm_compute; reflexivity.
  - reflexivity.
  - discriminate.
  - vm_compute; reflexivity.
  - vm_compute; reflexivity.
  - split; [exact Hr | split; [exact Hsame |]].
    destruct (Hany "//body/*") as [Hreq _]. exact (eq_trans Hreq Hr).
Defined.

(** A parser that cannot be reached, and a cache that refuses the write. *)
Lemma hard_failures_are_returned_witness :
  fst (@getUAST fnv1a lruCache demo2.host sample.ab "down" "" demo.Semantic demo2.w4) =
  Done (VNil, Some (mkError KOther "connection refused")) /\
  fst (@getUAST fnv1a demo2.refusing demo2.host sample.ab "go" "" demo.Semantic
                demo2.wRefusing) =
  Done (VNil, Some (mkError KOther "memory: no space left")).
Proof.
  split.
  - destruct (@hard_failures_are_returned fnv1a lruCache demo2.host
                sample.ab "down" "" demo.Semantic demo2.w4
                (fst (fst (@computeKey fnv1a (@h fnv1a lruCache demo2.host demo2.w4)
                                       "semantic" "down" sample.ab)))
                NNil lru.ErrKeyNotFound (lru.New 250))
      as [Hparser _].
    + vm_compute; reflexivity.
    + vm_compute; reflexivity.
    + destruct (Hparser NNil (mkError KOther "connection refused") eq_refl eq_refl)
        as [H _].
      exact H.
  - destruct (@hard_failures_are_returned fnv1a demo2.refusing demo2.host
                sample.ab "go" "" demo.Semantic demo2.wRefusing
                (fst (fst (@computeKey fnv1a (@h fnv1a demo2.refusing demo2.host
                                                 demo2.wRefusing)
                                       "semantic" "go" sample.ab)))
                NNil lru.ErrKeyNotFound tt)
      as [_ Hput].
    + vm_compute; reflexivity.
    + reflexivity.
    + destruct (Hput (demo.file "go") (mkError KOther "memory: no space left") tt
                     eq_refl eq_refl)
        as [H _].
      exact H.
Defined.

(** A miss with a query, a hit, and a result that cannot be serialised. *)
Lemma resolved_result_witness :
  let w1 := snd (getUAST sample.ab "go" "//body/*" demo.Semantic sample.w4) in
  fst (getUAST sample.ab "go" "//body/*" demo.Semantic sample.w4) =
  Done (VBytes [x02], None) /\
  metrics w1 = [mkMetric "go" "//body/*" false] /\
  metrics (snd (getUAST sample.ab "go" "" demo.Semantic w1)) =
  [mkMetric "go" "//body/*" false; mkMetric "go" "" true] /\
  fst (@getUAST fnv1a lruCache demo2.host sample.ab "go" "//body/*" demo.Semantic demo2.w4) =
  Done (VNil, None) /\
  metrics (snd (@getUAST fnv1a lruCache demo2.host sample.ab "go" "//body/*"
                         demo.Semantic demo2.w4)) = [].
Proof.
  intros w1.
  pose (key := fst (fst (computeKey (h sample.w4) "semantic" "go" sample.ab))).
  destruct (@resolved_result fnv1a lruCache demoHost
              sample.ab "go" "//body/*" demo.Semantic sample.w4 key (demo.file "go")
              [demo.ident "x"; demo.ident "y"])
    as (_ & Hmiss & _).
  { vm_compute; reflexivity. }
  { right. split; [discriminate | reflexivity]. }
  destruct (Hmiss NNil lru.ErrKeyNotFound (lru.New 250)
                  (lru.mk 250 [(key, demo.file "go")]) (VBytes [x02]))
    as (Hres & _ & _ & Hm); try (vm_compute; reflexivity).
  destruct (@resolved_result fnv1a lruCache demoHost
              sample.ab "go" "" demo.Semantic w1 key (demo.file "go") [demo.file "go"])
    as (Hhit & _ & _).
  { vm_compute; reflexivity. }
  { left. split; reflexivity. }
  destruct (Hhit (lru.mk 250 [(key, demo.file "go")]) (VBytes [x01]))
    as (_ & _ & _ & Hm2); try (vm_compute; reflexivity); try discriminate.
  destruct (@resolved_result fnv1a lruCache demo2.host
              sample.ab "go" "//body/*" demo.Semantic demo2.w4 key (demo.file "go")
              [demo.ident "x"; demo.ident "y"])
    as (_ & _ & Hfail).
  { vm_compute; reflexivity. }
  { right. split; [discriminate | reflexivity]. }
  destruct (Hfail VNil (mkError KOther "too many nodes")) as (Hnull & _ & Hm3).
  { right. exists NNil, lru.ErrKeyNotFound, (lru.New 250).
    eexists. split; [vm_compute; reflexivity | split; reflexivity]. }
  { reflexivity. }
  split; [exact Hres | split; [exact Hm | split; [| split; [exact Hnull | exact Hm3]]]].
  rewrite Hm2. unfold w1. rewrite Hm. reflexivity.
Defined.

(** Two identifiers and the query that selects each node itself. *)
Lemma uast_xpath_concatenates_witness :
  UASTXPath_Eval sample.binary [VBytes [x02]; VText "//*"] = Done (VBytes [x02], None).
Proof.
  apply (@uast_xpath_concatenates demoHost sample.binary [VBytes [x02]; VText "//*"]
           "//*" (VBytes [x02]) [demo.ident "x"; demo.ident "y"]).
  - reflexivity.
  - discriminate.
  - reflexivity.
  - reflexivity.
  - intros n [<- | [<- | []]]; reflexivity.
Defined.

(** The tokens of two identifiers. *)
Lemma uast_extract_concatenates_witness :
  UASTExtract_Eval sample.binary [VBytes [x02]; VText "@token"] =
  Done (VArray [VText "x"; VText "y"], None).
Proof.
  apply (@uast_extract_concatenates demoHost sample.binary [VBytes [x02]; VText "@token"]
           (VBytes [x02]) [demo.ident "x"; demo.ident "y"] "@token"
           [[VText "x"]; [VText "y"]]).
  - reflexivity.
  - reflexivity.
  - reflexivity.
  - discriminate.
  - repeat constructor.
Defined.

(** A scalar property, an array of scalars and composites, and an array
    with a number that does not convert to text. *)
Lemma extract_any_property_witness :
  @extractProperties demo2.host (NObject demo2.props) "name" = Done [VText "n"] /\
  @extractProperties demo2.host (NObject demo2.props) "size" = Done [] /\
  @extractProperties demo2.host (NObject demo2.props) "names" =
  Done [VText "a"; VText "true"; VText "b"] /\
  @extractProperties demo2.host (NObject demo2.props) "sizes" = Done [].
Proof.
  split; [| split; [| split]].
  - destruct (@extract_any_property demo2.host demo2.props "name" (NString "n")
                eq_refl eq_refl) as [H _].
    exact (H eq_refl).
  - destruct (@extract_any_property demo2.host demo2.props "size" (NInt 3)
                eq_refl eq_refl) as [H _].
    exact (H eq_refl).
  - destruct (@extract_any_property demo2.host demo2.props "names"
                (NArray [NString "a"; NObject []; NBool true; NArray []; NString "b"])
                eq_refl eq_refl) as [_ H].
    destruct (H _ eq_refl eq_refl) as [Hok _].
    apply Hok. intros n Hin Hs. simpl in Hin.
    destruct Hin as [<- | [<- | [<- | [<- | [<- | []]]]]]; try reflexivity; discriminate.
  - destruct (@extract_any_property demo2.host demo2.props "sizes"
                (NArray [NString "a"; NInt 3]) eq_refl eq_refl) as [_ H].
    destruct (H _ eq_refl eq_refl) as [_ Hbad].
    apply Hbad. exists (NInt 3). split; [right; left; reflexivity | split].
    + reflexivity.
    + discriminate.
Defined.

(** An array property with a null in it. *)
Lemma extract_null_element_fails_witness :
  @UASTExtract_Eval demo2.host demo2.binary [VBytes [x05]; VText "holes"] =
  Done (VNil, Some (Errorf "uast: unknown error: " nilDeref)).
Proof.
  refine (proj2 (@extract_null_element_fails demo2.host demo2.binary
                   [VBytes [x05]; VText "holes"] (VBytes [x05]) demo2.props
                   [demo.ident "x"] "holes" [NString "a"; NNil]
                   eq_refl eq_refl eq_refl _ eq_refl eq_refl _ _)).
  - discriminate.
  - right; left; reflexivity.
  - intros n [<- | [<- | []]] Hs; [reflexivity | discriminate].
Defined.

(** The children of the go file. *)
Lemma children_are_objects_witness :
  flattenChildren [demo.file "go"] = Done [demo.ident "x"; demo.ident "y"] /\
  Forall (fun n => isObject n = true) [demo.ident "x"; demo.ident "y"].
Proof.
  assert (E : flattenChildren [demo.file "go"] = Done [demo.ident "x"; demo.ident "y"])
    by reflexivity.
  split; [exact E | exact (children_are_objects _ E)].
Defined.

(** A null first argument, and one that is not a serialised sequence. *)
Lemma null_and_undecodable_input_witness :
  UASTExtract_Eval sample.binary [VNil; VText "@type"] = Done (VNil, None) /\
  UASTImports_Eval sample.unary [VNil; VText "@type"] = Done (VNil, None) /\
  UASTChildren_Eval sample.unary [VText "zz"; VText "//*"] =
  Done (VNil, Some (mkError KOther "cannot decode nodes")) /\
  UASTXPath_Eval sample.binary [VText "zz"; VText "//*"] =
  Done (VNil, Some (mkError KOther "cannot decode nodes")).
Proof.
  destruct (@null_and_undecodable_input demoHost sample.binary sample.unary
              [VNil; VText "@type"] VNil eq_refl eq_refl) as [Hnull _].
  destruct (Hnull eq_refl) as (He & _ & Hi & _).
  destruct (@null_and_undecodable_input demoHost sample.binary sample.unary
              [VText "zz"; VText "//*"] (VText "zz") eq_refl eq_refl) as [_ Hbad].
  destruct (Hbad None (mkError KOther "cannot decode nodes") eq_refl)
    as (_ & Hc & _ & Hx).
  split; [exact He | split; [exact Hi | split; [exact Hc |]]].
  apply (Hx "//*"); [reflexivity | discriminate].
Defined.


(** A null blob, an empty path, and a go file of five bytes. *)
Lemma LOC_empty_input_is_null_witness :
  loc.Eval sampleLoc.byCols [VText "main.go"; VNil] sampleLoc.start =
  (Done (None, None), sampleLoc.start) /\
  loc.Eval sampleLoc.byCols [VText ""; VBytes sample.abcde] sampleLoc.start =
  (Done (None, None), sampleLoc.start) /\
  loc.detected (snd (loc.Eval sampleLoc.byCols sampleLoc.mainGo sampleLoc.start)) =
  [("main.go", sample.abcde)].
Proof.
  split; [| split].
  - refine (proj1 (@LOC_empty_input_is_null demoHost demoLocHost demoStringCache
                     sampleLoc.byCols (demo.col 1) [VText "main.go"; VNil] sampleLoc.start
                     (VText "main.go") VNil (VText "main.go") VNil
                     eq_refl eq_refl eq_refl eq_refl eq_refl) _).
    left. reflexivity.
  - refine (proj1 (@LOC_empty_input_is_null demoHost demoLocHost demoStringCache
                     sampleLoc.byCols (demo.col 1) [VText ""; VBytes sample.abcde]
                     sampleLoc.start
                     (VText "") (VBytes sample.abcde) (VText "") (VBytes sample.abcde)
                     eq_refl eq_refl eq_refl eq_refl eq_refl) _).
    right; right; right; right. reflexivity.
  - destruct (@LOC_empty_input_is_null demoHost demoLocHost demoStringCache
                sampleLoc.byCols (demo.col 1) sampleLoc.mainGo sampleLoc.start
                (VText "main.go") (VBytes sample.abcde) (VText "main.go")
                (VBytes sample.abcde) eq_refl eq_refl eq_refl eq_refl eq_refl)
      as [_ Hgo].
    destruct (Hgo "main.go" sample.abcde eq_refl eq_refl) as [_ Hw];
      try discriminate.
    rewrite Hw. reflexivity.
Defined.

(** The language of [main.go], asked for twice. *)
Lemma getLanguage_memoises_witness :
  let r1 := loc.getLanguage "main.go" sample.abcde sampleLoc.start in
  fst r1 = ("Go", None) /\
  fst (loc.getLanguage "main.go" sample.abcde (snd r1)) = ("Go", None) /\
  loc.detected (snd (loc.getLanguage "main.go" sample.abcde (snd r1))) =
  [("main.go", sample.abcde)].
Proof.
  intros r1.
  destruct (@getLanguage_memoises demoHost demoLocHost demoStringCache
              "main.go" sample.abcde sampleLoc.start "" lru.ErrKeyNotFound [])
    as [Hmemo _].
  - discriminate.
  - reflexivity.
  - destruct (Hmemo [(demoLoc.hash "main.go" sample.abcde, "Go")]
                    [(demoLoc.hash "main.go" sample.abcde, "Go")])
      as (H1 & Hd1 & H2 & Hd2).
    + reflexivity.
    + vm_compute; reflexivity.
    + split; [exact H1 | split; [exact H2 |]].
      exact (eq_trans Hd2 Hd1).
Defined.

(** [loc(c0, c1)] *)
Lemma LOC_WithChildren_Children_witness :
  loc.NewLOC [demo.col 0; demo.col 1] = (Some sampleLoc.byCols, None) /\
  loc.Children sampleLoc.byCols = [demo.col 0; demo.col 1] /\
  loc.WithChildren sampleLoc.byCols (loc.Children sampleLoc.byCols) =
  (Some sampleLoc.byCols, None) /\
  (exists e, loc.NewLOC [demo.col 0] = (None, Some e)).
Proof.
  destruct (@LOC_WithChildren_Children demoHost [demo.col 0; demo.col 1])
    as (_ & _ & Hbuilt & _).
  destruct (Hbuilt sampleLoc.byCols eq_refl) as [Hc Hw].
  destruct (@LOC_WithChildren_Children demoHost [demo.col 0]) as (_ & Hbad & _).
  split; [reflexivity | split; [exact Hc | split; [exact Hw |]]].
  apply Hbad. simpl. discriminate.
Defined.
